(** * A shallow embedding of [parse_starccm_logfile] (src/monitor.py)

    The log parser of the STAR-CCM+ monitor: a single forward pass over
    the lines of a log file that threads a mutable parser state (the
    output lists, the two header layouts, the current physical time and
    two flags) and raises Python exceptions that are caught either per
    data row ([except (ValueError, IndexError)]) or for the whole scan
    ([except Exception]).

    Modelling choices:
    - characters are ASCII ([ascii]); Python's [str.isspace] and the
      regex class [\s] are the ASCII whitespace characters 9..13 and
      28..32, [str.isdigit] and [\d] are ['0'..'9'];
    - a Python float is [pyfloat]: the exact decimal value [m * 10^e] of
      the literal (normalised), an infinity or NaN.  Rounding to the
      nearest double is not modelled, nor the sign of zero;
    - a Python dict is an association list whose order is insertion
      order; assigning an existing key keeps its position;
    - the parser state is a record and the code runs in a state monad
      with Python exceptions, so that appends made before an exception
      inside the [try] survive it, as they do in the source. *)

From Stdlib Require Import String Ascii List ZArith Bool Lia.
Import ListNotations.
Open Scope bool_scope.

(** ** Characters and strings *)

Definition is_space (c : ascii) : bool :=
  let n := nat_of_ascii c in
  ((9 <=? n) && (n <=? 13)) || ((28 <=? n) && (n <=? 32)).

Definition is_digit (c : ascii) : bool :=
  let n := nat_of_ascii c in (48 <=? n) && (n <=? 57).

Fixpoint lstrip_l (l : list ascii) : list ascii :=
  match l with
  | [] => []
  | c :: l' => if is_space c then lstrip_l l' else l
  end.

(** [str.strip()] *)
Definition strip (s : string) : string :=
  string_of_list_ascii
    (rev (lstrip_l (rev (lstrip_l (list_ascii_of_string s))))).

(** [sub in s] *)
Fixpoint contains (sub s : string) : bool :=
  String.prefix sub s ||
  match s with
  | EmptyString => false
  | String _ s' => contains sub s'
  end.

(** [s.isdigit()]: non-empty and only digits *)
Definition py_isdigit (s : string) : bool :=
  match s with
  | EmptyString => false
  | _ => forallb is_digit (list_ascii_of_string s)
  end.

Definition digit_val (c : ascii) : Z := Z.of_nat (nat_of_ascii c - 48).

Definition digits_to_Z (l : list ascii) : Z :=
  fold_left (fun acc c => acc * 10 + digit_val c)%Z l 0%Z.

(** [int(s)] for a string of ASCII digits *)
Definition py_int (s : string) : Z := digits_to_Z (list_ascii_of_string s).

(** ** Python floats *)

Inductive pyfloat : Type :=
| PFin (m e : Z)        (* the value m * 10^e, normalised *)
| PInf (neg : bool)
| PNaN.

(** Strip trailing zero digits of the mantissa into the exponent. *)
Fixpoint norm_aux (fuel : nat) (m e : Z) : Z * Z :=
  match fuel with
  | O => (m, e)
  | S f =>
      if (m =? 0)%Z then (0%Z, 0%Z)
      else if (Z.rem m 10 =? 0)%Z then norm_aux f (Z.quot m 10) (e + 1)
      else (m, e)
  end.

Definition lower (c : ascii) : ascii :=
  let n := nat_of_ascii c in
  if (65 <=? n) && (n <=? 90) then ascii_of_nat (n + 32) else c.

(** [digitpart ::= digit (["_"] digit)*], read greedily; returns the
    digits read (reversed onto [acc]) and the rest of the input. *)
Fixpoint digitpart_more (l : list ascii) (acc : list ascii)
  : list ascii * list ascii :=
  match l with
  | c :: l' =>
      if is_digit c then digitpart_more l' (c :: acc)
      else if Ascii.eqb c "_" then
        match l' with
        | d :: l'' => if is_digit d then digitpart_more l'' (d :: acc)
                      else (acc, l)
        | [] => (acc, l)
        end
      else (acc, l)
  | [] => (acc, l)
  end.

(** An optional digitpart: [([], l)] when [l] does not start with a digit. *)
Definition digitpart (l : list ascii) : list ascii * list ascii :=
  match l with
  | c :: l' => if is_digit c then
                 let (ds, r) := digitpart_more l' [c] in (rev ds, r)
               else ([], l)
  | [] => ([], [])
  end.

Definition opt_sign (l : list ascii) : bool * list ascii :=
  match l with
  | c :: l' => if Ascii.eqb c "-" then (true, l')
               else if Ascii.eqb c "+" then (false, l') else (false, l)
  | [] => (false, [])
  end.

(** [numeric ::= digitpart ["." [digitpart]] [exponent]
                | "." digitpart [exponent]] ; the whole input must match *)
Definition parse_numeric (neg : bool) (l : list ascii) : option pyfloat :=
  let (ip, r1) := digitpart l in
  let '(has_dot, r2) :=
    match r1 with
    | c :: r => if Ascii.eqb c "." then (true, r) else (false, r1)
    | [] => (false, r1)
    end in
  let (fp, r3) := if has_dot then digitpart r2 else ([], r2) in
  if (length ip =? 0) && (length fp =? 0) then None else
  let exp :=
    match r3 with
    | [] => Some 0%Z
    | c :: r =>
        if Ascii.eqb (lower c) "e" then
          let (eneg, r4) := opt_sign r in
          let (ed, r5) := digitpart r4 in
          match ed, r5 with
          | _ :: _, [] => Some (if eneg then - digits_to_Z ed else digits_to_Z ed)%Z
          | _, _ => None
          end
        else None
    end in
  match exp with
  | None => None
  | Some x =>
      let mag := digits_to_Z (ip ++ fp) in
      let m := if neg then (- mag)%Z else mag in
      let '(m', e') := norm_aux (S (length (ip ++ fp)))
                          m (x - Z.of_nat (length fp))%Z in
      Some (PFin m' e')
  end.

(** [float(s)]; [None] is the [ValueError] *)
Definition py_float (s : string) : option pyfloat :=
  let l := list_ascii_of_string (strip s) in
  let (neg, r) := opt_sign l in
  let w := string_of_list_ascii (map lower r) in
  if String.eqb w "inf" || String.eqb w "infinity" then Some (PInf neg)
  else if String.eqb w "nan" then Some PNaN
  else parse_numeric neg r.

(** ** [re.split] on whitespace runs *)

(** [re.split(r'\s{min,}', s)] for [min >= 1]: the separators are the
    maximal whitespace runs of length at least [min]; a separator at
    either end yields an empty piece there, as in Python.  [cur] is the
    current piece and [ws] the current whitespace run, both reversed. *)
Fixpoint split_go (min : nat) (l cur ws : list ascii) : list (list ascii) :=
  match l with
  | [] => if min <=? length ws then [rev cur; []] else [rev (ws ++ cur)]
  | c :: l' =>
      if is_space c then split_go min l' cur (c :: ws)
      else if min <=? length ws then rev cur :: split_go min l' [c] []
      else split_go min l' (c :: ws ++ cur) []
  end.

Definition re_split_ws (min : nat) (s : string) : list string :=
  map string_of_list_ascii (split_go min (list_ascii_of_string s) [] []).

(** [[h.strip() for h in re.split(r'\s{2,}', line) if h.strip()]] *)
Definition header_tokens (line : string) : list string :=
  filter (fun h => negb (String.eqb h EmptyString))
         (map strip (re_split_ws 2 line)).

(** ** The time-step regular expression *)

Fixpoint span (p : ascii -> bool) (l : list ascii) : list ascii * list ascii :=
  match l with
  | c :: l' => if p c then let (a, b) := span p l' in (c :: a, b) else ([], l)
  | [] => ([], [])
  end.

Fixpoint strip_prefix (pre l : list ascii) : option (list ascii) :=
  match pre, l with
  | [], _ => Some l
  | p :: pre', c :: l' => if Ascii.eqb p c then strip_prefix pre' l' else None
  | _ :: _, [] => None
  end.

(** [\s+] *)
Definition spaces1 (l : list ascii) : option (list ascii) :=
  let (w, r) := span is_space l in
  match w with [] => None | _ => Some r end.

(** the class [[\d.eE+-]] *)
Definition is_time_char (c : ascii) : bool :=
  is_digit c || Ascii.eqb c "." || Ascii.eqb c "e" || Ascii.eqb c "E"
  || Ascii.eqb c "+" || Ascii.eqb c "-".

(** [timestep_regex.match(line)] with
    [TimeStep\s+\d+:\s+Time\s+([\d.eE+-]+)]; returns group 1.  Each
    repeated class is followed by a character outside it, so the greedy
    match is the only one and no backtracking is needed. *)
Definition match_timestep (line : string) : option string :=
  let l := list_ascii_of_string line in
  match strip_prefix (list_ascii_of_string "TimeStep") l with
  | None => None
  | Some l1 =>
  match spaces1 l1 with
  | None => None
  | Some l2 =>
  let (d, l3) := span is_digit l2 in
  match d, l3 with
  | _ :: _, c :: l4 =>
      if negb (Ascii.eqb c ":") then None else
      match spaces1 l4 with
      | None => None
      | Some l5 =>
      match strip_prefix (list_ascii_of_string "Time") l5 with
      | None => None
      | Some l6 =>
      match spaces1 l6 with
      | None => None
      | Some l7 =>
      let (g, _) := span is_time_char l7 in
      match g with [] => None | _ => Some (string_of_list_ascii g) end
      end end end
  | _, _ => None
  end end end.

(** ** Dictionaries *)

Definition dict (V : Type) := list (string * V).

Fixpoint dict_get {V} (k : string) (d : dict V) : option V :=
  match d with
  | [] => None
  | (k', v) :: d' => if String.eqb k k' then Some v else dict_get k d'
  end.

(** [d[k] = v]: an existing key keeps its position *)
Fixpoint dict_set {V} (k : string) (v : V) (d : dict V) : dict V :=
  match d with
  | [] => [(k, v)]
  | (k', v') :: d' =>
      if String.eqb k k' then (k', v) :: d' else (k', v') :: dict_set k v d'
  end.

Definition keys {V} (d : dict V) : list string := map fst d.

(** [range]-style enumeration: [enumerate(l)] *)
Fixpoint enumerate_from {A} (i : nat) (l : list A) : list (nat * A) :=
  match l with
  | [] => []
  | x :: l' => (i, x) :: enumerate_from (S i) l'
  end.

(** ** Parser state and the state/exception monad *)

Record state : Type := mkState {
  iterations : list Z;
  report_times : list pyfloat;
  report_iterations : list Z;
  residuals_data : dict (list pyfloat);
  reports_data : dict (list pyfloat);
  residual_headers_map : dict nat;
  report_headers_map : dict nat;
  current_time : pyfloat;
  header_line_found : bool;
  iteration_data_started : bool }.

Inductive exn : Type := ValueError | IndexError | KeyError.

Inductive outcome (A : Type) : Type :=
| Ok (a : A)
| Raise (e : exn).
Arguments Ok {A} a.
Arguments Raise {A} e.

Definition M (A : Type) : Type := state -> state * outcome A.

Definition ret {A} (a : A) : M A := fun st => (st, Ok a).
Definition raise {A} (e : exn) : M A := fun st => (st, Raise e).
Definition bind {A B} (m : M A) (f : A -> M B) : M B := fun st =>
  match m st with
  | (st', Ok a) => f a st'
  | (st', Raise e) => (st', Raise e)
  end.
Definition gets {A} (f : state -> A) : M A := fun st => (st, Ok (f st)).
Definition modify (f : state -> state) : M unit := fun st => (f st, Ok tt).

Notation "x <- m ;; k" := (bind m (fun x => k))
  (at level 61, m at next level, right associativity).
Notation "m ;;; k" := (bind m (fun _ => k))
  (at level 61, right associativity).

(** [for x in l: body(x)] *)
Fixpoint forM_ {A} (l : list A) (body : A -> M unit) : M unit :=
  match l with
  | [] => ret tt
  | x :: l' => body x ;;; forM_ l' body
  end.

(** [try: body except (ValueError, IndexError): handler] *)
Definition try_value_index (body handler : M unit) : M unit := fun st =>
  match body st with
  | (st', Raise ValueError) | (st', Raise IndexError) => handler st'
  | r => r
  end.

Definition set_iterations l st :=
  mkState l st.(report_times) st.(report_iterations) st.(residuals_data)
    st.(reports_data) st.(residual_headers_map) st.(report_headers_map)
    st.(current_time) st.(header_line_found) st.(iteration_data_started).
Definition set_report_times l st :=
  mkState st.(iterations) l st.(report_iterations) st.(residuals_data)
    st.(reports_data) st.(residual_headers_map) st.(report_headers_map)
    st.(current_time) st.(header_line_found) st.(iteration_data_started).
Definition set_report_iterations l st :=
  mkState st.(iterations) st.(report_times) l st.(residuals_data)
    st.(reports_data) st.(residual_headers_map) st.(report_headers_map)
    st.(current_time) st.(header_line_found) st.(iteration_data_started).
Definition set_residuals_data d st :=
  mkState st.(iterations) st.(report_times) st.(report_iterations) d
    st.(reports_data) st.(residual_headers_map) st.(report_headers_map)
    st.(current_time) st.(header_line_found) st.(iteration_data_started).
Definition set_reports_data d st :=
  mkState st.(iterations) st.(report_times) st.(report_iterations)
    st.(residuals_data) d st.(residual_headers_map) st.(report_headers_map)
    st.(current_time) st.(header_line_found) st.(iteration_data_started).
Definition set_residual_headers_map m st :=
  mkState st.(iterations) st.(report_times) st.(report_iterations)
    st.(residuals_data) st.(reports_data) m st.(report_headers_map)
    st.(current_time) st.(header_line_found) st.(iteration_data_started).
Definition set_report_headers_map m st :=
  mkState st.(iterations) st.(report_times) st.(report_iterations)
    st.(residuals_data) st.(reports_data) st.(residual_headers_map) m
    st.(current_time) st.(header_line_found) st.(iteration_data_started).
Definition set_current_time t st :=
  mkState st.(iterations) st.(report_times) st.(report_iterations)
    st.(residuals_data) st.(reports_data) st.(residual_headers_map)
    st.(report_headers_map) t st.(header_line_found) st.(iteration_data_started).
Definition set_header_line_found b st :=
  mkState st.(iterations) st.(report_times) st.(report_iterations)
    st.(residuals_data) st.(reports_data) st.(residual_headers_map)
    st.(report_headers_map) st.(current_time) b st.(iteration_data_started).
Definition set_iteration_data_started b st :=
  mkState st.(iterations) st.(report_times) st.(report_iterations)
    st.(residuals_data) st.(reports_data) st.(residual_headers_map)
    st.(report_headers_map) st.(current_time) st.(header_line_found) b.

(** ** [parse_starccm_logfile] *)

Definition expected_residual_cols : list string :=
  ["Continuity"; "X-momentum"; "Y-momentum"; "Z-momentum"; "Tke"; "Sdr";
   "Intermittency"]%string.

Definition mem (x : string) (l : list string) : bool :=
  existsb (String.eqb x) l.

(** [float(values_str[col_idx]) if col_idx < len(values_str) else float('nan')] *)
Definition read_col (values_str : list string) (col_idx : nat) : outcome pyfloat :=
  if col_idx <? length values_str then
    match py_float (nth col_idx values_str EmptyString) with
    | Some v => Ok v
    | None => Raise ValueError
    end
  else Ok PNaN.

(** [d[name].append(arg)] for the dict [get st] of the state (written
    back with [put]): the subscript is evaluated (KeyError) before the
    argument (ValueError). *)
Definition append_in (get : state -> dict (list pyfloat))
    (put : dict (list pyfloat) -> state -> state)
    (name : string) (arg : outcome pyfloat) : M unit := fun st =>
  match dict_get name (get st) with
  | None => (st, Raise KeyError)
  | Some l =>
      match arg with
      | Raise e => (st, Raise e)
      | Ok v => (put (dict_set name (l ++ [v]) (get st)) st, Ok tt)
      end
  end.

(** [residuals_data[name].append(arg)] *)
Definition residual_append := append_in residuals_data set_residuals_data.

(** [reports_data[name].append(arg)] *)
Definition report_append := append_in reports_data set_reports_data.

(** Lines 72-88: the body of the [try] for a data row, given
    [values_str = re.split(r'\s+', line.strip())]. *)
Definition row_body (req : list string) (values_str : list string) : M unit :=
  match values_str with
  | [] => ret tt
  | v0 :: _ =>
    if negb (py_isdigit v0) then ret tt else
    let iter_num := py_int v0 in
    modify (fun st => set_iterations (st.(iterations) ++ [iter_num]) st) ;;;
    rmap <- gets residual_headers_map ;;
    forM_ rmap (fun '(res_name, col_idx) =>
                  residual_append res_name (read_col values_str col_idx)) ;;;
    let first_report_col_name :=
      match req with [] => None | r :: _ => Some r end in
    rep_map <- gets report_headers_map ;;
    let first_report_col_idx :=
      match first_report_col_name with
      | Some name =>
          (* [... if first_report_col_name else None]: "" is falsy *)
          if String.eqb name EmptyString then None else dict_get name rep_map
      | None => None
      end in
    match first_report_col_idx with
    | Some j =>
        if (j <? length values_str)
           && negb (mem (nth j values_str EmptyString) ["---"; ""]%string)
        then
          t <- gets current_time ;;
          modify (fun st => set_report_times (st.(report_times) ++ [t]) st) ;;;
          modify (fun st =>
            set_report_iterations (st.(report_iterations) ++ [iter_num]) st) ;;;
          forM_ rep_map (fun '(report_name, col_idx) =>
                   report_append report_name (read_col values_str col_idx))
        else ret tt
    | None => ret tt
    end
  end.

(** Line 92: [if len(residuals_data[res_name]) < len(iterations):
                 residuals_data[res_name].append(float('nan'))] *)
Definition pad_one (res_name : string) : M unit := fun st =>
  match dict_get res_name st.(residuals_data) with
  | None => (st, Raise KeyError)
  | Some l =>
      if length l <? length st.(iterations) then
        (set_residuals_data
           (dict_set res_name (l ++ [PNaN]) st.(residuals_data)) st, Ok tt)
      else (st, Ok tt)
  end.

(** Lines 89-93: the [except (ValueError, IndexError)] handler. *)
Definition except_handler : M unit := fun st =>
  match st.(iterations) with
  | [] => (st, Ok tt)
  | _ =>
      match dict_get (hd EmptyString expected_residual_cols) st.(residuals_data) with
      | None => (st, Raise KeyError)
      | Some c =>
          if match c with [] => true | _ => false end
             || (length c <? length st.(iterations))
          then forM_ expected_residual_cols pad_one st
          else (st, Ok tt)
      end
  end.

(** Line 60: the header test. *)
Definition is_header_line (req : list string) (line : string) : bool :=
  String.prefix "Iteration" line && contains "Continuity" line
  && match req with
     | [] => true
     | _ => existsb (fun report_col => contains report_col line) req
     end.

(** Lines 63-66: [temp_residual_map], [temp_report_map]. *)
Definition build_header_maps (req : list string) (headers : list string)
  : dict nat * dict nat :=
  fold_left
    (fun '(tr, tp) '(i, header) =>
       if mem header expected_residual_cols then (dict_set header i tr, tp)
       else if mem header req then (tr, dict_set header i tp)
       else (tr, tp))
    (enumerate_from 0 headers) ([], []).

(** Lines 61-68 *)
Definition header_update (req : list string) (line : string) : M unit :=
  modify (set_header_line_found true) ;;;
  let '(temp_residual_map, temp_report_map) :=
    build_header_maps req (header_tokens line) in
  match temp_residual_map with
  | [] => ret tt
  | _ => modify (set_residual_headers_map temp_residual_map)
  end ;;;
  match temp_report_map with
  | [] => ret tt
  | _ => modify (set_report_headers_map temp_report_map)
  end.

(** Line 72: [re.split(r'\s+', line.strip())] on the stripped line. *)
Definition values_str_of (line : string) : list string :=
  re_split_ws 1 (strip line).

(** Lines 52-93: one iteration of [for line in f]. *)
Definition process_line (req : list string) (raw : string) : M unit :=
  let line := strip raw in
  match line with
  | EmptyString => ret tt
  | String c0 _ =>
    match match_timestep line with
    | Some g =>
        match py_float g with
        | Some t => modify (set_current_time t) ;;;
                    modify (set_iteration_data_started true)
        | None => raise ValueError
        end
    | None =>
        if is_header_line req line then header_update req line
        else fun st =>
          if st.(header_line_found) && st.(iteration_data_started)
             && (String.prefix " " line || is_digit c0)
          then try_value_index (row_body req (values_str_of line))
                               except_handler st
          else (st, Ok tt)
    end
  end.

Definition scan (req : list string) (lines : list string) : M unit :=
  forM_ lines (process_line req).

(** Lines 37-47 *)
Definition init_state (req : list string) : state :=
  mkState [] [] []
    (map (fun k => (k, [])) expected_residual_cols)
    (fold_left (fun d key => dict_set key [] d) req [])
    [] [] (PFin 0 0) false false.

Definition result : Type :=
  (list Z * dict (list pyfloat) * list Z * list pyfloat * dict (list pyfloat))%type.

(** Lines 101-107 *)
Definition finalize (st : state) : result :=
  let res :=
    match st.(iterations) with
    | [] => st.(residuals_data)
    | _ =>
        let max_len := length st.(iterations) in
        map (fun '(k, l) =>
               (k, firstn max_len (l ++ repeat PNaN (max_len - length l))))
            st.(residuals_data)
    end in
  (st.(iterations), res, st.(report_iterations), st.(report_times),
   st.(reports_data)).

(** The file as [open(filepath, 'r', encoding='utf-8', errors='ignore')]
    sees it: missing, failing to read, or its decoded text. *)
Inductive log_file : Type :=
| Missing
| ReadError
| Contents (text : string).

Definition LF : ascii := ascii_of_nat 10.
Definition CR : ascii := ascii_of_nat 13.

(** [for line in f] in text mode: universal newlines ("\n", "\r\n" and
    "\r" end a line and read as "\n"); the newline stays on the line. *)
Fixpoint lines_go (l cur : list ascii) : list (list ascii) :=
  match l with
  | [] => match cur with [] => [] | _ => [rev cur] end
  | c :: l' =>
      if Ascii.eqb c LF then rev (LF :: cur) :: lines_go l' []
      else if Ascii.eqb c CR then
        match l' with
        | d :: l'' => if Ascii.eqb d LF then rev (LF :: cur) :: lines_go l'' []
                      else rev (LF :: cur) :: lines_go l' []
        | [] => [rev (LF :: cur)]
        end
      else lines_go l' (c :: cur)
  end.

Definition read_lines (text : string) : list string :=
  map string_of_list_ascii (lines_go (list_ascii_of_string text) []).

Definition empty_result : result := ([], [], [], [], []).

(** [parse_starccm_logfile(filepath, colunas_relatorios_especificadas)] *)
Definition parse_starccm_logfile (f : log_file) (req : list string) : result :=
  match f with
  | Missing => empty_result            (* except FileNotFoundError *)
  | ReadError => empty_result          (* except Exception *)
  | Contents text =>
      match scan req (read_lines text) (init_state req) with
      | (st, Ok _) => finalize st
      | (_, Raise _) => empty_result   (* except Exception *)
      end
  end.

(** * The code around the parser (src/monitor.py)

    Modelling choices:
    - the host is POSIX, so [os.path] is [posixpath];
    - the remote side (paramiko's SSH and SFTP calls) is an input: what a
      folder listing returns, whether an image can be fetched and read,
      whether the server accepts the credentials, the text of the log;
    - the local file system is the list of the directories that exist
      (named by the strings the code builds); [os.makedirs] adds one,
      [os.makedirs("")] raises [FileNotFoundError]; permission errors are
      not modelled;
    - a matplotlib call is an event of a trace; [Axes.plot(x, y)] raises
      [ValueError] when [x] and [y] differ in length (matplotlib's
      "x and y must have same first dimension"); other matplotlib failures
      are not modelled;
    - the [while True] loop of [monitor_simulation] is run on a finite
      list of rounds, one environment per round: the trace of its first
      rounds. *)

(** ** [posixpath] *)

Definition is_slash (c : ascii) : bool := Ascii.eqb c "/".

(** [s.endswith(suffix)] *)
Definition ends_with (s suffix : string) : bool :=
  (String.length suffix <=? String.length s)%nat &&
  String.eqb (substring (String.length s - String.length suffix)
                        (String.length suffix) s) suffix.

(** [s.lower()] *)
Definition str_lower (s : string) : string :=
  string_of_list_ascii (map lower (list_ascii_of_string s)).

(** One pass of the loop of [posixpath.join(a, *p)]. *)
Definition join_step (path b : string) : string :=
  if String.prefix "/" b then b
  else if String.eqb path EmptyString || ends_with path "/" then path ++ b
  else path ++ "/" ++ b.

(** [posixpath.join(a, *p)] on strings *)
Definition posix_join (a : string) (p : list string) : string :=
  fold_left join_step p a.

Fixpoint drop_while (f : ascii -> bool) (l : list ascii) : list ascii :=
  match l with
  | [] => []
  | c :: l' => if f c then drop_while f l' else l
  end.

(** [posixpath.dirname(p)]: [head = p[:p.rfind('/') + 1]], then
    [head.rstrip('/')] unless [head] is empty or only slashes. *)
Definition posix_dirname (p : string) : string :=
  let head := rev (drop_while (fun c => negb (is_slash c))
                              (rev (list_ascii_of_string p))) in
  string_of_list_ascii
    (match head with
     | [] => []
     | _ => if forallb is_slash head then head
            else rev (drop_while is_slash (rev head))
     end).

(** ** [find_latest_image_in_remote_folder] (lines 112-124) *)

(** The two attributes of paramiko's [SFTPAttributes] the code reads;
    [st_mtime] is [None] when the server did not send it. *)
Record sftp_attr : Type := mkAttr {
  filename : string;
  st_mtime : option Z
}.

Definition image_extensions : list string :=
  [".png"; ".jpg"; ".jpeg"; ".gif"; ".bmp"; ".tiff"]%string.

(** [attr.filename.lower().endswith(image_extensions)] *)
Definition is_image_file (name : string) : bool :=
  existsb (ends_with (str_lower name)) image_extensions.

(** Lines 115-118: the [(path, mtime)] pairs of the image files, in
    listing order. *)
Definition image_files_attrs (remote_folder_path : string)
    (folder_contents : list sftp_attr) : list (string * option Z) :=
  map (fun attr => (posix_join remote_folder_path [filename attr], st_mtime attr))
      (filter (fun attr => is_image_file (filename attr)) folder_contents).

(** [max(items, key=lambda x: x['mtime'])] once the first item is taken:
    an item replaces the running maximum only if its key is strictly
    greater; comparing with [None] raises [TypeError] ([None] here). *)
Fixpoint max_by_mtime (best : string * option Z) (l : list (string * option Z))
  : option (string * option Z) :=
  match l with
  | [] => Some best
  | x :: l' =>
      match snd x, snd best with
      | Some v, Some m => if (m <? v)%Z then max_by_mtime x l' else max_by_mtime best l'
      | _, _ => None
      end
  end.

(** [listing] is what [sftp_client.listdir_attr(remote_folder_path)]
    returns, [None] when it raises; every exception gives [None]. *)
Definition find_latest_image_in_remote_folder (listing : option (list sftp_attr))
    (remote_folder_path : string) : option string :=
  match listing with
  | None => None
  | Some folder_contents =>
      match image_files_attrs remote_folder_path folder_contents with
      | [] => None
      | x :: rest => option_map fst (max_by_mtime x rest)
      end
  end.

(** ** [plot_data] (lines 132-219) *)

(** The drawing calls whose presence depends on the data. *)
Inductive plot_event : Type :=
| NoDataMsg                              (* "Nenhum dado válido ..." *)
| ResidualLine (key : string)            (* ax_residuals.plot(iterations, values) *)
| ResidualXLim (left right : Z)          (* ax_residuals.set_xlim *)
| ReportLine (key : string)              (* ax_reports.plot(report_times, ...) *)
| ReportAxes                             (* labels, grid, set_ylim(-100, 100), legend *)
| NoReportText                           (* "Sem dados de relatórios ..." *)
| LastValueText (key : string) (v : pyfloat)
| ImageShown (name path : string)        (* imshow of the fetched image *)
| ImageLoadError (name : string)         (* "Erro ao carregar imagem ..." *)
| ImageUnavailable (name : string)       (* "Imagem de ... Não Disponível" *)
| SftpInactive (name : string)           (* "SFTP inativo" *)
| Saved (file : string)                  (* plt.savefig succeeded *)
| SaveFailed                             (* "Erro ao salvar o gráfico" *)
| Shown                                  (* plt.show() *)
| Closed.                                (* plt.close(fig) *)

(** The exceptions that leave [plot_data]. *)
Inductive py_error : Type :=
| PyValueError
| PyFileNotFoundError.

(** The remote folders as seen through an SFTP client. *)
Record remote_fs : Type := mkRemote {
  listdir_attr : string -> option (list sftp_attr);   (* None: raises *)
  image_loads : string -> bool   (* get, imread, imshow and remove succeed *)
}.

Definition is_nan (v : pyfloat) : bool :=
  match v with PNaN => true | _ => false end.

(** [any(v == v for v in values)]: NaN is the only value unequal to
    itself. *)
Definition has_number (values : list pyfloat) : bool :=
  existsb (fun v => negb (is_nan v)) values.

(** Lines 146-148: one line per residual with a number. *)
Fixpoint residual_lines (iterations : list Z) (d : dict (list pyfloat))
  : list plot_event * option py_error :=
  match d with
  | [] => ([], None)
  | (key, values) :: d' =>
      if has_number values then
        if (length iterations =? length values)%nat then
          let '(evs, e) := residual_lines iterations d' in (ResidualLine key :: evs, e)
        else ([], Some PyValueError)
      else residual_lines iterations d'
  end.

(** Lines 163-167: one line per listed report with a number; the flag is
    [has_line_data]. *)
Fixpoint report_lines (report_times : list pyfloat) (reports_data : dict (list pyfloat))
    (keys_ : list string) : list plot_event * bool * option py_error :=
  match keys_ with
  | [] => ([], false, None)
  | key :: ks =>
      match dict_get key reports_data with
      | Some values =>
          if has_number values then
            if (length report_times =? length values)%nat then
              let '(evs, h, e) := report_lines report_times reports_data ks in
              (ReportLine key :: evs, true, e)
            else ([], false, Some PyValueError)
          else report_lines report_times reports_data ks
      | None => report_lines report_times reports_data ks
      end
  end.

Definition reports_to_display_as_text : list string := ["Y+ maximo"%string].

(** Lines 176-188: the last value of each text report that has one. *)
Definition text_reports (reports_data : dict (list pyfloat)) : list plot_event :=
  flat_map (fun key =>
              match dict_get key reports_data with
              | Some (v :: vs) => [LastValueText key (last (v :: vs) PNaN)]
              | _ => []
              end) reports_to_display_as_text.

(** Lines 192-209: one image panel. *)
Definition image_panel (sftp_client_obj : option remote_fs) (base_remote_dir : string)
    (name : string) : plot_event :=
  match sftp_client_obj with
  | Some fs =>
      if String.eqb base_remote_dir EmptyString then SftpInactive name else
      let remote_image_folder := posix_join base_remote_dir [name] in
      match find_latest_image_in_remote_folder (listdir_attr fs remote_image_folder)
              remote_image_folder with
      | Some latest_image_path =>
          if String.eqb latest_image_path EmptyString then ImageUnavailable name
          else if image_loads fs latest_image_path then ImageShown name latest_image_path
          else ImageLoadError name
      | None => ImageUnavailable name
      end
  | None => SftpInactive name
  end.

Definition image_subfolders : list string := ["Pressure"; "Velocity"]%string.

(** [plot_data(...)]: the directories that exist afterwards, the trace,
    and the exception that leaves it, if any.  [output_filename] is
    [None] for Python's [None]; [save_ok] is whether [plt.savefig]
    succeeds. *)
Definition plot_data (iterations : list Z) (residuals_data : dict (list pyfloat))
    (report_iterations : list Z) (report_times : list pyfloat)
    (reports_data : dict (list pyfloat)) (colunas_reports_para_plotar : list string)
    (sftp_client_obj : option remote_fs) (base_remote_dir : string)
    (output_filename : option string) (show_plot_interactively : bool)
    (save_ok : bool) (dirs : list string)
  : list string * list plot_event * option py_error :=
  let output_dir :=
    match output_filename with
    | Some f => if String.eqb f EmptyString then "."%string else posix_dirname f
    | None => "."%string
    end in
  (* os.makedirs(output_dir, exist_ok=True) *)
  if String.eqb output_dir EmptyString then (dirs, [], Some PyFileNotFoundError) else
  let dirs := if existsb (String.eqb output_dir) dirs then dirs else output_dir :: dirs in
  match iterations, report_times with
  | [], [] => (dirs, [NoDataMsg], None)
  | _, _ =>
  let '(ev_res, e_res) := residual_lines iterations residuals_data in
  match e_res with
  | Some e => (dirs, ev_res, Some e)
  | None =>
  let ev_xlim :=
    match iterations with
    | [] => []
    | _ => [ResidualXLim (nth (length iterations - 50) iterations 0%Z)
                         (last iterations 0%Z)]
    end in
  let reports_to_plot_as_lines :=
    filter (fun r => negb (existsb (String.eqb r) reports_to_display_as_text))
           colunas_reports_para_plotar in
  let '(ev_rep, has_line_data, e_rep) :=
    report_lines report_times reports_data reports_to_plot_as_lines in
  match e_rep with
  | Some e => (dirs, ev_res ++ ev_xlim ++ ev_rep, Some e)
  | None =>
  let ev_axes := if has_line_data then [ReportAxes] else [NoReportText] in
  let ev_text := text_reports reports_data in
  let ev_img := map (image_panel sftp_client_obj base_remote_dir) image_subfolders in
  let ev_save :=
    match output_filename with
    | Some f => if String.eqb f EmptyString then []
                else if save_ok then [Saved f] else [SaveFailed]
    | None => []
    end in
  let ev_show := if show_plot_interactively then [Shown] else [] in
  (dirs, ev_res ++ ev_xlim ++ ev_rep ++ ev_axes ++ ev_text ++ ev_img ++ ev_save
           ++ ev_show ++ [Closed], None)
  end end end.

(** ** JSON values *)

(** A value of [json.load]: objects are dicts with distinct keys. *)
#[warnings="-register-all"]
Inductive json : Type :=
| JNull
| JBool (b : bool)
| JInt (n : Z)
| JFloat (f : pyfloat)
| JStr (s : string)
| JArr (l : list json)
| JObj (d : dict json).

(** [bool(x)] *)
Definition py_truthy (j : json) : bool :=
  match j with
  | JNull => false
  | JBool b => b
  | JInt n => negb (n =? 0)%Z
  | JFloat (PFin m _) => negb (m =? 0)%Z
  | JFloat _ => true
  | JStr s => negb (String.eqb s EmptyString)
  | JArr l => match l with [] => false | _ => true end
  | JObj d => match d with [] => false | _ => true end
  end.

(** ** [monitor_simulation] (lines 223-276) *)

Inductive auth : Type :=
| KeyAuth (key_filename : string)
| PasswordAuth (password : json).

(** What [ssh_client.connect(...)] does. *)
Inductive connect_result : Type :=
| Connected
| AuthFailure      (* paramiko.AuthenticationException *)
| SSHFailure       (* paramiko.SSHException *)
| OtherFailure.    (* any other Exception, e.g. a timeout *)

(** The [except] clause that handles an exception of a round. *)
Inductive mon_error : Type :=
| AuthError | SSHError | NotFoundError | OtherError.

Definition plot_error (e : py_error) : mon_error :=
  match e with
  | PyValueError => OtherError
  | PyFileNotFoundError => NotFoundError
  end.

Inductive mon_event : Type :=
| Prompted                                 (* getpass.getpass(...) *)
| Connecting (a : auth)
| Downloaded
| NoIterations                             (* "Nenhum dado de iteração ..." *)
| Plotted (out : result) (images_dir : string) (tr : list plot_event)
| Failed (e : mon_error)
| SftpClosed
| SshClosed
| Slept
| Stopped.                                 (* break *)

(** The outside world during one round. *)
Record round_env : Type := mkRound {
  prompt_answer : string;                  (* what getpass returns *)
  connect : auth -> connect_result;
  sftp_opens : bool;                       (* false: open_sftp raises SSHException *)
  remote_log : option string;   (* the file at remote_log_path; None: missing *)
  remote : remote_fs;
  env_save_ok : bool                       (* plt.savefig succeeds *)
}.

Section Monitor.

Variables (base_remote_dir_images : string)
  (reports_to_plot : list string) (output_filename : string)
  (use_key_auth : bool) (ssh_key_path : string).

(** One pass of the [while True] loop: the password and the existing
    directories afterwards, the events, and whether the loop goes on. *)
Definition monitor_round (password : json) (dirs : list string) (env : round_env)
  : json * list string * list mon_event * bool :=
  let output_dir := posix_dirname output_filename in
  let '(password, ev_prompt) :=
    if use_key_auth then (password, [])
    else if py_truthy password then (password, [])
    else (JStr (prompt_answer env), [Prompted]) in
  let a := if use_key_auth then KeyAuth ssh_key_path else PasswordAuth password in
  let closes := [SftpClosed; SshClosed] in
  let '(dirs, ev_body, stop) :=
    match connect env a with
    | AuthFailure => (dirs, [Failed AuthError; SshClosed], true)
    | SSHFailure => (dirs, [Failed SSHError; SshClosed], false)
    | OtherFailure => (dirs, [Failed OtherError; SshClosed], false)
    | Connected =>
        if negb (sftp_opens env) then (dirs, [Failed SSHError; SshClosed], false) else
        (* sftp_client.get opens the local file first *)
        if negb (String.eqb output_dir EmptyString || existsb (String.eqb output_dir) dirs)
        then (dirs, Failed NotFoundError :: closes, false) else
        match remote_log env with
        | None => (dirs, Failed NotFoundError :: closes, false)
        | Some text =>
            let out := parse_starccm_logfile (Contents text) reports_to_plot in
            let '(iterations, residuals, report_iters, report_times, reports) := out in
            match iterations with
            | [] => (dirs, Downloaded :: NoIterations :: closes, false)
            | _ =>
                let '(dirs', tr, e) :=
                  plot_data iterations residuals report_iters report_times reports
                    reports_to_plot (Some (remote env)) base_remote_dir_images
                    (Some output_filename) false (env_save_ok env) dirs in
                (dirs', Downloaded :: Plotted out base_remote_dir_images tr ::
                        match e with None => [] | Some e => [Failed (plot_error e)] end
                        ++ closes, false)
            end
        end
    end in
  (password, dirs, ev_prompt ++ Connecting a :: ev_body ++
                   (if stop then [Stopped] else [Slept]), negb stop).

Fixpoint monitor_loop (password : json) (dirs : list string) (envs : list round_env)
  : list mon_event :=
  match envs with
  | [] => []
  | env :: envs' =>
      let '(password', dirs', evs, go_on) := monitor_round password dirs env in
      evs ++ (if go_on then monitor_loop password' dirs' envs' else [])
  end.

End Monitor.

(** The images folder of lines 230-231; [None]: [posixpath.join] raises
    [TypeError] on a truthy subfolder that is not a string. *)
Definition images_dir (remote_log_path : string) (case_subfolder : json) : option string :=
  let base_remote_dir_log := posix_dirname remote_log_path in
  if py_truthy case_subfolder then
    match case_subfolder with
    | JStr s => Some (posix_join base_remote_dir_log [s])
    | _ => None
    end
  else Some base_remote_dir_log.

(** [monitor_simulation(...)] on its first rounds; [None] when it raises
    before the loop. *)
Definition monitor_simulation (remote_log_path : string) (case_subfolder : json)
    (reports_to_plot : list string) (output_filename : string) (use_key_auth : bool)
    (ssh_key_path : string) (password : json) (dirs : list string)
    (envs : list round_env) : option (list mon_event) :=
  match images_dir remote_log_path case_subfolder with
  | None => None
  | Some base_remote_dir_images =>
      Some (monitor_loop base_remote_dir_images reports_to_plot
              output_filename use_key_auth ssh_key_path password dirs envs)
  end.

(** ** The configuration step of the script (lines 300-348) *)

(** [open(args.config)] and [json.load(f)]. *)
Inductive config_file : Type :=
| ConfigMissing                (* FileNotFoundError *)
| ConfigNotJson                (* json.JSONDecodeError *)
| ConfigUnreadable             (* any other error: not caught *)
| ConfigLoaded (j : json).

(** The arguments [main] passes to [monitor_simulation]. *)
Record launch : Type := mkLaunch {
  l_username : json;
  l_password : json;
  l_remote_log_path : string;
  l_case_subfolder : json;
  l_reports_to_plot : json;
  l_output_filename : string;
  l_use_key_auth : bool
}.

Inductive main_outcome : Type :=
| ExitConfigError                          (* exit(1) on a bad config file *)
| ExitUnknownCase (available : list string)  (* exit(1), listing the cases *)
| ExitIncomplete (missing : list string)     (* exit(1), listing the keys *)
| Crash                                    (* an uncaught exception *)
| Launch (l : launch).

Definition required_keys : list string :=
  ["user"; "password"; "base_dir"; "simulation_folder"; "logfile"]%string.

(** [key in d] *)
Definition has_key (k : string) (d : dict json) : bool :=
  existsb (String.eqb k) (keys d).

(** [d.get(k, default)] *)
Definition get_or (d : dict json) (k : string) (default : json) : json :=
  match dict_get k d with Some v => v | None => default end.

Definition main_config (file : config_file) (case_name output_dir : string)
  : main_outcome :=
  match file with
  | ConfigMissing | ConfigNotJson => ExitConfigError
  | ConfigUnreadable => Crash
  | ConfigLoaded (JObj all_configs) =>
      let case_config := get_or all_configs case_name JNull in
      if negb (py_truthy case_config) then ExitUnknownCase (keys all_configs) else
      match case_config with
      | JObj case_config =>
          let user := get_or case_config "user" JNull in
          let password := get_or case_config "password" JNull in
          let base_dir := get_or case_config "base_dir" JNull in
          let simulation_folder := get_or case_config "simulation_folder" JNull in
          let case_subfolder := get_or case_config "case_subfolder" JNull in
          let logfile := get_or case_config "logfile" JNull in
          let reports_to_plot := get_or case_config "reports" (JArr []) in
          if negb (forallb (fun key => has_key key case_config) required_keys) then
            ExitIncomplete (filter (fun key => negb (has_key key case_config)) required_keys)
          else
          match base_dir, simulation_folder, logfile with
          | JStr b, JStr s, JStr l =>
              let output_image_base_name :=
                ("status_" ++ s ++ "_" ++ case_name ++ ".png")%string in
              Launch (mkLaunch user password (posix_join b [s; l]) case_subfolder
                        reports_to_plot (posix_join output_dir [output_image_base_name])
                        (negb (py_truthy password)))
          | _, _, _ => Crash          (* posixpath.join: TypeError *)
          end
      | _ => Crash                    (* case_config.get: AttributeError *)
      end
  | ConfigLoaded _ => Crash           (* all_configs.get: AttributeError *)
  end.

(** * Relations and invariants of the proofs *)

(** [d'] is [d] where the entries of the keys [ks] may have grown by
    one element; no key is added or removed. *)
Definition grows (ks : list string) (d d' : dict (list pyfloat)) : Prop :=
  keys d' = keys d /\
  forall k v', dict_get k d' = Some v' ->
    exists v, dict_get k d = Some v /\
      (v' = v \/ (In k ks /\ exists x, v' = v ++ [x])).

(** [d'] is [d] where the entries of the keys [ks] may have grown by
    one NaN. *)
Definition pads (ks : list string) (d d' : dict (list pyfloat)) : Prop :=
  keys d' = keys d /\
  forall k v', dict_get k d' = Some v' ->
    exists v, dict_get k d = Some v /\
      (v' = v \/ (In k ks /\ v' = v ++ [PNaN])).

(** The parts of the state a data row leaves alone, and the residual keys. *)
Definition row_frame (st st' : state) : Prop :=
  current_time st' = current_time st /\
  header_line_found st' = header_line_found st /\
  iteration_data_started st' = iteration_data_started st /\
  residual_headers_map st' = residual_headers_map st /\
  report_headers_map st' = report_headers_map st /\
  keys (residuals_data st') = keys (residuals_data st).

(** A row with iteration number [n] either takes no report sample, or
    takes one at the current time, when the report layout has a column
    for the gating field, each report entry growing by at most one value. *)
Definition report_effect (req : list string) (n : Z) (st st' : state) : Prop :=
  (report_times st' = report_times st /\
   report_iterations st' = report_iterations st /\
   reports_data st' = reports_data st) \/
  ((exists r j, hd_error req = Some r /\
                dict_get r (report_headers_map st) = Some j) /\
   report_times st' = report_times st ++ [current_time st] /\
   report_iterations st' = report_iterations st ++ [n] /\
   grows (keys (report_headers_map st)) (reports_data st) (reports_data st')).

(** The gate of lines 84-85: is the gating column [j] inside the row
    and its token neither "---" nor empty? *)
Definition gate_open (vs : list string) (j : nat) : bool :=
  (j <? length vs) && negb (mem (nth j vs EmptyString) ["---"; ""]%string).

(** The fresh layouts of a header: residual names go to [tr], the other
    requested names to [tp]; both come from the header's tokens. *)
Definition fresh_maps_ok (req hs : list string) (m : dict nat * dict nat) : Prop :=
  let '(tr, tp) := m in
  (forall k, In k (keys tr) -> In k expected_residual_cols /\ In k hs) /\
  NoDup (keys tr) /\
  (forall k, In k (keys tp) ->
     In k req /\ ~ In k expected_residual_cols /\ In k hs) /\
  NoDup (keys tp).

(** The keys of [reports_data]: [{key: [] for key in colunas...}]. *)
Definition report_keys (req : list string) : list string :=
  keys (fold_left (fun (d : dict (list pyfloat)) key => dict_set key [] d) req []).

Record Inv (req : list string) (st : state) : Prop := {
  inv_res_keys : keys (residuals_data st) = expected_residual_cols;
  inv_rep_keys : keys (reports_data st) = report_keys req;
  inv_res_map : forall k, In k (keys (residual_headers_map st)) ->
                  In k expected_residual_cols;
  inv_res_map_nodup : NoDup (keys (residual_headers_map st));
  inv_rep_map : forall k, In k (keys (report_headers_map st)) ->
                  In k req /\ ~ In k expected_residual_cols /\ k <> EmptyString;
  inv_rep_map_nodup : NoDup (keys (report_headers_map st));
  inv_rep_len : length (report_times st) = length (report_iterations st);
  inv_rep_le : forall k v, dict_get k (reports_data st) = Some v ->
                 length v <= length (report_iterations st);
  inv_res_empty : iterations st = [] ->
                  forall k v, dict_get k (residuals_data st) = Some v -> v = [];
  inv_rep_residual_names : forall k v, In k expected_residual_cols ->
                  dict_get k (reports_data st) = Some v -> v = [];
  inv_gate_residual_name : forall r, hd_error req = Some r ->
                  In r expected_residual_cols -> report_iterations st = [] }.

(** The capture of the last line of [lines] that the time-step regex
    matches (after [strip]), if any. *)
Fixpoint last_marker (lines : list string) : option string :=
  match lines with
  | [] => None
  | l :: ls =>
      match last_marker ls with
      | Some g => Some g
      | None => match_timestep (strip l)
      end
  end.

(** Data rows are read only after a marker, and the current time is
    the value of the last marker. *)
Definition marker_inv (pre : list string) (st : state) : Prop :=
  (iteration_data_started st = true -> exists g, last_marker pre = Some g) /\
  (forall g, last_marker pre = Some g -> py_float g = Some (current_time st)).

(** [l1] is a subsequence of [l2]: [l2] with some elements dropped. *)
Inductive subseq {A} : list A -> list A -> Prop :=
| subseq_nil : subseq [] []
| subseq_skip l1 l2 x : subseq l1 l2 -> subseq l1 (l2 ++ [x])
| subseq_keep l1 l2 x : subseq l1 l2 -> subseq (l1 ++ [x]) (l2 ++ [x]).

(** The events of a round between its connection attempt and its end. *)
Definition body_event (go_on : bool) (ev : mon_event) : Prop :=
  match ev with
  | Prompted | Connecting _ | Slept | Stopped => False
  | Failed AuthError => go_on = false
  | _ => True
  end.

(** * Concrete logs *)

Definition nl : string := String LF EmptyString.

(** Scenario A of the spec, with its single-spaced header line. *)
Definition scenario_A : string :=
  ("TimeStep 1: Time 0.5" ++ nl ++ "Iteration Continuity X-momentum" ++ nl ++
  "1  1.0e-3  2.0e-3" ++ nl)%string.

(** A log whose last time-step marker was cut while being written. *)
Definition truncated_marker_log : string :=
  ("TimeStep 1: Time 0.5" ++ nl ++ "Iteration  Continuity  X-momentum" ++ nl ++
  "1  1.0e-3  2.0e-3" ++ nl ++ "TimeStep 2: Time 1.0e")%string.

(** A report field, Lift, that no header line lists. *)
Definition unlisted_report_log : string :=
  ("TimeStep 1: Time 0.5" ++ nl ++ "Iteration  Continuity  Drag" ++ nl ++
  "1  1.0e-3  2.5" ++ nl)%string.

(** A malformed Continuity token in the first data row. *)
Definition bad_first_field_log : string :=
  ("TimeStep 1: Time 0.5" ++ nl ++ "Iteration  Continuity  X-momentum" ++ nl ++
  "1  abc  2.0e-3" ++ nl)%string.

(** A malformed X-momentum token after a good Continuity token. *)
Definition bad_second_field_lines : list string :=
  ["TimeStep 1: Time 0.5"; "Iteration  Continuity  X-momentum";
   "1  1.0e-3  abc"]%string.

Definition bad_second_field_log : string :=
  ("TimeStep 1: Time 0.5" ++ nl ++ "Iteration  Continuity  X-momentum" ++ nl ++
  "1  1.0e-3  abc" ++ nl ++ "2  3.0e-3  4.0e-3" ++ nl)%string.

(** Two header lines: the second lists the residual name Tke where the
    first listed the report field Drag. *)
Definition header_switch_first : string := "Iteration  Continuity  Drag"%string.
Definition header_switch_second : string := "Iteration  Continuity  Tke"%string.

(** A placeholder gating token, then a present gating token in a row
    whose Continuity token is malformed. *)
Definition gated_rows_log : string :=
  ("TimeStep 1: Time 0.5" ++ nl ++ "Iteration  Continuity  Drag" ++ nl ++
  "1  1.0e-3  ---" ++ nl ++ "2  abc  2.5" ++ nl)%string.

(** * Concrete inputs of the code around the parser *)

Definition demo_listing : list sftp_attr :=
  [mkAttr "a.png" (Some 5%Z); mkAttr "notes.txt" (Some 9%Z); mkAttr "c.JPG" (Some 7%Z)].

Definition demo_remote : remote_fs := mkRemote (fun _ => Some demo_listing) (fun _ => true).

Definition demo_log : string :=
  ("TimeStep 1: Time 0.5" ++ nl ++ "Iteration  Continuity  Drag" ++ nl ++
   "1  1.0e-3  2.5")%string.

(** A round that connects and finds [demo_log]; [answer] is what
    [getpass] would return. *)
Definition connected_round (answer : string) : round_env :=
  mkRound answer (fun _ => Connected) true (Some demo_log) demo_remote true.

(** A round whose credentials are refused. *)
Definition rejected_round : round_env :=
  mkRound EmptyString (fun _ => AuthFailure) true None demo_remote true.

Definition demo_config : json :=
  JObj [("case1", JObj [("user", JStr "u"); ("password", JStr "pw");
                        ("base_dir", JStr "/data"); ("simulation_folder", JStr "sim");
                        ("logfile", JStr "run.log")])]%string.

Definition demo_launch (output_filename : string) : launch :=
  mkLaunch (JStr "u") (JStr "pw") "/data/sim/run.log" JNull (JArr [])
    output_filename false.

(** * Lemmas *)

(** ** Dictionaries *)

Section Dicts.
Context {V : Type}.

Lemma dict_get_set_eq (k : string) (v : V) (d : dict V) :
  dict_get k (dict_set k v d) = Some v.
Proof.
  induction d as [|[k' v'] d IH]; simpl.
  - now rewrite String.eqb_refl.
  - destruct (String.eqb k k') eqn:E; simpl; rewrite ?E; auto.
Qed.

Lemma dict_get_set_neq (k k' : string) (v : V) (d : dict V) :
  k <> k' -> dict_get k' (dict_set k v d) = dict_get k' d.
Proof.
  intros Hne; induction d as [|[k0 v0] d IH]; simpl.
  - destruct (String.eqb k' k) eqn:E; auto.
    apply String.eqb_eq in E; congruence.
  - destruct (String.eqb k k0) eqn:E; simpl.
    + apply String.eqb_eq in E; subst k0.
      destruct (String.eqb k' k) eqn:E'; auto.
      apply String.eqb_eq in E'; congruence.
    + destruct (String.eqb k' k0); auto.
Qed.

Lemma dict_get_In (k : string) (v : V) (d : dict V) :
  dict_get k d = Some v -> In k (keys d).
Proof.
  induction d as [|[k' v'] d IH]; simpl; [discriminate|].
  destruct (String.eqb k k') eqn:E; intros H.
  - apply String.eqb_eq in E; auto.
  - auto.
Qed.

Lemma In_dict_get (k : string) (d : dict V) :
  In k (keys d) -> exists v, dict_get k d = Some v.
Proof.
  induction d as [|[k' v'] d IH]; simpl; [tauto|].
  destruct (String.eqb k k') eqn:E; [eauto|].
  intros [H|H]; [subst; now rewrite String.eqb_refl in E|auto].
Qed.

Lemma keys_dict_set_In (k : string) (v : V) (d : dict V) :
  In k (keys d) -> keys (dict_set k v d) = keys d.
Proof.
  induction d as [|[k' v'] d IH]; simpl; [tauto|].
  destruct (String.eqb k k') eqn:E; simpl; auto.
  intros [H|H]; [subst; now rewrite String.eqb_refl in E|].
  now rewrite IH.
Qed.

Lemma In_keys_dict_set (k k' : string) (v : V) (d : dict V) :
  In k' (keys (dict_set k v d)) <-> k' = k \/ In k' (keys d).
Proof.
  induction d as [|[k0 v0] d IH]; simpl; [intuition|].
  destruct (String.eqb k k0) eqn:E; simpl.
  - apply String.eqb_eq in E; subst; intuition.
  - rewrite IH; intuition.
Qed.

Lemma NoDup_keys_dict_set (k : string) (v : V) (d : dict V) :
  NoDup (keys d) -> NoDup (keys (dict_set k v d)).
Proof.
  induction d as [|[k0 v0] d IH]; simpl; intros Hn.
  - constructor; [simpl; tauto|constructor].
  - inversion Hn as [|? ? Hnin Hn']; subst.
    destruct (String.eqb k k0) eqn:E; simpl; constructor; auto.
    rewrite In_keys_dict_set; intros [H|H]; [|tauto].
    subst; now rewrite String.eqb_refl in E.
Qed.

End Dicts.

Lemma dict_get_map_values {A B} (f : A -> B) (k : string) (d : dict A) :
  dict_get k (map (fun '(k', l) => (k', f l)) d) = option_map f (dict_get k d).
Proof.
  induction d as [|[k' v'] d IH]; simpl; auto.
  destruct (String.eqb k k'); auto.
Qed.

Lemma keys_map_values {A B} (f : A -> B) (d : dict A) :
  keys (map (fun '(k', l) => (k', f l)) d) = keys d.
Proof. induction d as [|[k' v'] d IH]; simpl; f_equal; auto. Qed.

(** ** The monad *)

Lemma forM_app {A} (l1 l2 : list A) (body : A -> M unit) (st : state) :
  forM_ (l1 ++ l2) body st = bind (forM_ l1 body) (fun _ => forM_ l2 body) st.
Proof.
  revert st; induction l1 as [|x l1 IH]; intros st; simpl.
  - reflexivity.
  - unfold bind; destruct (body x st) as [st1 [[]|e]]; auto.
Qed.

(** ** Appending a row to the entries of a dict *)

Lemma grows_refl ks d : grows ks d d.
Proof. split; eauto. Qed.

Lemma grows_not_in ks d d' k v' :
  grows ks d d' -> ~ In k ks -> dict_get k d' = Some v' -> dict_get k d = Some v'.
Proof.
  intros [_ H] Hk Hg; destruct (H _ _ Hg) as (v & Hv & [->|[Hin _]]); tauto.
Qed.

Lemma grows_length ks d d' k v' :
  grows ks d d' -> dict_get k d' = Some v' ->
  exists v, dict_get k d = Some v /\ length v' <= S (length v).
Proof.
  intros [_ H] Hg; destruct (H _ _ Hg) as (v & Hv & [->|[_ [x ->]]]);
    exists v; split; auto; rewrite ?length_app; simpl; lia.
Qed.

Section AppendLoop.
Variable get : state -> dict (list pyfloat).
Variable put : dict (list pyfloat) -> state -> state.
Hypothesis get_put : forall d st, get (put d st) = d.
Hypothesis put_get : forall st, put (get st) st = st.
Hypothesis put_put : forall d d' st, put d (put d' st) = put d st.

Lemma append_loop_grows (L : dict nat) (vs : list string) st st' o :
  NoDup (keys L) ->
  forM_ L (fun '(n, c) => append_in get put n (read_col vs c)) st = (st', o) ->
  st' = put (get st') st /\ grows (keys L) (get st) (get st').
Proof.
  revert st; induction L as [|[k0 c0] L IH]; intros st Hnd Hrun; simpl in Hrun.
  - injection Hrun as <- _; rewrite put_get; split; [auto|apply grows_refl].
  - inversion Hnd as [|? ? Hnin Hnd']; subst.
    unfold bind, append_in in Hrun.
    destruct (dict_get k0 (get st)) as [l|] eqn:Hl.
    2: { injection Hrun as <- _; rewrite put_get; split; [auto|apply grows_refl]. }
    destruct (read_col vs c0) as [x|e].
    2: { injection Hrun as <- _; rewrite put_get; split; [auto|apply grows_refl]. }
    destruct (IH _ Hnd' Hrun) as [Hst Hgr]; clear IH Hrun.
    rewrite get_put in Hgr; split.
    + rewrite Hst at 1; now rewrite put_put.
    + destruct Hgr as [Hk Hg]; split.
      * rewrite Hk; apply keys_dict_set_In; eapply dict_get_In; eauto.
      * intros k v' Hv'.
        destruct (Hg _ _ Hv') as (v1 & Hv1 & Hcase).
        destruct (String.eqb_spec k0 k) as [<-|Hne].
        -- rewrite dict_get_set_eq in Hv1; injection Hv1 as <-.
           exists l; split; [auto|].
           destruct Hcase as [->|[Hin _]]; [|contradiction].
           right; split; [simpl; auto|eauto].
        -- rewrite dict_get_set_neq in Hv1 by auto.
           exists v1; split; [auto|].
           destruct Hcase as [->|[Hin Hx]]; [auto|right; split; [simpl; auto|auto]].
Qed.

(** A loop whose keys are all present and whose columns all read as
    floats appends one value to each of its keys and leaves the others. *)
Lemma append_loop_ok (l1 : dict nat) (vs : list string) st :
  NoDup (keys l1) ->
  (forall k c, In (k, c) l1 ->
     In k (keys (get st)) /\ exists v, read_col vs c = Ok v) ->
  exists d',
    forM_ l1 (fun '(n, c) => append_in get put n (read_col vs c)) st
      = (put d' st, Ok tt) /\
    (forall k c v0, In (k, c) l1 -> dict_get k (get st) = Some v0 ->
       exists v, read_col vs c = Ok v /\ dict_get k d' = Some (v0 ++ [v])) /\
    (forall k, ~ In k (keys l1) -> dict_get k d' = dict_get k (get st)).
Proof.
  revert st; induction l1 as [|[k0 c0] l1 IH]; intros st Hnd Hall.
  - exists (get st); cbn; rewrite put_get.
    split; [reflexivity|split; [intros; contradiction|auto]].
  - inversion Hnd as [|? ? Hnin Hnd']; subst.
    destruct (Hall k0 c0 (or_introl eq_refl)) as [Hk0 [x Hx]].
    destruct (In_dict_get _ _ Hk0) as [l Hl].
    set (st1 := put (dict_set k0 (l ++ [x]) (get st)) st).
    assert (Hg1 : get st1 = dict_set k0 (l ++ [x]) (get st)) by apply get_put.
    destruct (IH st1 Hnd') as (d' & Hrun & Ha & Hb).
    { intros k c Hin; destruct (Hall k c (or_intror Hin)) as [Hk Hv].
      rewrite Hg1, keys_dict_set_In by auto; auto. }
    exists d'; split; [|split].
    + transitivity (put d' st1, Ok tt); [|unfold st1; now rewrite put_put].
      rewrite <- Hrun; simpl; unfold bind; unfold append_in at 1; rewrite Hl, Hx; reflexivity.
    + intros k c v0 [Heq|Hin] Hv0.
      * injection Heq as <- <-; rewrite Hl in Hv0; injection Hv0 as <-.
        exists x; split; [auto|].
        rewrite (Hb k0 Hnin), Hg1; apply dict_get_set_eq.
      * assert (Hne : k0 <> k).
        { intros <-; apply Hnin; apply (in_map fst) in Hin; exact Hin. }
        apply (Ha k c v0 Hin); rewrite Hg1, dict_get_set_neq by auto; exact Hv0.
      + intros k Hk; simpl in Hk.
        rewrite Hb by tauto; rewrite Hg1, dict_get_set_neq by tauto; reflexivity.
Qed.

End AppendLoop.

Lemma residuals_get_put d st : residuals_data (set_residuals_data d st) = d.
Proof. reflexivity. Qed.
Lemma residuals_put_get st : set_residuals_data (residuals_data st) st = st.
Proof. destruct st; reflexivity. Qed.
Lemma residuals_put_put d d' st :
  set_residuals_data d (set_residuals_data d' st) = set_residuals_data d st.
Proof. reflexivity. Qed.
Lemma reports_get_put d st : reports_data (set_reports_data d st) = d.
Proof. reflexivity. Qed.
Lemma reports_put_get st : set_reports_data (reports_data st) st = st.
Proof. destruct st; reflexivity. Qed.
Lemma reports_put_put d d' st :
  set_reports_data d (set_reports_data d' st) = set_reports_data d st.
Proof. reflexivity. Qed.

Lemma residual_loop_grows (L : dict nat) vs st st' o :
  NoDup (keys L) ->
  forM_ L (fun '(n, c) => residual_append n (read_col vs c)) st = (st', o) ->
  st' = set_residuals_data (residuals_data st') st /\
  grows (keys L) (residuals_data st) (residuals_data st').
Proof.
  apply append_loop_grows; auto using residuals_put_get.
Qed.

Lemma report_loop_grows (L : dict nat) vs st st' o :
  NoDup (keys L) ->
  forM_ L (fun '(n, c) => report_append n (read_col vs c)) st = (st', o) ->
  st' = set_reports_data (reports_data st') st /\
  grows (keys L) (reports_data st) (reports_data st').
Proof.
  apply append_loop_grows; auto using reports_put_get.
Qed.

(** The residual loop over a layout [l1 ++ (f, i) :: l2] whose columns
    in [l1] read as floats and whose column [i] does not: the values of
    [l1] are appended, then the loop stops with [ValueError]. *)
Lemma residual_loop_raise (l1 l2 : dict nat) f i vs st :
  NoDup (keys (l1 ++ (f, i) :: l2)) ->
  (forall k c, In (k, c) l1 ->
     In k (keys (residuals_data st)) /\ exists v, read_col vs c = Ok v) ->
  In f (keys (residuals_data st)) ->
  read_col vs i = Raise ValueError ->
  exists d',
    forM_ (l1 ++ (f, i) :: l2)
      (fun '(n, c) => residual_append n (read_col vs c)) st
      = (set_residuals_data d' st, Raise ValueError) /\
    (forall k c v0, In (k, c) l1 -> dict_get k (residuals_data st) = Some v0 ->
       exists v, read_col vs c = Ok v /\ dict_get k d' = Some (v0 ++ [v])) /\
    (forall k, ~ In k (keys l1) -> dict_get k d' = dict_get k (residuals_data st)).
Proof.
  intros Hnd Hall Hf Hi.
  unfold keys in Hnd; rewrite map_app in Hnd.
  pose proof (NoDup_app_remove_r _ _ Hnd) as Hnd1.
  assert (Hf1 : ~ In f (keys l1)).
  { intros Hin; change (map fst ((f, i) :: l2)) with (f :: map fst l2) in Hnd.
    apply (NoDup_remove_2 _ _ _ Hnd), in_or_app; left; exact Hin. }
  destruct (append_loop_ok residuals_data set_residuals_data
              residuals_get_put residuals_put_get residuals_put_put
              l1 vs st Hnd1 Hall) as (d' & Hrun & Ha & Hb).
  exists d'; split; [|split; auto].
  rewrite forM_app; unfold bind.
  unfold residual_append; rewrite Hrun; simpl.
  unfold bind, append_in at 1; simpl.
  destruct (In_dict_get _ _ Hf) as [l Hl].
  rewrite (Hb f Hf1), Hl, Hi; reflexivity.
Qed.

(** A data row whose residual layout is [l1 ++ (f, i) :: l2], with the
    columns of [l1] well formed and column [i] malformed: if the row is
    taken, its iteration number is appended, the values of [l1] are
    appended, and the body stops with [ValueError]. *)
Lemma row_body_residual_raise req vs st (l1 l2 : dict nat) f i :
  residual_headers_map st = l1 ++ (f, i) :: l2 ->
  NoDup (keys (l1 ++ (f, i) :: l2)) ->
  (forall k c, In (k, c) l1 ->
     In k (keys (residuals_data st)) /\ exists v, read_col vs c = Ok v) ->
  In f (keys (residuals_data st)) ->
  read_col vs i = Raise ValueError ->
  row_body req vs st = (st, Ok tt) \/
  exists n d',
    row_body req vs st =
      (set_residuals_data d' (set_iterations (iterations st ++ [n]) st),
       Raise ValueError) /\
    (forall k c v0, In (k, c) l1 -> dict_get k (residuals_data st) = Some v0 ->
       exists v, read_col vs c = Ok v /\ dict_get k d' = Some (v0 ++ [v])) /\
    (forall k, ~ In k (keys l1) -> dict_get k d' = dict_get k (residuals_data st)).
Proof.
  intros Hmap Hnd Hall Hf Hi.
  set (s1 := set_iterations (iterations st ++ [py_int (hd EmptyString vs)]) st).
  destruct (residual_loop_raise l1 l2 f i vs s1 Hnd Hall Hf Hi)
    as (d' & Hrun & Ha & Hb).
  unfold row_body.
  destruct vs as [|v0 vs']; [left; reflexivity|].
  destruct (py_isdigit v0); simpl; [|left; reflexivity].
  right; exists (py_int v0), d'; split; [|split; auto].
  unfold bind, modify, gets.
  change (set_iterations (iterations st ++ [py_int v0]) st) with s1.
  replace (residual_headers_map s1) with (l1 ++ (f, i) :: l2) by (symmetry; exact Hmap).
  rewrite Hrun; reflexivity.
Qed.

(** ** The exception handler *)

Lemma pads_refl ks d : pads ks d d.
Proof. split; eauto. Qed.

Lemma pads_get ks d d' k v :
  pads ks d d' -> dict_get k d = Some v ->
  dict_get k d' = Some v \/ dict_get k d' = Some (v ++ [PNaN]).
Proof.
  intros [Hk Hg] Hv.
  assert (Hin : In k (keys d')) by (rewrite Hk; eapply dict_get_In; eauto).
  destruct (In_dict_get _ _ Hin) as [v' Hv'].
  destruct (Hg _ _ Hv') as (v0 & Hv0 & [->|[_ ->]]); rewrite Hv0 in Hv;
    injection Hv as ->; auto.
Qed.

Lemma pads_loop (names : list string) st st' o :
  NoDup names ->
  forM_ names pad_one st = (st', o) ->
  st' = set_residuals_data (residuals_data st') st /\
  pads names (residuals_data st) (residuals_data st').
Proof.
  revert st; induction names as [|k0 names IH]; intros st Hnd Hrun; simpl in Hrun.
  - injection Hrun as <- _; rewrite residuals_put_get; split; [auto|apply pads_refl].
  - inversion Hnd as [|? ? Hnin Hnd']; subst.
    unfold bind, pad_one in Hrun.
    destruct (dict_get k0 (residuals_data st)) as [l|] eqn:Hl.
    2: { injection Hrun as <- _; rewrite residuals_put_get; split; [auto|apply pads_refl]. }
    destruct (length l <? length (iterations st)).
    + destruct (IH _ Hnd' Hrun) as [Hst [Hk Hg]]; clear IH Hrun.
      simpl in Hk, Hg; split; [rewrite Hst at 1; reflexivity|split].
      * rewrite Hk; apply keys_dict_set_In; eapply dict_get_In; eauto.
      * intros k v' Hv'; destruct (Hg _ _ Hv') as (v1 & Hv1 & Hcase).
        destruct (String.eqb_spec k0 k) as [<-|Hne].
        -- rewrite dict_get_set_eq in Hv1; injection Hv1 as <-.
           exists l; split; [auto|].
           destruct Hcase as [->|[Hin _]]; [|contradiction].
           right; split; [simpl; auto|auto].
        -- rewrite dict_get_set_neq in Hv1 by auto.
           exists v1; split; [auto|].
           destruct Hcase as [->|[Hin Hx]]; [auto|right; split; [simpl; auto|auto]].
    + destruct (IH _ Hnd' Hrun) as [Hst [Hk Hg]]; split; [auto|split; auto].
      intros k v' Hv'; destruct (Hg _ _ Hv') as (v1 & Hv1 & Hcase).
      exists v1; split; [auto|].
      destruct Hcase as [->|[Hin Hx]]; [auto|right; split; [simpl; auto|auto]].
Qed.

Lemma NoDup_expected : NoDup expected_residual_cols.
Proof.
  unfold expected_residual_cols.
  repeat constructor; simpl; intuition discriminate.
Qed.

Lemma handler_pads st st' o :
  except_handler st = (st', o) ->
  st' = set_residuals_data (residuals_data st') st /\
  pads expected_residual_cols (residuals_data st) (residuals_data st').
Proof.
  unfold except_handler; intros Hrun.
  destruct (iterations st).
  { injection Hrun as <- _; rewrite residuals_put_get; split; [auto|apply pads_refl]. }
  destruct (dict_get _ (residuals_data st)).
  2: { injection Hrun as <- _; rewrite residuals_put_get; split; [auto|apply pads_refl]. }
  destruct (_ || _).
  - eapply pads_loop; eauto using NoDup_expected.
  - injection Hrun as <- _; rewrite residuals_put_get; split; [auto|apply pads_refl].
Qed.

Lemma try_value_index_cases body handler st st' o :
  try_value_index body handler st = (st', o) ->
  body st = (st', o) \/ exists s e, body st = (s, Raise e) /\ handler s = (st', o).
Proof.
  unfold try_value_index.
  destruct (body st) as [s [a|[| |]]]; intros H; eauto.
Qed.

(** ** One data row *)

Lemma row_body_effect req vs st st' o :
  NoDup (keys (residual_headers_map st)) ->
  NoDup (keys (report_headers_map st)) ->
  row_body req vs st = (st', o) ->
  (st' = st /\ o = Ok tt) \/
  exists n, iterations st' = iterations st ++ [n] /\
            row_frame st st' /\ report_effect req n st st'.
Proof.
  intros Hnd1 Hnd2 Hrun; unfold row_body in Hrun.
  destruct vs as [|v0 vs']; [injection Hrun as <- <-; auto|].
  destruct (py_isdigit v0); simpl in Hrun; [|injection Hrun as <- <-; auto].
  right; exists (py_int v0).
  unfold bind, modify, gets in Hrun; simpl in Hrun.
  match type of Hrun with
  | context[forM_ ?L ?b ?s] => destruct (forM_ L b s) as [st2 o2] eqn:Hl
  end.
  destruct (residual_loop_grows _ _ _ _ _ Hnd1 Hl) as [Hst2 [Hk2 _]].
  simpl in Hk2.
  assert (E2 : iterations st2 = iterations st ++ [py_int v0] /\
               row_frame st st2 /\ report_times st2 = report_times st /\
               report_iterations st2 = report_iterations st /\
               reports_data st2 = reports_data st)
    by (rewrite Hst2; repeat split; auto).
  clear Hst2 Hl.
  destruct E2 as (Hi2 & Hf2 & Ht2 & Hri2 & Hr2).
  destruct o2 as [[]|e].
  2: { injection Hrun as <- _; split; [auto|split; [auto|left; auto]]. }
  assert (Hrm : report_headers_map st2 = report_headers_map st) by apply Hf2.
  rewrite Hrm in Hrun.
  destruct req as [|r req']; [injection Hrun as <- _; split; [auto|split; [auto|left; auto]]|].
  destruct (String.eqb r "");
    [injection Hrun as <- _; split; [auto|split; [auto|left; auto]]|].
  destruct (dict_get r (report_headers_map st)) as [j|] eqn:Ej;
    [|injection Hrun as <- _; split; [auto|split; [auto|left; auto]]].
  match type of Hrun with
  | (if ?b then _ else _) _ = _ => destruct b
  end; [|injection Hrun as <- _; split; [auto|split; [auto|left; auto]]].
  match type of Hrun with
  | forM_ ?L ?b ?s = _ => destruct (report_loop_grows _ _ _ _ _ Hnd2 Hrun) as [Hst' Hg]
  end.
  rewrite Hst'; simpl; simpl in Hg.
  destruct Hf2 as (Hc & Hh & Hd & Hres & Hrep & Hk).
  rewrite Ht2, Hri2, Hr2, Hc in *.
  split; [auto|split; [repeat split; auto|right; split; [exists r, j; auto|split; [auto|split; auto]]]].
Qed.

Lemma row_effect req vs st st' o :
  NoDup (keys (residual_headers_map st)) ->
  NoDup (keys (report_headers_map st)) ->
  try_value_index (row_body req vs) except_handler st = (st', o) ->
  st' = st \/
  exists n, iterations st' = iterations st ++ [n] /\
            row_frame st st' /\ report_effect req n st st'.
Proof.
  intros Hnd1 Hnd2 Hrun.
  destruct (try_value_index_cases _ _ _ _ _ Hrun) as [Hb|(s & e & Hb & Hh)].
  - destruct (row_body_effect _ _ _ _ _ Hnd1 Hnd2 Hb) as [[-> _]|H]; auto.
  - destruct (row_body_effect _ _ _ _ _ Hnd1 Hnd2 Hb) as [[_ Habs]|(n & Hi & Hf & Hr)];
      [discriminate|].
    destruct (handler_pads _ _ _ Hh) as [Hst' [Hk _]].
    right; exists n.
    rewrite Hst'; simpl.
    destruct Hf as (Hc & Hh1 & Hd & Hres & Hrep & Hk0).
    split; [auto|split; [repeat split; auto; congruence|]].
    unfold report_effect in *; simpl; exact Hr.
Qed.

(** A row whose gating token is missing or a placeholder takes no
    report sample, whatever else happens in it. *)
Lemma row_body_gate_closed req vs st s o :
  (forall r j, hd_error req = Some r ->
     dict_get r (report_headers_map st) = Some j -> gate_open vs j = false) ->
  row_body req vs st = (s, o) ->
  report_times s = report_times st /\
  report_iterations s = report_iterations st /\
  reports_data s = reports_data st.
Proof.
  intros Hg Hrun; unfold row_body in Hrun.
  destruct vs as [|v0 vs']; [injection Hrun as <- _; auto|].
  destruct (py_isdigit v0); simpl in Hrun; [|injection Hrun as <- _; auto].
  unfold bind, modify, gets in Hrun; simpl in Hrun.
  match type of Hrun with
  | context[forM_ ?L ?b ?s] => destruct (forM_ L b s) as [s2 o2] eqn:Hl
  end.
  assert (Hs2 : s2 = set_residuals_data (residuals_data s2)
                       (set_iterations (iterations st ++ [py_int v0]) st)).
  { clear Hrun; revert Hl; generalize (set_iterations (iterations st ++ [py_int v0]) st).
    intros s1 Hl; revert s1 Hl.
    induction (residual_headers_map st) as [|[k c] L IH]; intros s1 Hl; simpl in Hl.
    - injection Hl as <- _; destruct s1; reflexivity.
    - unfold bind, residual_append, append_in in Hl.
      destruct (dict_get k (residuals_data s1)).
      2: { injection Hl as <- _; destruct s1; reflexivity. }
      destruct (read_col (v0 :: vs') c).
      2: { injection Hl as <- _; destruct s1; reflexivity. }
      apply IH in Hl; rewrite Hl; reflexivity. }
  rewrite Hs2 in Hrun; clear Hl Hs2.
  destruct o2 as [[]|e]; [|injection Hrun as <- _; auto].
  cbn [report_headers_map set_residuals_data set_iterations] in Hrun.
  destruct req as [|r req']; [injection Hrun as <- _; auto|].
  destruct (String.eqb r ""); [injection Hrun as <- _; auto|].
  destruct (dict_get r (report_headers_map st)) as [j|] eqn:Ej;
    [|injection Hrun as <- _; auto].
  pose proof (Hg r j eq_refl Ej) as Hc; unfold gate_open in Hc.
  simpl in Hc; rewrite Hc in Hrun; injection Hrun as <- _; auto.
Qed.

(** A row whose residual columns all read as floats and whose gating
    token is present and not a placeholder takes a report sample at the
    current time, whatever happens in its report columns. *)
Lemma row_body_gate_open req vs st s o r j :
  NoDup (keys (residual_headers_map st)) ->
  NoDup (keys (report_headers_map st)) ->
  (forall k c, In (k, c) (residual_headers_map st) ->
     In k (keys (residuals_data st)) /\ exists v, read_col vs c = Ok v) ->
  hd_error req = Some r -> r <> EmptyString ->
  dict_get r (report_headers_map st) = Some j ->
  gate_open vs j = true ->
  row_body req vs st = (s, o) ->
  s = st \/
  exists n, iterations s = iterations st ++ [n] /\
    report_times s = report_times st ++ [current_time st] /\
    report_iterations s = report_iterations st ++ [n].
Proof.
  intros Hnd1 Hnd2 Hall Hr Hre Hj Hgate Hrun; unfold row_body in Hrun.
  destruct vs as [|v0 vs']; [injection Hrun as <- _; auto|].
  destruct (py_isdigit v0); simpl in Hrun; [|injection Hrun as <- _; auto].
  right; exists (py_int v0).
  unfold bind, modify, gets in Hrun; simpl in Hrun.
  set (s1 := set_iterations (iterations st ++ [py_int v0]) st) in Hrun.
  destruct (append_loop_ok residuals_data set_residuals_data
              residuals_get_put residuals_put_get residuals_put_put
              (residual_headers_map st) (v0 :: vs') s1 Hnd1 Hall) as (d' & Hl & _).
  unfold residual_append in Hrun; rewrite Hl in Hrun.
  cbn [report_headers_map set_residuals_data set_iterations s1] in Hrun.
  destruct req as [|r' req']; [discriminate|]; injection Hr as ->.
  destruct (String.eqb_spec r ""); [contradiction|].
  rewrite Hj in Hrun; unfold gate_open in Hgate; simpl in Hgate.
  rewrite Hgate in Hrun.
  simpl in Hrun.
  destruct (report_loop_grows _ _ _ _ _ Hnd2 Hrun) as [Hs _].
  rewrite Hs; simpl; auto.
Qed.

(** ** Header lines *)

Lemma mem_In x l : mem x l = true <-> In x l.
Proof.
  unfold mem; rewrite existsb_exists; split.
  - intros (y & Hy & E); apply String.eqb_eq in E; now subst.
  - intros H; exists x; split; [auto|apply String.eqb_refl].
Qed.

Lemma gate_open_false vs j :
  gate_open vs j = false <->
  length vs <= j \/ nth j vs EmptyString = "---"%string \/
  nth j vs EmptyString = EmptyString.
Proof.
  unfold gate_open; rewrite andb_false_iff, negb_false_iff, mem_In,
    Nat.ltb_ge; simpl; intuition.
Qed.

Lemma gate_open_true vs j :
  gate_open vs j = true <->
  j < length vs /\ nth j vs EmptyString <> "---"%string /\
  nth j vs EmptyString <> EmptyString.
Proof.
  unfold gate_open; rewrite andb_true_iff, negb_true_iff, Nat.ltb_lt.
  split.
  - intros [H1 H2]; repeat split; auto; intros E;
      rewrite <- not_true_iff_false, mem_In in H2; apply H2; rewrite E; simpl; auto.
  - intros (H1 & H2 & H3); split; auto.
    apply not_true_iff_false; rewrite mem_In; simpl; intuition.
Qed.

(** Whatever the row body did, the handler changes only the residuals. *)
Lemma try_row_frame body st st' o s os :
  try_value_index body except_handler st = (st', o) ->
  body st = (s, os) ->
  st' = set_residuals_data (residuals_data st') s.
Proof.
  unfold try_value_index; intros Hrow Hb; rewrite Hb in Hrow.
  destruct os as [[]|[| |]];
    try (injection Hrow as <- _; destruct s; reflexivity).
  - apply (handler_pads _ _ _ Hrow).
  - apply (handler_pads _ _ _ Hrow).
Qed.

Lemma In_enumerate_from {A} (i : nat) (l : list A) j x :
  In (j, x) (enumerate_from i l) -> In x l.
Proof.
  revert i; induction l as [|y l IH]; simpl; [tauto|].
  intros i [H|H]; [injection H as _ ->; auto|right; eauto].
Qed.

Lemma header_tokens_nonempty line h :
  In h (header_tokens line) -> h <> EmptyString.
Proof.
  unfold header_tokens; rewrite filter_In; intros [_ H] ->; discriminate.
Qed.

Lemma build_header_maps_ok req hs :
  fresh_maps_ok req hs (build_header_maps req hs).
Proof.
  unfold build_header_maps.
  assert (Hgen : forall l acc, fresh_maps_ok req hs acc ->
            (forall i h, In (i, h) l -> In h hs) ->
            fresh_maps_ok req hs
              (fold_left (fun '(tr, tp) '(i, header) =>
                  if mem header expected_residual_cols then (dict_set header i tr, tp)
                  else if mem header req then (tr, dict_set header i tp)
                  else (tr, tp)) l acc)).
  { induction l as [|[i h] l IH]; intros [tr tp] Hacc Hl; cbn [fold_left]; [auto|].
    apply IH; [|intros; eapply Hl; right; eauto].
    assert (Hh : In h hs) by (eapply Hl; left; eauto).
    hnf in Hacc; destruct Hacc as (H1 & H2 & H3 & H4).
    destruct (mem h expected_residual_cols) eqn:Er.
    - apply mem_In in Er; hnf; split; [|split; [|split]]; auto.
      + intros k Hk; apply In_keys_dict_set in Hk.
        destruct Hk as [->|Hk]; [split; auto|apply H1; auto].
      + now apply NoDup_keys_dict_set.
    - destruct (mem h req) eqn:Eq; [|hnf; auto].
      apply mem_In in Eq.
      assert (Hne : ~ In h expected_residual_cols)
        by (intros Hi; apply mem_In in Hi; congruence).
      hnf; split; [|split; [|split]]; auto.
      + intros k Hk; apply In_keys_dict_set in Hk.
        destruct Hk as [->|Hk]; [split; [|split]; auto|apply H3; auto].
      + now apply NoDup_keys_dict_set. }
  apply Hgen; [simpl; repeat split; try tauto; constructor|].
  intros i h; apply In_enumerate_from.
Qed.

(** A token of the header that is a residual name is in the fresh
    residual layout; a requested token that is not, in the report one. *)
Lemma build_header_maps_has (req hs : list string) (h : string) :
  In h hs ->
  let '(tr, tp) := build_header_maps req hs in
  (In h expected_residual_cols -> In h (keys tr)) /\
  (In h req -> ~ In h expected_residual_cols -> In h (keys tp)).
Proof.
  unfold build_header_maps.
  assert (Hgen : forall (l : list (nat * string)) (acc : dict nat * dict nat),
    (In h (keys (fst acc)) \/ (exists i, In (i, h) l) ->
       In h expected_residual_cols -> In h (keys (fst (fold_left
         (fun '(tr, tp) '(i, header) =>
            if mem header expected_residual_cols then (dict_set header i tr, tp)
            else if mem header req then (tr, dict_set header i tp)
            else (tr, tp)) l acc)))) /\
    (In h (keys (snd acc)) \/ (exists i, In (i, h) l) ->
       In h req -> ~ In h expected_residual_cols -> In h (keys (snd (fold_left
         (fun '(tr, tp) '(i, header) =>
            if mem header expected_residual_cols then (dict_set header i tr, tp)
            else if mem header req then (tr, dict_set header i tp)
            else (tr, tp)) l acc))))).
  { induction l as [|[i x] l IH]; intros [tr tp]; cbn [fold_left fst snd].
    - split; intros [H|[i H]]; auto; destruct H.
    - destruct (mem x expected_residual_cols) eqn:Ex;
        [|destruct (mem x req) eqn:Eq]; split.
      + intros Hpre Hhe; apply (proj1 (IH _)); [|auto]; cbn [fst].
        rewrite In_keys_dict_set.
        destruct Hpre as [Hpre|[i' [Hi'|Hi']]];
          [auto|injection Hi' as <- <-; auto|right; eauto].
      + intros Hpre Hreq Hne; apply (proj2 (IH _)); [|auto..]; cbn [snd].
        destruct Hpre as [Hpre|[i' [Hi'|Hi']]];
          [auto|injection Hi' as <- <-; apply mem_In in Ex; contradiction|right; eauto].
      + intros Hpre Hhe; apply (proj1 (IH _)); [|auto]; cbn [fst].
        destruct Hpre as [Hpre|[i' [Hi'|Hi']]];
          [auto|injection Hi' as <- <-; apply mem_In in Hhe; congruence|right; eauto].
      + intros Hpre Hreq Hne; apply (proj2 (IH _)); [|auto..]; cbn [snd].
        rewrite In_keys_dict_set.
        destruct Hpre as [Hpre|[i' [Hi'|Hi']]];
          [auto|injection Hi' as <- <-; auto|right; eauto].
      + intros Hpre Hhe; apply (proj1 (IH _)); [|auto]; cbn [fst].
        destruct Hpre as [Hpre|[i' [Hi'|Hi']]];
          [auto|injection Hi' as <- <-; apply mem_In in Hhe; congruence|right; eauto].
      + intros Hpre Hreq Hne; apply (proj2 (IH _)); [|auto..]; cbn [snd].
        destruct Hpre as [Hpre|[i' [Hi'|Hi']]];
          [auto|injection Hi' as <- <-; apply mem_In in Hreq; congruence|right; eauto]. }
  intros Hh.
  match goal with
  | |- context [fold_left ?f ?l ?a] => destruct (fold_left f l a) as [tr tp] eqn:Ef
  end.
  assert (Hi : exists i, In (i, h) (enumerate_from 0 hs)).
  { clear -Hh; generalize 0; induction hs as [|y hs IH]; simpl in *; [tauto|].
    intros n; destruct Hh as [->|Hh]; [exists n; auto|].
    destruct (IH Hh (S n)) as [i Hi]; eauto. }
  destruct (Hgen (enumerate_from 0 hs) ([], [])) as [H1 H2].
  rewrite Ef in H1, H2; simpl in H1, H2; split; auto.
Qed.

Lemma build_header_maps_has_residual req hs r :
  In r hs -> In r expected_residual_cols ->
  let '(tr, _) := build_header_maps req hs in In r (keys tr).
Proof.
  intros Hh Hr; pose proof (build_header_maps_has req hs r Hh) as H.
  destruct (build_header_maps req hs); tauto.
Qed.

Lemma header_update_eq req line st :
  header_update req line st =
  let '(tr, tp) := build_header_maps req (header_tokens line) in
  (set_report_headers_map
     (match tp with [] => report_headers_map st | _ => tp end)
     (set_residual_headers_map
        (match tr with [] => residual_headers_map st | _ => tr end)
        (set_header_line_found true st)), Ok tt).
Proof.
  unfold header_update, bind, modify, ret.
  destruct (build_header_maps req (header_tokens line)) as [tr tp].
  destruct st; destruct tr, tp; reflexivity.
Qed.

(** ** The cases of one line *)

Lemma process_line_cases req raw st st' o :
  process_line req raw st = (st', o) ->
  (st' = st /\ o = Ok tt /\ match_timestep (strip raw) = None /\
   is_header_line req (strip raw) = false) \/
  (exists g t, match_timestep (strip raw) = Some g /\ py_float g = Some t /\
     o = Ok tt /\ st' = set_iteration_data_started true (set_current_time t st)) \/
  (exists g, match_timestep (strip raw) = Some g /\ py_float g = None /\
     st' = st /\ o = Raise ValueError) \/
  (match_timestep (strip raw) = None /\ is_header_line req (strip raw) = true /\
     header_update req (strip raw) st = (st', o)) \/
  (match_timestep (strip raw) = None /\ is_header_line req (strip raw) = false /\
     header_line_found st = true /\ iteration_data_started st = true /\
     try_value_index (row_body req (values_str_of (strip raw))) except_handler st
       = (st', o)).
Proof.
  unfold process_line; intros Hrun.
  destruct (strip raw) as [|c0 rest] eqn:Es.
  { injection Hrun as <- <-; auto 6. }
  rewrite <- Es in *.
  destruct (match_timestep (strip raw)) as [g|] eqn:Et.
  - destruct (py_float g) as [t|] eqn:Ef.
    + injection Hrun as <- <-; right; left; eauto 7.
    + injection Hrun as <- <-; right; right; left; eauto.
  - destruct (is_header_line req (strip raw)) eqn:Eh; [do 3 right; left; auto|].
    destruct (header_line_found st) eqn:E1; [|injection Hrun as <- <-; auto 6].
    destruct (iteration_data_started st) eqn:E2; [|injection Hrun as <- <-; auto 6].
    destruct (_ || _); [do 4 right; auto|injection Hrun as <- <-; auto 6].
Qed.

(** ** The parser-state invariant *)

Lemma fold_set_empty_values (req : list string) (d : dict (list pyfloat)) k v :
  (forall k' v', dict_get k' d = Some v' -> v' = []) ->
  dict_get k (fold_left (fun d key => dict_set key [] d) req d) = Some v -> v = [].
Proof.
  revert d; induction req as [|r req IH]; intros d Hd; simpl; [apply Hd|].
  apply IH; intros k' v'.
  destruct (String.eqb_spec r k') as [<-|Hne].
  - rewrite dict_get_set_eq; congruence.
  - rewrite dict_get_set_neq by auto; apply Hd.
Qed.

Lemma Inv_init req : Inv req (init_state req).
Proof.
  assert (Hres : forall k v,
            dict_get k (map (fun k => (k, @nil pyfloat)) expected_residual_cols)
              = Some v -> v = []).
  { intros k v; generalize expected_residual_cols; induction l as [|x l IH];
      simpl; [discriminate|].
    destruct (String.eqb k x); [congruence|auto]. }
  assert (Hrep : forall k v,
            dict_get k (reports_data (init_state req)) = Some v -> v = []).
  { intros k v; apply fold_set_empty_values; discriminate. }
  constructor; simpl; try tauto; try constructor.
  - intros k v H; rewrite (Hrep _ _ H); auto.
  - intros k v _ H; exact (Hrep _ _ H).
Qed.

Lemma Inv_process_line req raw st st' o :
  Inv req st -> process_line req raw st = (st', o) -> Inv req st'.
Proof.
  intros HI Hrun.
  destruct (process_line_cases _ _ _ _ _ Hrun)
    as [(E & _)|[(g & t & _ & _ & _ & E)|[(g & _ & _ & E & _)|[(_ & _ & Hh)|(_ & _ & _ & _ & Hrow)]]]];
    try (rewrite E; auto; fail).
  - rewrite E; destruct HI; constructor; simpl; auto.
  - rewrite header_update_eq in Hh.
    pose proof (build_header_maps_ok req (header_tokens (strip raw))) as Hok.
    destruct (build_header_maps req (header_tokens (strip raw))) as [tr tp].
    injection Hh as <- _.
    destruct Hok as (H1 & H2 & H3 & H4).
    destruct HI; constructor; simpl; auto.
    + destruct tr as [|p tr]; [auto|intros k Hk; apply H1; auto].
    + destruct tr as [|p tr]; auto.
    + destruct tp as [|p tp]; [auto|].
      intros k Hk; destruct (H3 _ Hk) as (Ha & Hb & Hc); repeat split; auto.
      eapply header_tokens_nonempty; eauto.
    + destruct tp as [|p tp]; auto.
  - destruct (row_effect _ _ _ _ _ (inv_res_map_nodup _ _ HI)
                (inv_rep_map_nodup _ _ HI) Hrow) as [E|(n & Hi & Hf & Hr)];
      [rewrite E; auto|].
    destruct Hf as (Hc & Hh & Hd & Hres & Hrep & Hk).
    unfold report_effect in Hr.
    destruct HI; constructor; try rewrite Hres; try rewrite Hrep; auto.
    + congruence.
    + destruct Hr as [(_ & _ & E)|(_ & _ & _ & [Hkk _])]; congruence.
    + destruct Hr as [(E1 & E2 & _)|(_ & E1 & E2 & _)]; rewrite E1, E2; auto.
      rewrite !length_app; simpl; lia.
    + intros k v Hv.
      destruct Hr as [(_ & E1 & E2)|(_ & _ & E1 & Hg)]; rewrite E1.
      * rewrite E2 in Hv; eauto.
      * destruct (grows_length _ _ _ _ _ Hg Hv) as (v0 & Hv0 & Hle).
        specialize (inv_rep_le0 _ _ Hv0); rewrite length_app; simpl; lia.
    + rewrite Hi; intros Habs; destruct (iterations st); discriminate.
    + intros k v Hk' Hv.
      destruct Hr as [(_ & _ & Hrd)|(_ & _ & _ & Hg)]; [rewrite Hrd in Hv; eauto|].
      eapply inv_rep_residual_names0; [eauto|].
      eapply grows_not_in; eauto.
      intros Hin; apply inv_rep_map0 in Hin; tauto.
    + intros r Hr0 Hin.
      destruct Hr as [(_ & E & _)|((r' & j & Hr' & Hj) & _)]; [rewrite E; eauto|].
      exfalso; rewrite Hr0 in Hr'; injection Hr' as <-.
      apply dict_get_In in Hj; apply inv_rep_map0 in Hj; tauto.
Qed.

Lemma Inv_scan req lines st st' o :
  Inv req st -> scan req lines st = (st', o) -> Inv req st'.
Proof.
  unfold scan; revert st; induction lines as [|l lines IH]; intros st HI Hrun;
    simpl in Hrun.
  - now injection Hrun as <- _.
  - unfold bind in Hrun.
    destruct (process_line req l st) as [st1 [[]|e]] eqn:E.
    + eapply IH; [|exact Hrun]; eapply Inv_process_line; eauto.
    + injection Hrun as <- _; eapply Inv_process_line; eauto.
Qed.

Lemma Inv_scan_init req lines st o :
  scan req lines (init_state req) = (st, o) -> Inv req st.
Proof. intros H; eapply Inv_scan; [apply Inv_init|exact H]. Qed.

Lemma report_keys_fold req (d : dict (list pyfloat)) :
  NoDup (keys d) ->
  NoDup (keys (fold_left (fun (d : dict (list pyfloat)) key => dict_set key [] d) req d)) /\
  forall k, In k (keys (fold_left (fun (d : dict (list pyfloat)) key => dict_set key [] d) req d))
            <-> In k (keys d) \/ In k req.
Proof.
  revert d; induction req as [|r req IH]; intros d Hnd; simpl.
  - split; [auto|intros k; tauto].
  - destruct (IH (dict_set r [] d)) as [H1 H2]; [now apply NoDup_keys_dict_set|].
    split; [auto|intros k; rewrite H2, In_keys_dict_set; intuition].
Qed.

Lemma report_keys_spec req :
  NoDup (report_keys req) /\ forall k, In k (report_keys req) <-> In k req.
Proof.
  destruct (report_keys_fold req []) as [H1 H2]; [constructor|].
  split; [exact H1|intros k; rewrite (H2 k); simpl; tauto].
Qed.

Lemma finalize_residual st f l0 :
  (iterations st = [] -> forall k v, dict_get k (residuals_data st) = Some v -> v = []) ->
  dict_get f (residuals_data st) = Some l0 ->
  let '(its, res, _, _, _) := finalize st in
  exists l, dict_get f res = Some l /\ length l = length its /\
    l = firstn (length its) (l0 ++ repeat PNaN (length its - length l0)).
Proof.
  intros Hempty Hl0; unfold finalize.
  destruct (iterations st) as [|i its] eqn:Ei.
  - pose proof (Hempty eq_refl _ _ Hl0) as ->.
    exists []; simpl; auto.
  - rewrite dict_get_map_values, Hl0; cbn [option_map].
    eexists; split; [reflexivity|split; [|reflexivity]].
    rewrite length_firstn, length_app, repeat_length; lia.
Qed.

(** ** Time-step markers *)

Lemma last_marker_snoc pre l :
  last_marker (pre ++ [l]) =
  match match_timestep (strip l) with
  | Some g => Some g
  | None => last_marker pre
  end.
Proof.
  induction pre as [|x pre IH]; simpl.
  - destruct (match_timestep (strip l)); auto.
  - rewrite IH; destruct (match_timestep (strip l)); auto.
Qed.

Lemma marker_inv_step req pre l st st' :
  Inv req st -> marker_inv pre st ->
  process_line req l st = (st', Ok tt) -> marker_inv (pre ++ [l]) st'.
Proof.
  intros HI [Hm1 Hm2] Hrun; unfold marker_inv; rewrite last_marker_snoc.
  destruct (process_line_cases _ _ _ _ _ Hrun)
    as [(E & _ & Ht & _)|[(g & t & Ht & Hf & _ & E)|[(g & _ & _ & _ & Habs)|[(Ht & _ & Hh)|(Ht & _ & _ & _ & Hrow)]]]].
  - rewrite E, Ht; auto.
  - rewrite E, Ht; simpl; split; [eauto|intros g' Hg; injection Hg as <-; auto].
  - discriminate.
  - rewrite Ht; rewrite header_update_eq in Hh.
    destruct (build_header_maps req (header_tokens (strip l))) as [tr tp].
    injection Hh; intros; subst st'; simpl; auto.
  - rewrite Ht.
    destruct (row_effect _ _ _ _ _ (inv_res_map_nodup _ _ HI)
                (inv_rep_map_nodup _ _ HI) Hrow) as [E|(n & _ & Hf & _)];
      [rewrite E; auto|].
    destruct Hf as (Hc & _ & Hd & _); rewrite Hc, Hd; auto.
Qed.

Lemma marker_inv_scan req lines : forall pre st0 st,
  Inv req st0 -> marker_inv pre st0 ->
  scan req lines st0 = (st, Ok tt) -> marker_inv (pre ++ lines) st.
Proof.
  unfold scan; induction lines as [|l lines IH]; intros pre st0 st HI Hm Hrun;
    simpl in Hrun.
  - injection Hrun as <-; now rewrite app_nil_r.
  - unfold bind in Hrun.
    destruct (process_line req l st0) as [st1 [[]|e]] eqn:E; [|discriminate].
    replace (pre ++ l :: lines) with ((pre ++ [l]) ++ lines)
      by now rewrite <- app_assoc.
    eapply IH; [eapply Inv_process_line; eauto|eapply marker_inv_step; eauto|exact Hrun].
Qed.

(** * Claims *)

(** ** Residual sequences at the end of parsing *)

(** C1 (as amended): when the scan of a readable log completes, every
    one of the seven residual fields has an entry whose length is
    [len(iterations)]: the scanned values padded at the tail with NaN
    and cut to [len(iterations)]; when an exception escapes the scan,
    the result is the empty one ([[], {}, [], [], {}]). *)
Theorem parse_residual_lengths (text : string) (req : list string) :
  match scan req (read_lines text) (init_state req) with
  | (st, Ok _) =>
      let '(its, res, _, _, _) := parse_starccm_logfile (Contents text) req in
      forall f, In f expected_residual_cols ->
        exists l0 l, dict_get f (residuals_data st) = Some l0 /\
          dict_get f res = Some l /\ length l = length its /\
          l = firstn (length its) (l0 ++ repeat PNaN (length its - length l0))
  | (_, Raise _) => parse_starccm_logfile (Contents text) req = empty_result
  end.
Proof.
  unfold parse_starccm_logfile.
  destruct (scan req (read_lines text) (init_state req)) as [st [u|e]] eqn:Hs;
    [|reflexivity].
  pose proof (Inv_scan_init _ _ _ _ Hs) as HI.
  cbn beta iota.
  destruct (finalize st) as [[[[its res] rits] rts] reps] eqn:Efin.
  intros f Hf.
  rewrite <- (inv_res_keys _ _ HI) in Hf.
  destruct (In_dict_get _ _ Hf) as [l0 Hl0].
  pose proof (finalize_residual st f l0 (inv_res_empty _ _ HI) Hl0) as Hfin.
  rewrite Efin in Hfin.
  destruct Hfin as (l & H1 & H2 & H3); exists l0, l; auto.
Qed.

(** ** Report sequences at the end of parsing *)

(** C2 (as amended): [len(reportIterations) == len(reportTimes)], and
    each entry of the reports map is at most that long. *)
Theorem parse_report_lengths (f : log_file) (req : list string) :
  let '(_, _, rits, rts, reps) := parse_starccm_logfile f req in
  length rits = length rts /\
  forall k v, dict_get k reps = Some v -> length v <= length rits.
Proof.
  destruct f as [| |text]; simpl; [split; [auto|discriminate]..|].
  destruct (scan req (read_lines text) (init_state req)) as [st [u|e]] eqn:Hs;
    [|simpl; split; [auto|discriminate]].
  pose proof (Inv_scan_init _ _ _ _ Hs) as HI; simpl.
  split; [symmetry; apply (inv_rep_len _ _ HI)|apply (inv_rep_le _ _ HI)].
Qed.

(** ** Keys of the returned maps *)

(** C9 (as amended): when the scan of a readable log completes, the
    residuals map has exactly the seven residual names (in this order)
    and the reports map exactly the requested names, once each; on a
    missing or unreadable file, or when an exception escapes the scan,
    both maps are empty. *)
Theorem parse_result_keys (f : log_file) (req : list string) :
  let '(_, res, _, _, reps) := parse_starccm_logfile f req in
  match f with
  | Contents text =>
      match scan req (read_lines text) (init_state req) with
      | (_, Ok _) =>
          keys res = expected_residual_cols /\
          NoDup (keys reps) /\ (forall k, In k (keys reps) <-> In k req)
      | (_, Raise _) => res = [] /\ reps = []
      end
  | _ => res = [] /\ reps = []
  end.
Proof.
  destruct f as [| |text]; simpl; [auto..|].
  destruct (scan req (read_lines text) (init_state req)) as [st [u|e]] eqn:Hs;
    [|simpl; auto].
  pose proof (Inv_scan_init _ _ _ _ Hs) as HI.
  unfold finalize; simpl.
  rewrite (inv_rep_keys _ _ HI).
  destruct (report_keys_spec req) as [Hnd Hin].
  split; [|split; auto].
  destruct (iterations st); [|rewrite keys_map_values]; apply (inv_res_keys _ _ HI).
Qed.

(** ** Report fields named like residual fields *)

(** C10: a requested report field [r] that is one of the seven residual
    names never enters the report layout, a header token equal to it
    enters the residual layout, its report entry stays empty, and when
    it is the gating field no report sample is ever taken. *)
Theorem residual_named_report_field (req : list string) (r : string) :
  In r expected_residual_cols ->
  (forall lines st o, scan req lines (init_state req) = (st, o) ->
     ~ In r (keys (report_headers_map st))) /\
  (forall line st st' o, In r (header_tokens line) ->
     header_update req line st = (st', o) ->
     In r (keys (residual_headers_map st'))) /\
  (forall f, let '(_, _, rits, rts, reps) := parse_starccm_logfile f req in
     (forall v, dict_get r reps = Some v -> v = []) /\
     (hd_error req = Some r -> rits = [] /\ rts = [])).
Proof.
  intros Hr; split; [|split].
  - intros lines st o Hs Hin.
    apply (inv_rep_map _ _ (Inv_scan_init _ _ _ _ Hs)) in Hin; tauto.
  - intros line st st' o Htok Hh.
    rewrite header_update_eq in Hh.
    pose proof (build_header_maps_has_residual req _ r Htok Hr) as Htr.
    destruct (build_header_maps req (header_tokens line)) as [tr tp].
    injection Hh as <- _; simpl in *.
    destruct tr; [contradiction|exact Htr].
  - intros [| |text]; simpl; [split; [discriminate|auto]..|].
    destruct (scan req (read_lines text) (init_state req)) as [st [u|e]] eqn:Hs;
      [|simpl; split; [discriminate|auto]].
    pose proof (Inv_scan_init _ _ _ _ Hs) as HI; simpl.
    split; [intros v; apply (inv_rep_residual_names _ _ HI); auto|].
    intros Hhd; pose proof (inv_gate_residual_name _ _ HI _ Hhd Hr) as E.
    split; [auto|].
    pose proof (inv_rep_len _ _ HI) as Hlen; rewrite E in Hlen.
    destruct (report_times st); [auto|discriminate].
Qed.

(** C10 at [r = "Tke"], requested as the gating report field. *)
Lemma residual_named_report_field_witness :
  In "Tke"%string expected_residual_cols /\
  (forall f, let '(_, _, rits, rts, reps) :=
               parse_starccm_logfile f ["Tke"; "Drag"]%string in
     (forall v, dict_get "Tke"%string reps = Some v -> v = []) /\
     (hd_error ["Tke"; "Drag"]%string = Some "Tke"%string -> rits = [] /\ rts = [])).
Proof.
  split; [simpl; tauto|].
  apply (residual_named_report_field ["Tke"; "Drag"]%string "Tke"%string).
  simpl; tauto.
Defined.

(** C1, counterexample: a readable log (here one whose last marker is
    cut) for which the residuals map has no [Continuity] entry at all. *)
Lemma truncated_marker_no_residuals :
  let '(its, res, _, _, _) :=
    parse_starccm_logfile (Contents truncated_marker_log) [] in
  its = [] /\ dict_get "Continuity"%string res = None.
Proof. vm_compute; split; reflexivity. Qed.

(** C2, counterexample: one report sample is taken, but the entry of
    the requested field Lift, absent from every header, stays empty. *)
Lemma unlisted_report_field_not_padded :
  let '(_, _, rits, rts, reps) :=
    parse_starccm_logfile (Contents unlisted_report_log) ["Drag"; "Lift"]%string in
  rits = [1%Z] /\ rts = [PFin 5 (-1)] /\
  dict_get "Drag"%string reps = Some [PFin 25 (-1)] /\ dict_get "Lift"%string reps = Some [].
Proof. vm_compute; repeat split. Qed.

(** C9, counterexample: a readable log whose result has empty maps. *)
Lemma truncated_marker_empty_maps :
  parse_starccm_logfile (Contents truncated_marker_log) ["Drag"%string]
  = ([], [], [], [], []).
Proof. vm_compute; reflexivity. Qed.

(** C4, counterexample: in Scenario A, Continuity is NaN, not 1.0e-3. *)
Lemma scenario_A_continuity_is_nan :
  let '(_, res, _, _, _) := parse_starccm_logfile (Contents scenario_A) [] in
  dict_get "Continuity"%string res = Some [PNaN] /\
  dict_get "X-momentum"%string res = Some [PNaN].
Proof. vm_compute; split; reflexivity. Qed.

(** C4 (as amended): Scenario A yields [iterations=[1]], all seven
    residual sequences [[NaN]] (the single-spaced header line is one
    token and maps no column) and empty report outputs. *)
Theorem scenario_A_result :
  parse_starccm_logfile (Contents scenario_A) [] =
  ([1%Z],
   [("Continuity", [PNaN]); ("X-momentum", [PNaN]); ("Y-momentum", [PNaN]);
    ("Z-momentum", [PNaN]); ("Tke", [PNaN]); ("Sdr", [PNaN]);
    ("Intermittency", [PNaN])]%string,
   [], [], []).
Proof. vm_compute; reflexivity. Qed.

(** C3, counterexample: the malformed Continuity token also costs the
    well-formed X-momentum token of the same row. *)
Lemma bad_first_field_loses_row :
  let '(its, res, _, _, _) :=
    parse_starccm_logfile (Contents bad_first_field_log) [] in
  its = [1%Z] /\ dict_get "Continuity"%string res = Some [PNaN] /\
  dict_get "X-momentum"%string res = Some [PNaN].
Proof. vm_compute; repeat split. Qed.

(** C5: after the failed row the X-momentum sequence is one entry short
    of [iterations] (the handler pads only when Continuity is short), and
    the next row's X-momentum value lands at iteration 1. *)
Theorem bad_second_field_not_reconciled :
  let st := fst (scan [] bad_second_field_lines (init_state [])) in
  iterations st = [1%Z] /\
  dict_get "Continuity"%string (residuals_data st) = Some [PFin 1 (-3)] /\
  dict_get "X-momentum"%string (residuals_data st) = Some [] /\
  let '(its, res, _, _, _) :=
    parse_starccm_logfile (Contents bad_second_field_log) [] in
  its = [1%Z; 2%Z] /\
  dict_get "Continuity"%string res = Some [PFin 1 (-3); PFin 3 (-3)] /\
  dict_get "X-momentum"%string res = Some [PFin 4 (-3); PNaN].
Proof. vm_compute; repeat split. Qed.

(** C7, counterexample: row 2's gating token 2.5 is present and not a
    placeholder, yet no report sample is ever taken. *)
Lemma gated_rows_no_sample :
  let '(its, _, rits, rts, reps) :=
    parse_starccm_logfile (Contents gated_rows_log) ["Drag"%string] in
  its = [1%Z; 2%Z] /\ rits = [] /\ rts = [] /\ dict_get "Drag"%string reps = Some [].
Proof. vm_compute; repeat split. Qed.

(** ** Physical time of report samples *)

(** C8: after the lines [pre], a line [row] adds an iteration only if
    [pre] contains a time-step marker, and the report time it records,
    if any, is the value of the last marker of [pre] (lines between two
    markers thus share the earlier marker's time). *)
Theorem report_time_is_last_marker (req pre : list string) (row : string)
    st st' o :
  scan req pre (init_state req) = (st, Ok tt) ->
  process_line req row st = (st', o) ->
  (iterations st' <> iterations st ->
     exists g t, last_marker pre = Some g /\ py_float g = Some t) /\
  (report_times st' = report_times st \/
   exists g t n, last_marker pre = Some g /\ py_float g = Some t /\
     iterations st' = iterations st ++ [n] /\
     report_iterations st' = report_iterations st ++ [n] /\
     report_times st' = report_times st ++ [t]).
Proof.
  intros Hs Hrun.
  pose proof (Inv_scan_init _ _ _ _ Hs) as HI.
  assert (Hm : marker_inv pre st).
  { change pre with ([] ++ pre); eapply marker_inv_scan; [apply Inv_init| |exact Hs].
    split; [discriminate|discriminate]. }
  destruct (process_line_cases _ _ _ _ _ Hrun)
    as [(E & _)|[(g & t & _ & _ & _ & E)|[(g & _ & _ & E & _)|[(_ & _ & Hh)|(_ & _ & _ & Hd & Hrow)]]]].
  - rewrite E; split; [congruence|auto].
  - rewrite E; split; [simpl; congruence|auto].
  - rewrite E; split; [congruence|auto].
  - rewrite header_update_eq in Hh.
    destruct (build_header_maps req (header_tokens (strip row))) as [tr tp].
    injection Hh; intros; subst st'; simpl; split; [congruence|auto].
  - destruct Hm as [Hm1 Hm2].
    destruct (Hm1 Hd) as [g Hg]; pose proof (Hm2 _ Hg) as Ht.
    split; [intros _; eauto|].
    destruct (row_effect _ _ _ _ _ (inv_res_map_nodup _ _ HI)
                (inv_rep_map_nodup _ _ HI) Hrow) as [E|(n & Hi & _ & Hr)];
      [rewrite E; auto|].
    destruct Hr as [(E & _)|(_ & E1 & E2 & _)]; [auto|].
    right; exists g, (current_time st), n; auto.
Qed.

(** A run of C8 on a two-line prefix and a data row. *)
Lemma report_time_is_last_marker_witness :
  let req := ["Drag"%string] in
  let pre := ["TimeStep 3: Time 1.5"; "Iteration  Continuity  Drag"]%string in
  let row := "7  1.0e-3  2.5"%string in
  let st := fst (scan req pre (init_state req)) in
  let st' := fst (process_line req row st) in
  scan req pre (init_state req) = (st, Ok tt) /\
  report_times st' = [PFin 15 (-1)] /\
  ((iterations st' <> iterations st ->
     exists g t, last_marker pre = Some g /\ py_float g = Some t) /\
  (report_times st' = report_times st \/
   exists g t n, last_marker pre = Some g /\ py_float g = Some t /\
     iterations st' = iterations st ++ [n] /\
     report_iterations st' = report_iterations st ++ [n] /\
     report_times st' = report_times st ++ [t])).
Proof.
  intros req pre row st st'.
  split; [vm_compute; reflexivity|split; [vm_compute; reflexivity|]].
  apply (report_time_is_last_marker req pre row st st'
           (snd (process_line req row st))).
  - vm_compute; reflexivity.
  - unfold st'; destruct (process_line req row st); reflexivity.
Defined.

(** ** Header layouts *)

(** C6, as the code has it: on a recognized header line the residual
    layout becomes the fresh map [tr] built from the line's tokens (its
    keys are residual names among those tokens) when some token is a
    residual name, and is left unchanged otherwise; the report layout
    becomes the fresh map [tp] when some token is a requested field that
    is NOT a residual name, and is left unchanged otherwise (a requested
    token that is also a residual name goes to the residual layout). *)
Theorem header_layout_update (req : list string) (raw : string) st st' o :
  match_timestep (strip raw) = None ->
  is_header_line req (strip raw) = true ->
  process_line req raw st = (st', o) ->
  let hs := header_tokens (strip raw) in
  let '(tr, tp) := build_header_maps req hs in
  o = Ok tt /\ header_line_found st' = true /\
  (forall k, In k (keys tr) -> In k expected_residual_cols /\ In k hs) /\
  (forall k, In k (keys tp) ->
     In k req /\ ~ In k expected_residual_cols /\ In k hs) /\
  ((exists h, In h hs /\ In h expected_residual_cols) ->
     residual_headers_map st' = tr) /\
  (~ (exists h, In h hs /\ In h expected_residual_cols) ->
     residual_headers_map st' = residual_headers_map st) /\
  ((exists h, In h hs /\ In h req /\ ~ In h expected_residual_cols) ->
     report_headers_map st' = tp) /\
  (~ (exists h, In h hs /\ In h req /\ ~ In h expected_residual_cols) ->
     report_headers_map st' = report_headers_map st).
Proof.
  intros Ht Hh Hrun hs.
  assert (Hup : header_update req (strip raw) st = (st', o)).
  { destruct (process_line_cases _ _ _ _ _ Hrun)
      as [(_ & _ & _ & E)|[(g & _ & E & _)|[(g & E & _)|[(_ & _ & Hu)|(_ & E & _)]]]];
      congruence. }
  rewrite header_update_eq in Hup.
  pose proof (build_header_maps_ok req hs) as Hok.
  assert (Hhas : forall h, In h hs -> let '(tr, tp) := build_header_maps req hs in
            (In h expected_residual_cols -> In h (keys tr)) /\
            (In h req -> ~ In h expected_residual_cols -> In h (keys tp)))
    by (intros h; apply build_header_maps_has).
  fold hs in Hup.
  destruct (build_header_maps req hs) as [tr tp].
  destruct Hok as (H1 & _ & H3 & _).
  injection Hup; intros <- <-; cbn.
  split; [reflexivity|split; [reflexivity|split; [exact H1|split; [exact H3|]]]].
  split; [|split; [|split]].
  - intros (h & Hin & He); destruct (Hhas h Hin) as [Hr _].
    specialize (Hr He); destruct tr; [contradiction|reflexivity].
  - intros Hno; destruct tr as [|[k i] tr]; [reflexivity|].
    exfalso; apply Hno; exists k; destruct (H1 k (or_introl eq_refl)); auto.
  - intros (h & Hin & Hq & He); destruct (Hhas h Hin) as [_ Hp].
    specialize (Hp Hq He); destruct tp; [contradiction|reflexivity].
  - intros Hno; destruct tp as [|[k i] tp]; [reflexivity|].
    exfalso; apply Hno; exists k; destruct (H3 k (or_introl eq_refl)) as (? & ? & ?); auto.
Qed.

(** C6 on [header_switch_second] after [header_switch_first], with the
    requested fields Tke and Drag. *)
Lemma header_layout_update_witness :
  let req := ["Tke"; "Drag"]%string in
  let st := fst (scan req [header_switch_first] (init_state req)) in
  let '(st', o) := process_line req header_switch_second st in
  let hs := header_tokens (strip header_switch_second) in
  let '(tr, tp) := build_header_maps req hs in
  o = Ok tt /\ header_line_found st' = true /\
  (forall k, In k (keys tr) -> In k expected_residual_cols /\ In k hs) /\
  (forall k, In k (keys tp) ->
     In k req /\ ~ In k expected_residual_cols /\ In k hs) /\
  ((exists h, In h hs /\ In h expected_residual_cols) ->
     residual_headers_map st' = tr) /\
  (~ (exists h, In h hs /\ In h expected_residual_cols) ->
     residual_headers_map st' = residual_headers_map st) /\
  ((exists h, In h hs /\ In h req /\ ~ In h expected_residual_cols) ->
     report_headers_map st' = tp) /\
  (~ (exists h, In h hs /\ In h req /\ ~ In h expected_residual_cols) ->
     report_headers_map st' = report_headers_map st).
Proof.
  intros req st.
  destruct (process_line req header_switch_second st) as [st' o] eqn:E.
  apply (header_layout_update req header_switch_second st st' o).
  - vm_compute; reflexivity.
  - vm_compute; reflexivity.
  - exact E.
Defined.

(** C6, counterexample: with the requested fields Tke and Drag, after
    [header_switch_first] and then [header_switch_second] the report
    layout still maps "Drag", although the second header line has the
    requested token "Tke" (a residual name, which goes to the residual
    layout instead). *)
Lemma header_switch_report_layout_kept :
  let req := ["Tke"; "Drag"]%string in
  let st := fst (scan req [header_switch_first] (init_state req)) in
  let st' := fst (process_line req header_switch_second st) in
  is_header_line req (strip header_switch_second) = true /\
  In "Tke"%string (header_tokens (strip header_switch_second)) /\
  In "Tke"%string req /\
  report_headers_map st = [("Drag"%string, 2)] /\
  report_headers_map st' = [("Drag"%string, 2)] /\
  residual_headers_map st' = [("Continuity"%string, 1); ("Tke"%string, 2)].
Proof. vm_compute; repeat split; auto 10. Qed.

(** ** Malformed residual tokens *)

(** C3, as the code has it: take a reachable state whose residual layout
    is [l1 ++ (f, i) :: l2], and a data row whose columns of [l1] read as
    floats while its column [i] holds a token [float()] rejects. If the
    row is taken (its iteration number is appended), the row is aborted
    at [f]: the fields of [l1] get their values (possibly followed by a
    NaN from the handler), [f] and every field after it get no value
    (at most a NaN pad from the handler), and no report sample is
    taken. *)
Theorem malformed_residual_aborts_row (req pre : list string) (raw : string)
    st st' o (l1 l2 : dict nat) f i :
  scan req pre (init_state req) = (st, Ok tt) ->
  residual_headers_map st = l1 ++ (f, i) :: l2 ->
  (forall k c, In (k, c) l1 ->
     exists v, read_col (values_str_of (strip raw)) c = Ok v) ->
  read_col (values_str_of (strip raw)) i = Raise ValueError ->
  process_line req raw st = (st', o) ->
  iterations st' <> iterations st ->
  (exists n, iterations st' = iterations st ++ [n]) /\
  report_times st' = report_times st /\
  report_iterations st' = report_iterations st /\
  reports_data st' = reports_data st /\
  (forall k c v0, In (k, c) l1 -> dict_get k (residuals_data st) = Some v0 ->
     exists v pad, read_col (values_str_of (strip raw)) c = Ok v /\
       dict_get k (residuals_data st') = Some (v0 ++ v :: pad) /\
       (pad = [] \/ pad = [PNaN])) /\
  (forall k v0, ~ In k (keys l1) -> dict_get k (residuals_data st) = Some v0 ->
     dict_get k (residuals_data st') = Some v0 \/
     dict_get k (residuals_data st') = Some (v0 ++ [PNaN])).
Proof.
  intros Hs Hmap Hok Hbad Hrun Hit.
  pose proof (Inv_scan_init _ _ _ _ Hs) as HI.
  set (vs := values_str_of (strip raw)) in *.
  assert (Hmapk : forall k, In k (keys (residual_headers_map st)) ->
                    In k (keys (residuals_data st))).
  { intros k Hk; rewrite (inv_res_keys _ _ HI); apply (inv_res_map _ _ HI); auto. }
  assert (Hnd : NoDup (keys (l1 ++ (f, i) :: l2)))
    by (rewrite <- Hmap; apply (inv_res_map_nodup _ _ HI)).
  assert (Hall : forall k c, In (k, c) l1 ->
            In k (keys (residuals_data st)) /\ exists v, read_col vs c = Ok v).
  { intros k c Hin; split; [|eauto].
    apply Hmapk; rewrite Hmap; apply (in_map fst (l1 ++ (f, i) :: l2) (k, c)).
    apply in_or_app; auto. }
  assert (Hf : In f (keys (residuals_data st))).
  { apply Hmapk; rewrite Hmap; apply (in_map fst (l1 ++ (f, i) :: l2) (f, i)).
    apply in_or_app; right; left; reflexivity. }
  destruct (process_line_cases _ _ _ _ _ Hrun)
    as [(E & _)|[(g & t & _ & _ & _ & E)|[(g & _ & _ & E & _)|[(_ & _ & Hh)|(_ & _ & _ & _ & Hrow)]]]].
  - rewrite E in Hit; contradiction.
  - rewrite E in Hit; contradiction.
  - rewrite E in Hit; contradiction.
  - rewrite header_update_eq in Hh.
    destruct (build_header_maps req (header_tokens (strip raw))) as [tr tp].
    injection Hh; intros; subst st'; contradiction.
  - fold vs in Hrow; unfold try_value_index in Hrow.
    destruct (row_body_residual_raise req vs st l1 l2 f i Hmap Hnd Hall Hf Hbad)
      as [Hb|(n & d' & Hb & Ha & Hbb)]; rewrite Hb in Hrow.
    + injection Hrow as <- _; contradiction.
    + destruct (handler_pads _ _ _ Hrow) as [Hst' Hp].
      rewrite Hst'; cbn [residuals_data set_residuals_data set_iterations
                         iterations report_times report_iterations reports_data] in *.
      split; [eauto|split; [reflexivity|split; [reflexivity|split; [reflexivity|]]]].
      split.
      * intros k c v0 Hin Hv0.
        destruct (Ha k c v0 Hin Hv0) as (v & Hv & Hd').
        exists v; destruct (pads_get _ _ _ _ _ Hp Hd') as [E|E].
        -- exists []; auto.
        -- exists [PNaN]; rewrite <- app_assoc in E; auto.
      * intros k v0 Hk Hv0.
        apply (pads_get _ _ _ _ _ Hp); rewrite Hbb; auto.
Qed.

(** C3 on the row "1  1.0e-3  abc" of [bad_second_field_lines]: the
    Continuity value 1.0e-3 is kept, X-momentum gets none. *)
Lemma malformed_residual_aborts_row_witness :
  let pre := firstn 2 bad_second_field_lines in
  let raw := "1  1.0e-3  abc"%string in
  let st := fst (scan [] pre (init_state [])) in
  let '(st', o) := process_line [] raw st in
  (exists n, iterations st' = iterations st ++ [n]) /\
  report_times st' = report_times st /\
  report_iterations st' = report_iterations st /\
  reports_data st' = reports_data st /\
  (forall k c v0, In (k, c) [("Continuity"%string, 1)] ->
     dict_get k (residuals_data st) = Some v0 ->
     exists v pad, read_col (values_str_of (strip raw)) c = Ok v /\
       dict_get k (residuals_data st') = Some (v0 ++ v :: pad) /\
       (pad = [] \/ pad = [PNaN])) /\
  (forall k v0, ~ In k (keys [("Continuity"%string, 1)]) ->
     dict_get k (residuals_data st) = Some v0 ->
     dict_get k (residuals_data st') = Some v0 \/
     dict_get k (residuals_data st') = Some (v0 ++ [PNaN])).
Proof.
  intros pre raw st.
  destruct (process_line [] raw st) as [st' o] eqn:E.
  apply (malformed_residual_aborts_row [] pre raw st st' o
           [("Continuity"%string, 1)] [] "X-momentum"%string 2).
  - vm_compute; reflexivity.
  - vm_compute; reflexivity.
  - intros k c [H|[]]; injection H as <- <-; eexists; vm_compute; reflexivity.
  - vm_compute; reflexivity.
  - exact E.
  - vm_compute in E; injection E as <- _; vm_compute; discriminate.
Defined.

(** ** Report gating *)

(** C7, as the code has it: take a reachable state whose report layout
    maps the gating field [r] (the first requested one) to column [j],
    and a data row that is taken. If column [j] is beyond the row's
    tokens or holds "---" or the empty string, no report sample is
    taken. If column [j] holds any other token and every residual column
    of the row reads as a float, a sample is taken at the current time.
    (A row with a malformed residual token aborts before the gate, see
    C3, and takes no sample even when its gating token is present.) *)
Theorem gating_token_sample (req pre : list string) (raw : string)
    st st' o r j :
  scan req pre (init_state req) = (st, Ok tt) ->
  hd_error req = Some r ->
  dict_get r (report_headers_map st) = Some j ->
  process_line req raw st = (st', o) ->
  iterations st' <> iterations st ->
  let vs := values_str_of (strip raw) in
  ((length vs <= j \/ nth j vs EmptyString = "---"%string \/
    nth j vs EmptyString = EmptyString) ->
   report_times st' = report_times st /\
   report_iterations st' = report_iterations st /\
   reports_data st' = reports_data st) /\
  (j < length vs -> nth j vs EmptyString <> "---"%string ->
   nth j vs EmptyString <> EmptyString ->
   (forall k c, In (k, c) (residual_headers_map st) ->
      exists v, read_col vs c = Ok v) ->
   exists n, iterations st' = iterations st ++ [n] /\
     report_times st' = report_times st ++ [current_time st] /\
     report_iterations st' = report_iterations st ++ [n]).
Proof.
  intros Hs Hr Hj Hrun Hit vs.
  pose proof (Inv_scan_init _ _ _ _ Hs) as HI.
  destruct (process_line_cases _ _ _ _ _ Hrun)
    as [(E & _)|[(g & t & _ & _ & _ & E)|[(g & _ & _ & E & _)|[(_ & _ & Hh)|(_ & _ & _ & _ & Hrow)]]]].
  - rewrite E in Hit; contradiction.
  - rewrite E in Hit; contradiction.
  - rewrite E in Hit; contradiction.
  - rewrite header_update_eq in Hh.
    destruct (build_header_maps req (header_tokens (strip raw))) as [tr tp].
    injection Hh; intros; subst st'; contradiction.
  - fold vs in Hrow.
    destruct (row_body req vs st) as [s os] eqn:Hb.
    pose proof (try_row_frame _ _ _ _ _ _ Hrow Hb) as Hst'.
    split.
    + intros Hc; apply gate_open_false in Hc.
      assert (Hg : forall r' j', hd_error req = Some r' ->
                     dict_get r' (report_headers_map st) = Some j' ->
                     gate_open vs j' = false) by congruence.
      destruct (row_body_gate_closed _ _ _ _ _ Hg Hb) as (E1 & E2 & E3).
      rewrite Hst'; simpl; auto.
    + intros H1 H2 H3 Hok.
      assert (Hgate : gate_open vs j = true) by (apply gate_open_true; auto).
      assert (Hall : forall k c, In (k, c) (residual_headers_map st) ->
                In k (keys (residuals_data st)) /\ exists v, read_col vs c = Ok v).
      { intros k c Hin; split; [|eauto].
        rewrite (inv_res_keys _ _ HI); apply (inv_res_map _ _ HI).
        apply (in_map fst _ _ Hin). }
      assert (Hre : r <> EmptyString).
      { apply dict_get_In in Hj; apply (inv_rep_map _ _ HI) in Hj; tauto. }
      destruct (row_body_gate_open req vs st s os r j
                  (inv_res_map_nodup _ _ HI) (inv_rep_map_nodup _ _ HI)
                  Hall Hr Hre Hj Hgate Hb) as [->|(n & E1 & E2 & E3)].
      * rewrite Hst' in Hit; destruct st; contradiction.
      * exists n; rewrite Hst'; simpl; auto.
Qed.

(** C7 on the marker and header of [gated_rows_log] followed by a row
    with a present gating token. *)
Lemma gating_token_sample_witness :
  let req := ["Drag"%string] in
  let pre := ["TimeStep 1: Time 0.5"; "Iteration  Continuity  Drag"]%string in
  let st := fst (scan req pre (init_state req)) in
  let raw := "3  1.0e-3  2.5"%string in
  let '(st', o) := process_line req raw st in
  let vs := values_str_of (strip raw) in
  ((length vs <= 2 \/ nth 2 vs EmptyString = "---"%string \/
    nth 2 vs EmptyString = EmptyString) ->
   report_times st' = report_times st /\
   report_iterations st' = report_iterations st /\
   reports_data st' = reports_data st) /\
  (2 < length vs -> nth 2 vs EmptyString <> "---"%string ->
   nth 2 vs EmptyString <> EmptyString ->
   (forall k c, In (k, c) (residual_headers_map st) ->
      exists v, read_col vs c = Ok v) ->
   exists n, iterations st' = iterations st ++ [n] /\
     report_times st' = report_times st ++ [current_time st] /\
     report_iterations st' = report_iterations st ++ [n]).
Proof.
  intros req pre st raw.
  destruct (process_line req raw st) as [st' o] eqn:E.
  apply (gating_token_sample req pre raw st st' o "Drag"%string 2).
  - vm_compute; reflexivity.
  - reflexivity.
  - vm_compute; reflexivity.
  - exact E.
  - vm_compute in E; injection E as <- _; vm_compute; discriminate.
Defined.

(** * Further properties of the parser *)

(** ** One line, as seen from the outputs *)

Lemma row_body_iter req vs st s o :
  NoDup (keys (residual_headers_map st)) ->
  NoDup (keys (report_headers_map st)) ->
  row_body req vs st = (s, o) ->
  s = st \/ exists v0 rest, vs = v0 :: rest /\ py_isdigit v0 = true /\
                            iterations s = iterations st ++ [py_int v0].
Proof.
  intros Hnd1 Hnd2 Hrun; unfold row_body in Hrun.
  destruct vs as [|v0 vs']; [injection Hrun as <- _; auto|].
  destruct (py_isdigit v0) eqn:Hd; simpl in Hrun; [|injection Hrun as <- _; auto].
  right; exists v0, vs'; split; [reflexivity|split; [exact Hd|]].
  unfold bind, modify, gets in Hrun; simpl in Hrun.
  match type of Hrun with
  | context[forM_ ?L ?b ?s] => destruct (forM_ L b s) as [st2 o2] eqn:Hl
  end.
  destruct (residual_loop_grows _ _ _ _ _ Hnd1 Hl) as [Hst2 _].
  assert (Hi2 : iterations st2 = iterations st ++ [py_int v0]) by (rewrite Hst2; reflexivity).
  assert (Hrm : report_headers_map st2 = report_headers_map st) by (rewrite Hst2; reflexivity).
  clear Hst2 Hl.
  destruct o2 as [[]|e]; [|injection Hrun as <- _; auto].
  rewrite Hrm in Hrun.
  destruct req as [|r req']; [injection Hrun as <- _; auto|].
  destruct (String.eqb r ""); [injection Hrun as <- _; auto|].
  destruct (dict_get r (report_headers_map st)) as [j|];
    [|injection Hrun as <- _; auto].
  match type of Hrun with
  | (if ?b then _ else _) _ = _ => destruct b
  end; [|injection Hrun as <- _; auto].
  match type of Hrun with
  | forM_ ?L ?b ?s = _ => destruct (report_loop_grows _ _ _ _ _ Hnd2 Hrun) as [Hst' _]
  end.
  rewrite Hst'; exact Hi2.
Qed.

(** A line either leaves the four output lists alone, or is a data row
    read after a header and a marker whose first token is a digit string
    [v0]: it appends [int(v0)] to [iterations] and takes at most one
    report sample, with that iteration number, at the current time. *)
Lemma process_line_step req raw st st' o :
  Inv req st -> process_line req raw st = (st', o) ->
  (iterations st' = iterations st /\ report_iterations st' = report_iterations st /\
   report_times st' = report_times st /\ reports_data st' = reports_data st) \/
  exists v0 rest, values_str_of (strip raw) = v0 :: rest /\ py_isdigit v0 = true /\
    header_line_found st = true /\ iteration_data_started st = true /\
    iterations st' = iterations st ++ [py_int v0] /\
    report_effect req (py_int v0) st st'.
Proof.
  intros HI Hrun.
  destruct (process_line_cases _ _ _ _ _ Hrun)
    as [(E & _)|[(g & t & _ & _ & _ & E)|[(g & _ & _ & E & _)|[(_ & _ & Hh)|(_ & _ & Hf & Hd & Hrow)]]]].
  - rewrite E; auto.
  - rewrite E; left; auto.
  - rewrite E; auto.
  - rewrite header_update_eq in Hh.
    destruct (build_header_maps req (header_tokens (strip raw))) as [tr tp].
    injection Hh; intros; subst st'; left; auto.
  - pose proof (inv_res_map_nodup _ _ HI) as Hnd1.
    pose proof (inv_rep_map_nodup _ _ HI) as Hnd2.
    destruct (row_body req (values_str_of (strip raw)) st) as [s os] eqn:Hb.
    pose proof (try_row_frame _ _ _ _ _ _ Hrow Hb) as Hst'.
    destruct (row_body_iter _ _ _ _ _ Hnd1 Hnd2 Hb) as [->|(v0 & rest & Hvs & Hdig & Hi)].
    + left; rewrite Hst'; auto.
    + destruct (row_effect _ _ _ _ _ Hnd1 Hnd2 Hrow) as [E|(n & Hn & _ & Hr)].
      * exfalso; rewrite E in Hst'; rewrite Hst' in Hi; simpl in Hi.
        apply (f_equal (@length Z)) in Hi; rewrite length_app in Hi; simpl in Hi; lia.
      * assert (Hin : iterations st' = iterations s) by (rewrite Hst'; reflexivity).
        rewrite Hin, Hi in Hn; apply app_inj_tail in Hn; destruct Hn as [_ <-].
        right; exists v0, rest; repeat split; auto; congruence.
Qed.

(** Induction over a completed scan, for a property of the lines read so
    far and the state. *)
Lemma scan_preserves req (P : list string -> state -> Prop) (lines : list string) :
  (forall pre raw post st st', lines = pre ++ raw :: post -> Inv req st -> P pre st ->
     process_line req raw st = (st', Ok tt) -> P (pre ++ [raw]) st') ->
  forall st st', Inv req st -> P [] st -> scan req lines st = (st', Ok tt) ->
  P lines st'.
Proof.
  intros Hstep.
  assert (Hgen : forall rest done st st', lines = done ++ rest -> Inv req st ->
            P done st -> scan req rest st = (st', Ok tt) -> P lines st').
  { unfold scan; induction rest as [|raw rest IH]; intros done st st' Hl HI HP Hrun;
      simpl in Hrun.
    - injection Hrun as <-; rewrite Hl, app_nil_r; exact HP.
    - unfold bind in Hrun.
      destruct (process_line req raw st) as [st1 [[]|e]] eqn:E; [|discriminate].
      apply (IH (done ++ [raw]) st1 st').
      + rewrite Hl, <- app_assoc; reflexivity.
      + eapply Inv_process_line; eauto.
      + eapply Hstep; eauto.
      + exact Hrun. }
  intros st st' HI HP Hrun; eapply (Hgen lines []); eauto.
Qed.

Lemma scan_app_ok req l1 l2 st st' :
  scan req (l1 ++ l2) st = (st', Ok tt) ->
  exists st1, scan req l1 st = (st1, Ok tt) /\ scan req l2 st1 = (st', Ok tt).
Proof.
  unfold scan; rewrite forM_app; unfold bind.
  destruct (forM_ l1 (process_line req) st) as [st1 [[]|e]]; [eauto|discriminate].
Qed.

Lemma last_marker_In pre g :
  last_marker pre = Some g ->
  exists l, In l pre /\ match_timestep (strip l) = Some g.
Proof.
  induction pre as [|l pre IH]; simpl; [discriminate|].
  destruct (last_marker pre) as [g'|].
  - intros E; injection E as ->; destruct (IH eq_refl) as (l' & ? & ?); eauto.
  - intros E; eauto.
Qed.

Lemma digits_to_Z_nonneg (l : list ascii) (acc : Z) :
  (0 <= acc)%Z -> (0 <= fold_left (fun acc c => acc * 10 + digit_val c)%Z l acc)%Z.
Proof.
  revert acc; induction l as [|c l IH]; intros acc H; simpl; [exact H|].
  apply IH; unfold digit_val; lia.
Qed.

Lemma py_int_nonneg s : (0 <= py_int s)%Z.
Proof. apply digits_to_Z_nonneg; lia. Qed.

(** ** Reading a text that grows *)

Lemma list_ascii_of_string_app (s1 s2 : string) :
  list_ascii_of_string (s1 ++ s2) = list_ascii_of_string s1 ++ list_ascii_of_string s2.
Proof. induction s1 as [|c s1 IH]; simpl; [reflexivity|now rewrite IH]. Qed.

Lemma lines_go_split_LF (l2 : list ascii) : forall n l1 cur, length l1 <= n ->
  lines_go (l1 ++ LF :: l2) cur = lines_go (l1 ++ [LF]) cur ++ lines_go l2 [].
Proof.
  induction n as [|n IH]; intros l1 cur Hn.
  - destruct l1; [simpl|simpl in Hn; lia].
    try rewrite (Ascii.eqb_refl LF); reflexivity.
  - destruct l1 as [|c l1]; [simpl; try rewrite (Ascii.eqb_refl LF); reflexivity|].
    simpl in Hn; cbn [app lines_go].
    destruct (Ascii.eqb c LF) eqn:E1.
    { rewrite IH by lia; reflexivity. }
    destruct (Ascii.eqb c CR) eqn:E2.
    + destruct l1 as [|d l1]; cbn [app].
      * try rewrite (Ascii.eqb_refl LF); reflexivity.
      * destruct (Ascii.eqb d LF) eqn:E3.
        -- rewrite IH by (simpl in Hn; lia); reflexivity.
        -- change (d :: l1 ++ LF :: l2) with ((d :: l1) ++ LF :: l2).
           change (d :: l1 ++ [LF]) with ((d :: l1) ++ [LF]).
           rewrite IH by (simpl in *; lia); reflexivity.
    + rewrite IH by lia; reflexivity.
Qed.

Lemma read_lines_app_nl (t1 t2 : string) :
  read_lines (t1 ++ nl ++ t2) = read_lines (t1 ++ nl) ++ read_lines t2.
Proof.
  unfold read_lines; rewrite !list_ascii_of_string_app; simpl.
  rewrite (lines_go_split_LF _ (length (list_ascii_of_string t1))) by lia.
  now rewrite map_app.
Qed.


Lemma init_residuals_empty req k v :
  dict_get k (residuals_data (init_state req)) = Some v -> v = [].
Proof.
  unfold init_state; cbn [residuals_data].
  generalize expected_residual_cols; intros l; induction l as [|x l IH];
    simpl; [discriminate|].
  destruct (String.eqb k x); [congruence|auto].
Qed.

(** ** Output lists of a completed parse *)

(** X1: [int(values_str[0])] is taken only when [values_str[0].isdigit()]:
    every iteration number returned is non-negative. *)
Theorem parse_iterations_nonneg (f : log_file) (req : list string) :
  let '(its, _, _, _, _) := parse_starccm_logfile f req in
  Forall (fun n => (0 <= n)%Z) its.
Proof.
  destruct f as [| |text]; simpl; try constructor.
  destruct (scan req (read_lines text) (init_state req)) as [st [[]|e]] eqn:Hs;
    [|constructor].
  simpl.
  apply (scan_preserves req (fun _ st => Forall (fun n => (0 <= n)%Z) (iterations st))
           (read_lines text)) with (st := init_state req);
    [|apply Inv_init|constructor|exact Hs].
  intros pre raw post s s' _ HI HP Hrun.
  destruct (process_line_step _ _ _ _ _ HI Hrun)
    as [(E & _)|(v0 & rest & _ & _ & _ & _ & E & _)]; rewrite E; [exact HP|].
  apply Forall_app; split; [exact HP|constructor; [apply py_int_nonneg|constructor]].
Qed.

(** X2: Each report sample records the iteration number of the row it was
    taken from, in order: [reportIterations] is a subsequence of
    [iterations]. *)
Theorem parse_report_iterations_subseq (f : log_file) (req : list string) :
  let '(its, _, rits, _, _) := parse_starccm_logfile f req in subseq rits its.
Proof.
  destruct f as [| |text]; simpl; try constructor.
  destruct (scan req (read_lines text) (init_state req)) as [st [[]|e]] eqn:Hs;
    [|constructor].
  simpl.
  apply (scan_preserves req (fun _ st => subseq (report_iterations st) (iterations st))
           (read_lines text)) with (st := init_state req);
    [|apply Inv_init|constructor|exact Hs].
  intros pre raw post s s' _ HI HP Hrun.
  destruct (process_line_step _ _ _ _ _ HI Hrun)
    as [(E1 & E2 & _)|(v0 & rest & _ & _ & _ & _ & E & Hr)];
    [rewrite E1, E2; exact HP|].
  rewrite E; destruct Hr as [(_ & E2 & _)|(_ & _ & E2 & _)]; rewrite E2;
    constructor; exact HP.
Qed.

(** X3: Every report time is the value of some [TimeStep] marker line of the
    log: the initial [current_time = 0.0] is never recorded. *)
Theorem parse_report_times_from_markers (text : string) (req : list string) :
  let '(_, _, _, rts, _) := parse_starccm_logfile (Contents text) req in
  forall t, In t rts -> exists l g, In l (read_lines text) /\
    match_timestep (strip l) = Some g /\ py_float g = Some t.
Proof.
  simpl.
  destruct (scan req (read_lines text) (init_state req)) as [st [[]|e]] eqn:Hs;
    [|simpl; contradiction].
  simpl.
  assert (H : marker_inv (read_lines text) st /\
              forall t, In t (report_times st) -> exists l g, In l (read_lines text) /\
                match_timestep (strip l) = Some g /\ py_float g = Some t).
  { apply (scan_preserves req (fun pre st => marker_inv pre st /\
              forall t, In t (report_times st) -> exists l g, In l pre /\
                match_timestep (strip l) = Some g /\ py_float g = Some t)
             (read_lines text)) with (st := init_state req);
      [|apply Inv_init|split; [split; discriminate|simpl; contradiction]|exact Hs].
    intros pre raw post s s' _ HI [Hm HP] Hrun.
    split; [eapply marker_inv_step; eauto|].
    assert (Hw : forall t, In t (report_times s) -> exists l g, In l (pre ++ [raw]) /\
                   match_timestep (strip l) = Some g /\ py_float g = Some t).
    { intros t Ht; destruct (HP t Ht) as (l & g & Hl & Hg); exists l, g.
      split; [apply in_or_app; auto|exact Hg]. }
    destruct (process_line_step _ _ _ _ _ HI Hrun)
      as [(_ & _ & E & _)|(v0 & rest & _ & _ & _ & Hd & _ & Hr)];
      [rewrite E; exact Hw|].
    destruct Hr as [(E & _)|(_ & E & _)]; rewrite E; [exact Hw|].
    intros t Ht; apply in_app_or in Ht; destruct Ht as [Ht|[<-|[]]]; [auto|].
    destruct Hm as [Hm1 Hm2]; destruct (Hm1 Hd) as [g Hg].
    destruct (last_marker_In _ _ Hg) as (l & Hl & Hlg).
    exists l, g; split; [apply in_or_app; auto|split; [exact Hlg|apply Hm2; exact Hg]]. }
  apply H.
Qed.

(** X4: Data rows are read only once a header line has been seen: a log
    without a header line yields no iterations, no report sample, and
    only empty value sequences. *)
Theorem parse_no_header_no_rows (text : string) (req : list string) :
  forallb (fun l => negb (is_header_line req (strip l))) (read_lines text) = true ->
  let '(its, res, rits, rts, reps) := parse_starccm_logfile (Contents text) req in
  its = [] /\ rits = [] /\ rts = [] /\
  (forall k v, dict_get k res = Some v -> v = []) /\
  (forall k v, dict_get k reps = Some v -> v = []).
Proof.
  intros Hno; simpl.
  destruct (scan req (read_lines text) (init_state req)) as [st [[]|e]] eqn:Hs;
    [|simpl; repeat split; discriminate].
  assert (H : header_line_found st = false /\ iterations st = [] /\
              report_iterations st = [] /\ report_times st = [] /\
              residuals_data st = residuals_data (init_state req) /\
              reports_data st = reports_data (init_state req)).
  { apply (scan_preserves req (fun _ st => header_line_found st = false /\
              iterations st = [] /\ report_iterations st = [] /\ report_times st = [] /\
              residuals_data st = residuals_data (init_state req) /\
              reports_data st = reports_data (init_state req))
             (read_lines text)) with (st := init_state req);
      [|apply Inv_init|repeat split|exact Hs].
    intros pre raw post s s' Hl _ HP Hrun.
    assert (Hh : is_header_line req (strip raw) = false).
    { rewrite forallb_forall in Hno.
      assert (Hin : In raw (read_lines text)) by (rewrite Hl; apply in_or_app; right; left; auto).
      specialize (Hno raw Hin); destruct (is_header_line req (strip raw)); auto. }
    destruct (process_line_cases _ _ _ _ _ Hrun)
      as [(E & _)|[(g & t & _ & _ & _ & E)|[(g & _ & _ & _ & Habs)|[(_ & Hh' & _)|(_ & _ & Hf & _)]]]].
    - rewrite E; exact HP.
    - rewrite E; exact HP.
    - discriminate.
    - congruence.
    - destruct HP as [Hf' _]; congruence. }
  destruct H as (_ & Hi & Hri & Hrt & Hres & Hrep).
  unfold finalize; rewrite Hi, Hri, Hrt, Hres, Hrep.
  repeat split; [apply init_residuals_empty|].
  intros k v; apply fold_set_empty_values; discriminate.
Qed.

(** X5: The gating field is [colunas[0]], skipped when it is the empty
    string: with no requested field, or an empty first one, no report
    sample is ever taken and every report sequence stays empty. *)
Theorem parse_no_gating_field_no_samples (f : log_file) (req : list string) :
  match req with [] => True | r :: _ => r = EmptyString end ->
  let '(_, _, rits, rts, reps) := parse_starccm_logfile f req in
  rits = [] /\ rts = [] /\ (forall k v, dict_get k reps = Some v -> v = []).
Proof.
  intros Hreq; destruct f as [| |text]; simpl; [repeat split; discriminate..|].
  destruct (scan req (read_lines text) (init_state req)) as [st [[]|e]] eqn:Hs;
    [|simpl; repeat split; discriminate].
  assert (H : report_iterations st = [] /\ report_times st = [] /\
              reports_data st = reports_data (init_state req)).
  { apply (scan_preserves req (fun _ st => report_iterations st = [] /\
              report_times st = [] /\ reports_data st = reports_data (init_state req))
             (read_lines text)) with (st := init_state req);
      [|apply Inv_init|repeat split|exact Hs].
    intros pre raw post s s' _ HI HP Hrun.
    destruct (process_line_step _ _ _ _ _ HI Hrun)
      as [(_ & E1 & E2 & E3)|(v0 & rest & _ & _ & _ & _ & _ & Hr)];
      [rewrite E1, E2, E3; exact HP|].
    destruct Hr as [(E1 & E2 & E3)|((r & j & Hr & Hj) & _)];
      [rewrite E1, E2, E3; exact HP|].
    exfalso; destruct req as [|r' req']; [discriminate|].
    injection Hr as <-; subst r'.
    apply dict_get_In, (inv_rep_map _ _ HI) in Hj; tauto. }
  destruct H as (Hri & Hrt & Hrep); unfold finalize; simpl.
  rewrite Hri, Hrt, Hrep; repeat split.
  intros k v; apply fold_set_empty_values; discriminate.
Qed.

(** X6: The monitor re-reads a log that grows: when a log cut at a line end
    is extended and the longer log parses without an escaping exception,
    the iterations, report iterations and report times of the shorter
    log are prefixes of those of the longer one. *)
Theorem parse_growing_log (t1 t2 : string) (req : list string) :
  snd (scan req (read_lines (t1 ++ nl ++ t2)) (init_state req)) = Ok tt ->
  let '(its1, _, rits1, rts1, _) := parse_starccm_logfile (Contents (t1 ++ nl)) req in
  let '(its, _, rits, rts, _) := parse_starccm_logfile (Contents (t1 ++ nl ++ t2)) req in
  (exists s, its = its1 ++ s) /\ (exists s, rits = rits1 ++ s) /\
  (exists s, rts = rts1 ++ s).
Proof.
  intros Hok; unfold parse_starccm_logfile.
  destruct (scan req (read_lines (t1 ++ nl ++ t2)) (init_state req)) as [st o] eqn:Hs.
  simpl in Hok; subst o.
  rewrite read_lines_app_nl in Hs.
  destruct (scan_app_ok _ _ _ _ _ Hs) as (st1 & H1 & H2).
  rewrite H1; unfold finalize; simpl.
  apply (scan_preserves req (fun _ s => (exists x, iterations s = iterations st1 ++ x) /\
           (exists x, report_iterations s = report_iterations st1 ++ x) /\
           (exists x, report_times s = report_times st1 ++ x))
           (read_lines t2)) with (st := st1);
    [|eapply Inv_scan_init; eauto|repeat split; exists []; now rewrite app_nil_r|exact H2].
  intros pre raw post s s' _ HI (Hi & Hri & Hrt) Hrun.
  destruct Hi as [x1 Hx1]; destruct Hri as [x2 Hx2]; destruct Hrt as [x3 Hx3].
  destruct (process_line_step _ _ _ _ _ HI Hrun)
    as [(E1 & E2 & E3 & _)|(v0 & rest & _ & _ & _ & _ & E1 & Hr)].
  - rewrite E1, E2, E3; split; [eauto|split; eauto].
  - rewrite E1, Hx1; split; [exists (x1 ++ [py_int v0]); now rewrite app_assoc|].
    destruct Hr as [(E3 & E2 & _)|(_ & E3 & E2 & _)]; rewrite E2, E3, ?Hx2, ?Hx3;
      [split; eauto|].
    split; [exists (x2 ++ [py_int v0])|exists (x3 ++ [current_time s])];
      now rewrite app_assoc.
Qed.

(** [parse_no_header_no_rows] on [unlisted_report_log] with the report
    field Lift, which its header line does not list: the rows that follow
    are never read. *)
Lemma parse_no_header_no_rows_witness :
  forallb (fun l => negb (is_header_line ["Lift"%string] (strip l)))
    (read_lines unlisted_report_log) = true /\
  let '(its, res, rits, rts, reps) :=
    parse_starccm_logfile (Contents unlisted_report_log) ["Lift"%string] in
  its = [] /\ rits = [] /\ rts = [] /\
  (forall k v, dict_get k res = Some v -> v = []) /\
  (forall k v, dict_get k reps = Some v -> v = []).
Proof.
  split; [vm_compute; reflexivity|].
  apply (parse_no_header_no_rows unlisted_report_log ["Lift"%string]).
  vm_compute; reflexivity.
Defined.

(** [parse_no_gating_field_no_samples] with an empty first report field. *)
Lemma parse_no_gating_field_no_samples_witness :
  (match [""; "Drag"]%string with [] => True | r :: _ => r = EmptyString end) /\
  let '(_, _, rits, rts, reps) :=
    parse_starccm_logfile (Contents unlisted_report_log) [""; "Drag"]%string in
  rits = [] /\ rts = [] /\ (forall k v, dict_get k reps = Some v -> v = []).
Proof.
  split; [reflexivity|].
  apply (parse_no_gating_field_no_samples (Contents unlisted_report_log) [""; "Drag"]%string).
  reflexivity.
Defined.

(** [parse_growing_log] on a log that gains a second residual row. *)
Lemma parse_growing_log_witness :
  let t1 := ("TimeStep 1: Time 0.5" ++ nl ++ "Iteration  Continuity  Drag" ++ nl ++
             "1  1.0e-3  2.5")%string in
  let t2 := "2  2.0e-3  3.5"%string in
  snd (scan ["Drag"%string] (read_lines (t1 ++ nl ++ t2)) (init_state ["Drag"%string]))
    = Ok tt /\
  let '(its1, _, rits1, rts1, _) :=
    parse_starccm_logfile (Contents (t1 ++ nl)) ["Drag"%string] in
  let '(its, _, rits, rts, _) :=
    parse_starccm_logfile (Contents (t1 ++ nl ++ t2)) ["Drag"%string] in
  (exists s, its = its1 ++ s) /\ (exists s, rits = rits1 ++ s) /\
  (exists s, rts = rts1 ++ s).
Proof.
  intros t1 t2; split; [vm_compute; reflexivity|].
  apply (parse_growing_log t1 t2 ["Drag"%string]).
  vm_compute; reflexivity.
Defined.

(** * Lemmas on the code around the parser *)

(** ** [posixpath] *)

Lemma str_length_app (s1 s2 : string) :
  String.length (s1 ++ s2) = String.length s1 + String.length s2.
Proof. induction s1; simpl; auto. Qed.

Lemma substring_0_length (s : string) : substring 0 (String.length s) s = s.
Proof. induction s; simpl; f_equal; auto. Qed.

Lemma substring_app_r (p s : string) (m : nat) :
  substring (String.length p) m (p ++ s) = substring 0 m s.
Proof. induction p; simpl; auto. Qed.

Lemma ends_with_app (p suffix : string) : ends_with (p ++ suffix) suffix = true.
Proof.
  unfold ends_with; rewrite str_length_app.
  replace (String.length p + String.length suffix - String.length suffix)
    with (String.length p) by lia.
  rewrite substring_app_r, substring_0_length, String.eqb_refl.
  apply andb_true_intro; split; [apply Nat.leb_le; lia|reflexivity].
Qed.

Lemma string_of_list_ascii_app (l1 l2 : list ascii) :
  string_of_list_ascii (l1 ++ l2) = (string_of_list_ascii l1 ++ string_of_list_ascii l2)%string.
Proof. induction l1; simpl; f_equal; auto. Qed.

Lemma drop_while_all (f : ascii -> bool) (l1 l2 : list ascii) :
  forallb f l1 = true -> drop_while f (l1 ++ l2) = drop_while f l2.
Proof.
  induction l1 as [|c l1 IH]; simpl; auto.
  intros H; apply andb_prop in H as [H1 H2]; rewrite H1; auto.
Qed.

Lemma forallb_rev {A} (f : A -> bool) (l : list A) : forallb f (rev l) = forallb f l.
Proof.
  induction l; simpl; auto.
  rewrite forallb_app, IHl; simpl; rewrite andb_true_r, andb_comm; auto.
Qed.

Lemma prefix_slash_no_slash (f : string) :
  f <> EmptyString -> forallb (fun c => negb (is_slash c)) (list_ascii_of_string f) = true ->
  String.prefix "/" f = false.
Proof.
  destruct f as [|a f]; [congruence|]; intros _ H; simpl in H.
  apply andb_prop in H as [H _]; unfold is_slash in H.
  change (String.prefix "/" (String a f))
    with (if ascii_dec "/" a then String.prefix "" f else false).
  destruct (ascii_dec "/" a) as [<-|]; [discriminate|reflexivity].
Qed.

Lemma posix_dirname_join_no_slash (d f : string) :
  ends_with d "/" = false -> f <> EmptyString ->
  forallb (fun c => negb (is_slash c)) (list_ascii_of_string f) = true ->
  posix_dirname (posix_join d [f]) = d.
Proof.
  intros Hd Hf Hns; unfold posix_join; simpl; unfold join_step.
  rewrite (prefix_slash_no_slash f Hf Hns), Hd, orb_false_r.
  destruct (String.eqb d EmptyString) eqn:Ed.
  - apply String.eqb_eq in Ed; subst d; simpl.
    unfold posix_dirname.
    rewrite <- (app_nil_r (rev (list_ascii_of_string f))), drop_while_all;
      [reflexivity|now rewrite forallb_rev].
  - apply String.eqb_neq in Ed.
    destruct (exists_last (l := list_ascii_of_string d)) as (l' & c & Hl).
    { intros H; apply Ed; rewrite <- (string_of_list_ascii_of_string d), H; reflexivity. }
    assert (Hc : is_slash c = false).
    { destruct (is_slash c) eqn:Ec; auto.
      unfold is_slash in Ec; apply Ascii.eqb_eq in Ec; subst c.
      rewrite <- Hd, <- (string_of_list_ascii_of_string d), Hl,
        string_of_list_ascii_app; symmetry; apply ends_with_app. }
    unfold posix_dirname.
    rewrite !list_ascii_of_string_app, Hl; simpl.
    rewrite rev_app_distr; simpl.
    rewrite <- app_assoc, drop_while_all by (now rewrite forallb_rev).
    simpl; rewrite rev_involutive.
    destruct ((l' ++ [c]) ++ ["/"%char]) as [|a l0] eqn:E;
      [destruct l'; discriminate|].
    rewrite <- E, !forallb_app; simpl; rewrite Hc; simpl.
    rewrite andb_false_r, !rev_app_distr; simpl; rewrite Hc; simpl.
    rewrite rev_involutive, <- Hl, string_of_list_ascii_of_string; reflexivity.
Qed.

(** ** [find_latest_image_in_remote_folder] *)

Lemma max_by_mtime_none best l :
  max_by_mtime best l = None <->
  l <> [] /\ (snd best = None \/ exists y, In y l /\ snd y = None).
Proof.
  revert best; induction l as [|x l IH]; intros best; simpl.
  - split; [discriminate|tauto].
  - destruct (snd x) as [v|] eqn:Ex; destruct (snd best) as [m|] eqn:Eb.
    + assert (Hg : forall b, snd b = Some v \/ snd b = Some m ->
                max_by_mtime b l = None <-> exists y, In y l /\ snd y = None).
      { intros b Hb; rewrite IH; split.
        - intros [_ [H|H]]; [destruct Hb; congruence|exact H].
        - intros [y [Hy Hn]]; split; [destruct l; [destruct Hy|discriminate]|eauto]. }
      destruct (m <? v)%Z; rewrite Hg by auto; split.
      * intros (y & Hy & Hn); split; [discriminate|right; eauto].
      * intros [_ [H|(y & [<-|Hy] & Hn)]]; [discriminate|congruence|eauto].
      * intros (y & Hy & Hn); split; [discriminate|right; eauto].
      * intros [_ [H|(y & [<-|Hy] & Hn)]]; [discriminate|congruence|eauto].
    + split; [intros _; split; [discriminate|auto]|reflexivity].
    + split; [intros _; split; [discriminate|right; exists x; auto]|reflexivity].
    + split; [intros _; split; [discriminate|auto]|reflexivity].
Qed.

Lemma max_by_mtime_some best mb l r :
  snd best = Some mb -> max_by_mtime best l = Some r ->
  exists m, snd r = Some m /\ (mb <= m)%Z /\
    ((r = best /\ Forall (fun y => exists v, snd y = Some v /\ (v <= m)%Z) l) \/
     ((mb < m)%Z /\ exists pre post, l = pre ++ r :: post /\
        Forall (fun y => exists v, snd y = Some v /\ (v < m)%Z) pre /\
        Forall (fun y => exists v, snd y = Some v /\ (v <= m)%Z) post)).
Proof.
  revert best mb; induction l as [|x l IH]; intros best mb Hb Hr; simpl in Hr.
  - injection Hr as <-; exists mb; split; [auto|split; [lia|left; auto]].
  - rewrite Hb in Hr; destruct (snd x) as [v|] eqn:Ex; [|discriminate].
    destruct (mb <? v)%Z eqn:Elt.
    + apply Z.ltb_lt in Elt.
      destruct (IH x v Ex Hr) as (m & Hm & Hvm & [[-> Hl]|(Hvm' & pre & post & -> & Hpre & Hpost)]).
      * exists m; split; [auto|split; [lia|right; split; [lia|]]].
        exists [], l; auto.
      * exists m; split; [auto|split; [lia|right; split; [lia|]]].
        exists (x :: pre), post; split; auto; split; auto.
        constructor; auto; exists v; split; auto.
    + apply Z.ltb_ge in Elt.
      destruct (IH best mb Hb Hr) as (m & Hm & Hbm & [[-> Hl]|(Hbm' & pre & post & -> & Hpre & Hpost)]);
        exists m; (split; [auto|split; [auto|]]).
      * left; split; auto; constructor; auto; exists v; split; auto; lia.
      * right; split; auto; exists (x :: pre), post; split; auto; split; auto.
        constructor; auto; exists v; split; auto; lia.
Qed.

(** ... *)
Lemma find_latest_image_spec (listing : option (list sftp_attr))
    (remote_folder_path p : string) :
  find_latest_image_in_remote_folder listing remote_folder_path = Some p ->
  exists folder_contents pre attr post,
    listing = Some folder_contents /\
    filter (fun attr => is_image_file (filename attr)) folder_contents = pre ++ attr :: post /\
    p = posix_join remote_folder_path [filename attr] /\
    ((pre = [] /\ post = []) \/
     exists m, st_mtime attr = Some m /\
       Forall (fun b => exists mb, st_mtime b = Some mb /\ (mb < m)%Z) pre /\
       Forall (fun b => exists mb, st_mtime b = Some mb /\ (mb <= m)%Z) post).
Proof.
  destruct listing as [contents|]; simpl; [|discriminate].
  unfold image_files_attrs.
  destruct (filter (fun attr => is_image_file (filename attr)) contents) as [|x rest] eqn:Ef;
    cbn -[posix_join is_image_file]; [discriminate|].
  set (g := fun attr => (posix_join remote_folder_path [filename attr], st_mtime attr)).
  change (posix_join remote_folder_path [filename x], st_mtime x) with (g x).
  destruct (max_by_mtime (g x) (map g rest)) as [r|] eqn:E; cbn -[posix_join is_image_file];
    [|discriminate].
  intros Hp; injection Hp as <-.
  destruct rest as [|y rest'].
  - simpl in E; injection E as <-.
    exists contents, [], x, []; repeat split; auto.
  - destruct (st_mtime x) as [mx|] eqn:Ex.
    2: { unfold g in E; simpl in E; rewrite Ex in E; destruct (st_mtime y); discriminate. }
    destruct (max_by_mtime_some (g x) mx (map g (y :: rest')) r) as
        (m & Hm & _ & [[-> Hl]|(Hlt & pre & post & Hl & Hpre & Hpost)]);
      [unfold g; simpl; auto|auto|..].
    + exists contents, [], x, (y :: rest'); repeat split; auto.
      right; exists m; split; [unfold g in Hm; simpl in Hm; auto|split; [constructor|]].
      apply (Forall_map g) in Hl; exact Hl.
    + apply map_eq_app in Hl as (l1 & l2 & Hy & <- & Hl2).
      apply map_eq_cons in Hl2 as (a & l3 & -> & <- & <-).
      exists contents, (x :: l1), a, l3; repeat split.
      * rewrite Ef, Hy; reflexivity.
      * right; exists m; split; [unfold g in Hm; simpl in Hm; auto|split].
        -- constructor; [exists mx; split; auto|].
           apply (Forall_map g) in Hpre; exact Hpre.
        -- apply (Forall_map g) in Hpost; exact Hpost.
Qed.

(** ** [plot_data] *)







Lemma residual_lines_events iterations d ev :
  In ev (fst (residual_lines iterations d)) -> exists k, ev = ResidualLine k.
Proof.
  induction d as [|[k values] d IH]; simpl; [tauto|].
  destruct (has_number values); [|exact IH].
  destruct (length iterations =? length values)%nat; [|simpl; tauto].
  destruct (residual_lines iterations d) as [evs e]; simpl in *.
  intros [<-|H]; eauto.
Qed.

Lemma report_lines_events report_times reports_data keys_ ev :
  In ev (fst (fst (report_lines report_times reports_data keys_))) ->
  exists key values, ev = ReportLine key /\ In key keys_ /\
    dict_get key reports_data = Some values /\ has_number values = true /\
    length values = length report_times.
Proof.
  induction keys_ as [|key ks IH]; simpl; [tauto|].
  destruct (dict_get key reports_data) as [values|] eqn:Ed;
    [|intros H; destruct (IH H) as (k & v & ? & ? & ?); exists k, v; auto].
  destruct (has_number values) eqn:Eh;
    [|intros H; destruct (IH H) as (k & v & ? & ? & ?); exists k, v; auto].
  destruct (length report_times =? length values)%nat eqn:El; [|simpl; tauto].
  destruct (report_lines report_times reports_data ks) as [[evs h] e]; simpl in *.
  intros [<-|H].
  - exists key, values; repeat split; auto; symmetry; apply Nat.eqb_eq; auto.
  - destruct (IH H) as (k & v & ? & ? & ?); exists k, v; auto.
Qed.

Lemma text_reports_events reports_data ev :
  In ev (text_reports reports_data) ->
  exists key values, ev = LastValueText key (last values PNaN) /\
    In key reports_to_display_as_text /\
    dict_get key reports_data = Some values /\ values <> [].
Proof.
  unfold text_reports; rewrite in_flat_map; intros (key & Hk & H).
  destruct (dict_get key reports_data) as [[|v vs]|] eqn:Ed; simpl in H; try tauto.
  destruct H as [<-|[]]; exists key, (v :: vs); repeat split; auto; discriminate.
Qed.

Lemma image_panel_shown sftp_client_obj base_remote_dir name p :
  image_panel sftp_client_obj base_remote_dir name = ImageShown name p ->
  exists fs, sftp_client_obj = Some fs /\ base_remote_dir <> EmptyString /\
    find_latest_image_in_remote_folder
      (listdir_attr fs (posix_join base_remote_dir [name]))
      (posix_join base_remote_dir [name]) = Some p /\
    image_loads fs p = true.
Proof.
  unfold image_panel; destruct sftp_client_obj as [fs|]; [|discriminate].
  destruct (String.eqb base_remote_dir EmptyString) eqn:Eb; [discriminate|].
  destruct (find_latest_image_in_remote_folder _ _) as [q|] eqn:Ef; [|discriminate].
  destruct (String.eqb q EmptyString); [discriminate|].
  destruct (image_loads fs q) eqn:El; [|discriminate].
  intros H; injection H as <-; exists fs; repeat split; auto.
  apply String.eqb_neq; auto.
Qed.

Lemma image_panel_kind sftp_client_obj base_remote_dir name ev :
  ev = image_panel sftp_client_obj base_remote_dir name ->
  (exists p, ev = ImageShown name p) \/ ev = ImageLoadError name \/
  ev = ImageUnavailable name \/ ev = SftpInactive name.
Proof.
  unfold image_panel; intros ->; destruct sftp_client_obj as [fs|]; [|tauto].
  destruct (String.eqb base_remote_dir EmptyString); [tauto|].
  destruct (find_latest_image_in_remote_folder _ _) as [q|]; [|tauto].
  destruct (String.eqb q EmptyString); [tauto|].
  destruct (image_loads fs q); [eauto|tauto].
Qed.

(** The events of a trace of [plot_data] come from its parts. *)
Lemma plot_data_events its res rits rts reps cols sftp_client_obj base_remote_dir
    output_filename show_plot_interactively save_ok dirs ev :
  In ev (snd (fst (plot_data its res rits rts reps cols sftp_client_obj base_remote_dir
                    output_filename show_plot_interactively save_ok dirs))) ->
  ev = NoDataMsg \/ In ev (fst (residual_lines its res)) \/
  (exists l r, ev = ResidualXLim l r) \/
  In ev (fst (fst (report_lines rts reps
          (filter (fun r => negb (existsb (String.eqb r) reports_to_display_as_text)) cols)))) \/
  ev = ReportAxes \/ ev = NoReportText \/ In ev (text_reports reps) \/
  In ev (map (image_panel sftp_client_obj base_remote_dir) image_subfolders) \/
  (exists f, ev = Saved f) \/ ev = SaveFailed \/ ev = Shown \/ ev = Closed.
Proof.
  unfold plot_data.
  destruct (String.eqb _ EmptyString); [simpl; tauto|].
  destruct (residual_lines its res) as [ev_res e_res] eqn:Eres.
  destruct (report_lines rts reps _) as [[ev_rep h] e_rep] eqn:Erep.
  destruct output_filename as [f|]; try destruct (String.eqb f EmptyString);
  destruct e_res, e_rep, save_ok, show_plot_interactively, h,
    its as [|i its'], rts as [|t rts'];
  simpl; rewrite ?in_app_iff; intros H;
  repeat match goal with H : _ \/ _ |- _ => destruct H as [H|H]
                       | H : In _ (_ ++ _) |- _ => apply in_app_iff in H
                       | H : In _ (_ :: _) |- _ => simpl in H end;
  try tauto;
  subst; eauto 20.
Qed.

Lemma plot_data_nodata its res rits rts reps cols sftp_client_obj base_remote_dir
    output_filename show_plot_interactively save_ok dirs :
  In NoDataMsg (snd (fst (plot_data its res rits rts reps cols sftp_client_obj base_remote_dir
                    output_filename show_plot_interactively save_ok dirs))) ->
  its = [] /\ rts = [].
Proof.
  unfold plot_data.
  destruct (String.eqb _ EmptyString); [simpl; tauto|].
  pose proof (residual_lines_events its res NoDataMsg) as R1;
  pose proof (report_lines_events rts reps
    (filter (fun r => negb (existsb (String.eqb r) reports_to_display_as_text)) cols)
    NoDataMsg) as R2;
  pose proof (text_reports_events reps NoDataMsg) as R3.
  destruct (residual_lines its res) as [ev_res e_res] eqn:Eres;
  destruct (report_lines rts reps _) as [[ev_rep h] e_rep] eqn:Erep;
  simpl in R1, R2.
  destruct its as [|i its'], rts as [|t rts']; [simpl; auto| | |];
  destruct e_res, e_rep; simpl;
  repeat rewrite in_app_iff; intros H;
  repeat match goal with H : _ \/ _ |- _ => destruct H as [H|H]
                       | H : In _ (_ ++ _) |- _ => apply in_app_iff in H
                       | H : In _ (_ :: _) |- _ => simpl in H end;
  try tauto; try discriminate;
  try (destruct (R1 H) as [? ?]; discriminate);
  try (destruct (R2 H) as (? & ? & ? & _); discriminate);
  try (destruct (R3 H) as (? & ? & ? & _); discriminate);
  try (destruct h; simpl in H; destruct H as [H|[]]; discriminate);
  try (destruct H as [H|[]]; discriminate);
  try (destruct (image_panel_kind _ _ _ _ (eq_sym H)) as [[? ?]|[?|[?|?]]]; congruence);
  try (destruct output_filename as [f|];
       [destruct (String.eqb f EmptyString); [|destruct save_ok]|];
       simpl in H; try contradiction; destruct H as [H|[]]; discriminate);
  try (destruct show_plot_interactively; simpl in H; try contradiction;
       destruct H as [H|[]]; discriminate).
Qed.

Lemma split_cons {A} (pre post l : list A) (x y : A) :
  pre ++ x :: post = y :: l ->
  (pre = [] /\ x = y /\ post = l) \/ exists pre', pre = y :: pre' /\ pre' ++ x :: post = l.
Proof.
  destruct pre as [|z pre']; simpl; intros H; injection H as E1 E2; subst; eauto.
Qed.

Lemma follow_app {A} (Q : A -> option A -> Prop) (l1 l2 : list A) :
  (forall pre x post r, l1 = pre ++ x :: post -> Q x (hd_error (post ++ r))) ->
  (forall pre x post, l2 = pre ++ x :: post -> Q x (hd_error post)) ->
  forall pre x post, l1 ++ l2 = pre ++ x :: post -> Q x (hd_error post).
Proof.
  intros H1 H2 pre x post H.
  apply app_eq_app in H as (l & [[-> E] | [-> E]]).
  - destruct l as [|y l']; simpl in E.
    + apply (H2 []); auto.
    + injection E as E1 E2; subst. apply (H1 pre _ l' l2). reflexivity.
  - apply (H2 l x post E).
Qed.

Ltac round_cases :=
  unfold monitor_round;
  match goal with |- context [py_truthy ?p] => destruct (py_truthy p) eqn:Ept end;
  match goal with |- context [if ?u then KeyAuth _ else _] => destruct u end;
  cbn -[parse_starccm_logfile plot_data posix_dirname];
  (destruct (connect _ _) eqn:Ec;
   [ destruct (sftp_opens _) eqn:Es; cbn -[parse_starccm_logfile plot_data posix_dirname];
     [ destruct (String.eqb _ EmptyString || existsb _ _) eqn:Ed;
       cbn -[parse_starccm_logfile plot_data posix_dirname];
       [ destruct (remote_log _) as [text|] eqn:Er;
         cbn -[parse_starccm_logfile plot_data posix_dirname];
         [ destruct (parse_starccm_logfile (Contents text) _)
             as [[[[its res] rits] rts] reps] eqn:Ep;
           destruct its as [|i its];
           [ | match goal with |- context [plot_data (i :: its) ?a1 ?a2 ?a3 ?a4 ?a5 ?a6 ?a7 ?a8 ?a9 ?a10 ?a11] =>
                 destruct (plot_data (i :: its) a1 a2 a3 a4 a5 a6 a7 a8 a9 a10 a11)
                   as [[dirs' tr] [e|]] eqn:Epd end ] | ] | ] | ]
   | | | ]).

(** ** The rounds of [monitor_simulation] *)

Section Rounds.

Variables (base_remote_dir_images : string) (reports_to_plot : list string)
  (output_filename : string) (use_key_auth : bool) (ssh_key_path : string).

Lemma plot_error_not_auth e : plot_error e <> AuthError.
Proof. destruct e; discriminate. Qed.

Lemma monitor_round_shape password dirs env :
  let '(password', dirs', evs, go_on) :=
    monitor_round base_remote_dir_images reports_to_plot output_filename
      use_key_auth ssh_key_path password dirs env in
  let a := if use_key_auth then KeyAuth ssh_key_path else PasswordAuth password' in
  password' = (if use_key_auth || py_truthy password then password
               else JStr (prompt_answer env)) /\
  (go_on = false <-> connect env a = AuthFailure) /\
  exists ev_body,
    evs = (if use_key_auth || py_truthy password then [] else [Prompted]) ++
          Connecting a :: ev_body ++ [if go_on then Slept else Stopped] /\
    Forall (body_event go_on) ev_body.
Proof.
  round_cases;
  (split; [reflexivity|]); (split; [split; intros H; cbn in H; first [reflexivity | discriminate H | congruence]|]);
  cbn [negb];
  match goal with
  | |- exists b, Prompted :: Connecting _ :: ?l = _ /\ _ => exists (removelast l)
  | |- exists b, Connecting _ :: ?l = _ /\ _ => exists (removelast l)
  end;
  cbn -[plot_data]; (split; [reflexivity|]);
  repeat constructor; cbn; auto; try (destruct e; exact I).
Qed.



Lemma monitor_round_plotted password dirs env out d ptr :
  let '(_, dirs', evs, _) :=
    monitor_round base_remote_dir_images reports_to_plot output_filename
      use_key_auth ssh_key_path password dirs env in
  In (Plotted out d ptr) evs ->
  d = base_remote_dir_images /\ sftp_opens env = true /\
  (exists a, connect env a = Connected) /\
  exists text, remote_log env = Some text /\
    out = parse_starccm_logfile (Contents text) reports_to_plot /\
    let '(its, res, rits, rts, reps) := out in
    its <> [] /\
    exists e, plot_data its res rits rts reps reports_to_plot (Some (remote env))
                base_remote_dir_images (Some output_filename) false (env_save_ok env)
                dirs = (dirs', ptr, e).
Proof.
  round_cases; try destruct e; cbn -[parse_starccm_logfile plot_data]; intros H;
  repeat match goal with H : _ \/ _ |- _ => destruct H as [H|H] end;
  try discriminate H; try contradiction;
  injection H as <- <- <-;
  (split; [reflexivity|]); (split; [reflexivity|]); (split; [eauto|]);
  exists text; (split; [reflexivity|]); (split; [symmetry; exact Ep|]);
  (split; [discriminate|]); eauto.
Qed.

Lemma monitor_round_missing_dir password dirs env :
  posix_dirname output_filename <> EmptyString ->
  ~ In (posix_dirname output_filename) dirs ->
  let '(_, dirs', evs, _) :=
    monitor_round base_remote_dir_images reports_to_plot output_filename
      use_key_auth ssh_key_path password dirs env in
  dirs' = dirs /\ ~ In Downloaded evs /\ forall out d ptr, ~ In (Plotted out d ptr) evs.
Proof.
  intros Hne Hin.
  assert (Ht : (String.eqb (posix_dirname output_filename) EmptyString
                || existsb (String.eqb (posix_dirname output_filename)) dirs) = false).
  { apply orb_false_iff; split; [apply String.eqb_neq; exact Hne|].
    apply not_true_iff_false; rewrite existsb_exists.
    intros (x & Hx & Ex); apply String.eqb_eq in Ex; subst; contradiction. }
  round_cases; try congruence; cbn;
  (split; [reflexivity|]); (split; [intuition discriminate|]);
  intros out d ptr; intuition discriminate.
Qed.

Lemma monitor_round_no_dir_part password dirs env :
  output_filename <> EmptyString ->
  posix_dirname output_filename = EmptyString ->
  let '(_, dirs', evs, _) :=
    monitor_round base_remote_dir_images reports_to_plot output_filename
      use_key_auth ssh_key_path password dirs env in
  forall pre x post r, evs = pre ++ x :: post ->
  match x with
  | Plotted _ _ ptr => ptr = [] /\ hd_error (post ++ r) = Some (Failed NotFoundError)
  | _ => True
  end.
Proof.
  intros Hne Hdn.
  assert (Hpd : forall its res rits rts reps cols fs base save dirs,
    plot_data its res rits rts reps cols fs base (Some output_filename) false save dirs
    = (dirs, [], Some PyFileNotFoundError)).
  { intros; unfold plot_data.
    rewrite (proj2 (String.eqb_neq _ _) Hne), Hdn; reflexivity. }
  round_cases;
  try (rewrite Hpd in Epd; inversion Epd; subst);
  try discriminate;
  cbn; intros pre x post r H; symmetry in H;
  repeat (apply split_cons in H; destruct H as [(-> & -> & ->)|(? & -> & H)]);
  try (exfalso; eapply app_cons_not_nil; symmetry; exact H);
  cbn; auto.
Qed.

End Rounds.

(** ** The loop of [monitor_simulation] *)

Section Loop_lemmas.

Variables (base_remote_dir_images : string) (reports_to_plot : list string)
  (output_filename : string) (use_key_auth : bool) (ssh_key_path : string).

Lemma body_event_not_prompted go_on body :
  Forall (body_event go_on) body -> ~ In Prompted body /\ forall a, ~ In (Connecting a) body.
Proof.
  rewrite Forall_forall; intros H; split; [|intros a]; intros Hin;
  apply H in Hin; exact Hin.
Qed.

Lemma monitor_loop_no_prompt password dirs envs :
  use_key_auth = true \/ py_truthy password = true ->
  let tr := monitor_loop base_remote_dir_images reports_to_plot output_filename
              use_key_auth ssh_key_path password dirs envs in
  ~ In Prompted tr /\
  forall a, In (Connecting a) tr ->
    a = if use_key_auth then KeyAuth ssh_key_path else PasswordAuth password.
Proof.
  intros Hu; revert dirs; induction envs as [|env envs IH]; intros dirs;
    [cbn; tauto|].
  cbn [monitor_loop].
  pose proof (monitor_round_shape base_remote_dir_images reports_to_plot output_filename
                use_key_auth ssh_key_path password dirs env) as Hsh.
  destruct (monitor_round _ _ _ _ _ password dirs env) as [[[pw' dirs'] evs] go].
  assert (Ht : use_key_auth || py_truthy password = true)
    by (destruct Hu as [->| ->]; [reflexivity|apply orb_true_r]).
  rewrite Ht in Hsh; destruct Hsh as (-> & _ & body & -> & Hb).
  destruct (body_event_not_prompted _ _ Hb) as [Hbp Hbc].
  destruct (IH dirs') as [IHp IHc]; cbn zeta in *.
  cbn [app]; split.
  - intros H; destruct H as [H|H]; [discriminate|].
    apply in_app_iff in H as [H|H].
    + apply in_app_iff in H as [H|[H|[]]]; [contradiction|destruct go; discriminate].
    + destruct go; [contradiction|destruct H].
  - intros a H; destruct H as [H|H]; [injection H as ->; reflexivity|].
    apply in_app_iff in H as [H|H].
    + apply in_app_iff in H as [H|[H|[]]];
        [apply Hbc in H; contradiction|destruct go; discriminate].
    + destruct go; [apply IHc; exact H|destruct H].
Qed.

Lemma monitor_loop_no_dir_part_aux password dirs envs :
  output_filename <> EmptyString ->
  posix_dirname output_filename = EmptyString ->
  forall pre out d ptr post,
    monitor_loop base_remote_dir_images reports_to_plot output_filename
      use_key_auth ssh_key_path password dirs envs = pre ++ Plotted out d ptr :: post ->
    ptr = [] /\ hd_error post = Some (Failed NotFoundError).
Proof.
  intros Hne Hdn pre out d ptr post.
  change (ptr = [] /\ hd_error post = Some (Failed NotFoundError)) with
    ((fun x h => match x with
                 | Plotted _ _ ptr => ptr = [] /\ h = Some (Failed NotFoundError)
                 | _ => True end) (Plotted out d ptr) (hd_error post)).
  generalize (Plotted out d ptr) as x; revert pre post.
  revert password dirs; induction envs as [|env envs IH]; intros password dirs pre post x;
    cbn [monitor_loop].
  - intros H; exfalso; eapply app_cons_not_nil; exact H.
  - pose proof (monitor_round_no_dir_part base_remote_dir_images reports_to_plot
                  output_filename use_key_auth ssh_key_path password dirs env Hne Hdn) as Hr.
    destruct (monitor_round _ _ _ _ _ password dirs env) as [[[pw' dirs'] evs] go].
    intros E; revert pre x post E.
    apply (follow_app (fun x h => match x with
                                  | Plotted _ _ ptr => ptr = [] /\ h = Some (Failed NotFoundError)
                                  | _ => True end)).
    + intros pre' x' post' r E; apply (Hr pre' x' post' r E).
    + intros pre' x' post' E; destruct go; [exact (IH pw' dirs' pre' post' x' E)|].
      exfalso; eapply app_cons_not_nil; exact E.
Qed.

End Loop_lemmas.

(** ** The configuration step *)

Lemma forallb_false_filter {A} (f : A -> bool) (l : list A) :
  forallb f l = false <-> filter (fun x => negb (f x)) l <> [].
Proof.
  induction l as [|x l IH]; simpl; [split; [discriminate|tauto]|].
  destruct (f x); simpl; [exact IH|split; [discriminate|reflexivity]].
Qed.

Lemma main_config_launch_inv file case_name output_dir l :
  main_config file case_name output_dir = Launch l ->
  exists all_configs case_config b s lg,
    file = ConfigLoaded (JObj all_configs) /\
    get_or all_configs case_name JNull = JObj case_config /\ case_config <> [] /\
    forallb (fun key => has_key key case_config) required_keys = true /\
    get_or case_config "base_dir" JNull = JStr b /\
    get_or case_config "simulation_folder" JNull = JStr s /\
    get_or case_config "logfile" JNull = JStr lg /\
    l = mkLaunch (get_or case_config "user" JNull) (get_or case_config "password" JNull)
          (posix_join b [s; lg]) (get_or case_config "case_subfolder" JNull)
          (get_or case_config "reports" (JArr []))
          (posix_join output_dir [("status_" ++ s ++ "_" ++ case_name ++ ".png")%string])
          (negb (py_truthy (get_or case_config "password" JNull))).
Proof.
  destruct file as [| | |j]; try discriminate.
  destruct j as [| | | | | |all_configs]; try discriminate.
  unfold main_config.
  destruct (get_or all_configs case_name JNull) as [| | | | | |cc] eqn:Ec;
    cbn [py_truthy negb]; try discriminate;
    try match goal with |- context [if ?b then _ else _] => destruct b; discriminate end.
  destruct cc as [|kv cc]; [discriminate|].
  destruct (forallb _ required_keys) eqn:Ef; [|discriminate]; cbn [negb].
  destruct (get_or (kv :: cc) "base_dir" JNull) as [| | | |b| |] eqn:Eb; try discriminate;
  destruct (get_or (kv :: cc) "simulation_folder" JNull) as [| | | |s| |] eqn:Es;
    try discriminate;
  destruct (get_or (kv :: cc) "logfile" JNull) as [| | | |lg| |] eqn:El; try discriminate.
  intros H; injection H as <-.
  exists all_configs, (kv :: cc), b, s, lg; repeat split; auto; discriminate.
Qed.

(** * Properties of the code around the parser *)

(** X7: [posixpath.dirname] undoes [posixpath.join] with one file name:
    when [d] does not end in ["/"] and [f] is a non-empty name with no
    ["/"], [dirname(join(d, f)) == d]. *)
Theorem posix_dirname_join (d f : string) :
  ends_with d "/" = false -> f <> EmptyString ->
  forallb (fun c => negb (is_slash c)) (list_ascii_of_string f) = true ->
  posix_dirname (posix_join d [f]) = d.
Proof. exact (posix_dirname_join_no_slash d f). Qed.

(** X8: [find_latest_image_in_remote_folder] returns [None] exactly when
    [listdir_attr] raises, when the folder holds no file with an image
    extension (compared case-insensitively), or when it holds two images
    or more and one of them has no [st_mtime]: [max] then compares [None]
    and raises [TypeError], which the [except] turns into [None]. *)
Theorem find_latest_image_none (listing : option (list sftp_attr)) (remote_folder_path : string) :
  find_latest_image_in_remote_folder listing remote_folder_path = None <->
  match listing with
  | None => True
  | Some folder_contents =>
      let images := filter (fun attr => is_image_file (filename attr)) folder_contents in
      images = [] \/
      (2 <= length images /\ exists attr, In attr images /\ st_mtime attr = None)
  end.
Proof.
  destruct listing as [contents|]; simpl; [|tauto].
  unfold image_files_attrs.
  destruct (filter (fun attr => is_image_file (filename attr)) contents) as [|x rest];
    cbn -[posix_join is_image_file]; [tauto|].
  destruct (max_by_mtime _ (map _ rest)) as [r|] eqn:E; cbn -[posix_join is_image_file].
  - split; [discriminate|]; intros [H|(Hlen & a & Ha & Hn)]; [discriminate|].
    exfalso; assert (Hnone : max_by_mtime (posix_join remote_folder_path [filename x], st_mtime x)
        (map (fun attr => (posix_join remote_folder_path [filename attr], st_mtime attr)) rest) = None).
    { apply max_by_mtime_none; split.
      - destruct rest; simpl in *; [lia|discriminate].
      - destruct Ha as [<-|Ha]; [left; auto|right].
        exists (posix_join remote_folder_path [filename a], st_mtime a); split; auto.
        apply in_map_iff; eauto. }
    congruence.
  - split; [intros _|reflexivity].
    apply max_by_mtime_none in E as [Hne [Hn|(y & Hy & Hn)]]; right;
      (split; [destruct rest; simpl in *; [congruence|lia]|]).
    + exists x; auto.
    + apply in_map_iff in Hy as (a & <- & Ha); exists a; auto.
Qed.

(** X9: a path returned by [find_latest_image_in_remote_folder] is the
    folder joined with the name of an image entry of the listing; the
    images before it have a smaller [st_mtime] and those after it one no
    greater: [max] keeps the first of the latest images. *)
Theorem find_latest_image_first_max (listing : option (list sftp_attr))
    (remote_folder_path p : string) :
  find_latest_image_in_remote_folder listing remote_folder_path = Some p ->
  exists folder_contents pre attr post,
    listing = Some folder_contents /\
    filter (fun attr => is_image_file (filename attr)) folder_contents = pre ++ attr :: post /\
    p = posix_join remote_folder_path [filename attr] /\
    ((pre = [] /\ post = []) \/
     exists m, st_mtime attr = Some m /\
       Forall (fun b => exists mb, st_mtime b = Some mb /\ (mb < m)%Z) pre /\
       Forall (fun b => exists mb, st_mtime b = Some mb /\ (mb <= m)%Z) post).
Proof. exact (find_latest_image_spec listing remote_folder_path p). Qed.


(** X11: in the report panel of [plot_data], each line drawn is a listed
    report other than ["Y+ maximo"] with a number and as many values as
    [report_times]; each text annotation is for ["Y+ maximo"] and shows
    the last value of its non-empty sequence. *)
Theorem plot_data_report_panel its res rits rts reps cols sftp_client_obj base_remote_dir
    output_filename show_plot_interactively save_ok dirs :
  let '(_, tr, _) := plot_data its res rits rts reps cols sftp_client_obj base_remote_dir
                       output_filename show_plot_interactively save_ok dirs in
  (forall key, In (ReportLine key) tr ->
     In key cols /\ key <> "Y+ maximo"%string /\
     exists values, dict_get key reps = Some values /\ has_number values = true /\
       length values = length rts) /\
  (forall key v, In (LastValueText key v) tr ->
     key = "Y+ maximo"%string /\
     exists values, dict_get key reps = Some values /\ values <> [] /\
       v = last values PNaN).
Proof.
  pose proof (plot_data_events its res rits rts reps cols sftp_client_obj base_remote_dir
                output_filename show_plot_interactively save_ok dirs) as Hev.
  destruct (plot_data _ _ _ _ _ _ _ _ _ _ _ _) as [[dirs' tr] e]; cbn [fst snd] in Hev.
  split.
  - intros key Hin; specialize (Hev _ Hin).
    destruct Hev as [H|[H|[(? & ? & H)|[H|[H|[H|[H|[H|[(? & H)|[H|[H|H]]]]]]]]]]];
      try discriminate.
    + destruct (residual_lines_events _ _ _ H); discriminate.
    + destruct (report_lines_events _ _ _ _ H) as (k & values & Hk & Hin' & Hd & Hn & Hl).
      injection Hk as <-; apply filter_In in Hin' as [Hc Hy].
      simpl in Hy; rewrite orb_false_r in Hy.
      split; auto; split; [intros ->; discriminate|eauto].
    + destruct (text_reports_events _ _ H) as (k & values & Hk & _); discriminate.
    + apply in_map_iff in H as (name & Hn & _).
      destruct (image_panel_kind _ _ _ _ (eq_sym Hn)) as [(p & H)|[H|[H|H]]]; discriminate.
  - intros key v Hin; specialize (Hev _ Hin).
    destruct Hev as [H|[H|[(? & ? & H)|[H|[H|[H|[H|[H|[(? & H)|[H|[H|H]]]]]]]]]]];
      try discriminate.
    + destruct (residual_lines_events _ _ _ H); discriminate.
    + destruct (report_lines_events _ _ _ _ H) as (k & values & Hk & _); discriminate.
    + destruct (text_reports_events _ _ H) as (k & values & Hk & Hin' & Hd & Hne).
      injection Hk as -> ->; destruct Hin' as [<-|[]]; split; eauto.
    + apply in_map_iff in H as (name & Hn & _).
      destruct (image_panel_kind _ _ _ _ (eq_sym Hn)) as [(p & H)|[H|[H|H]]]; discriminate.
Qed.

(** X12: an image shown by [plot_data] is in a panel named ["Pressure"]
    or ["Velocity"], needs an SFTP client and a non-empty base folder, and
    is the folder [base/name] joined with an image entry of its listing
    that has the greatest [st_mtime] and whose download loads. *)
Theorem plot_data_image_shown its res rits rts reps cols sftp_client_obj base_remote_dir
    output_filename show_plot_interactively save_ok dirs :
  let '(_, tr, _) := plot_data its res rits rts reps cols sftp_client_obj base_remote_dir
                       output_filename show_plot_interactively save_ok dirs in
  forall name p, In (ImageShown name p) tr ->
  In name image_subfolders /\
  exists fs folder_contents attr,
    sftp_client_obj = Some fs /\ base_remote_dir <> EmptyString /\
    listdir_attr fs (posix_join base_remote_dir [name]) = Some folder_contents /\
    In attr folder_contents /\ is_image_file (filename attr) = true /\
    p = posix_join (posix_join base_remote_dir [name]) [filename attr] /\
    image_loads fs p = true /\
    Forall (fun b => b = attr \/ exists mb m, st_mtime b = Some mb /\
                                  st_mtime attr = Some m /\ (mb <= m)%Z)
      (filter (fun b => is_image_file (filename b)) folder_contents).
Proof.
  pose proof (plot_data_events its res rits rts reps cols sftp_client_obj base_remote_dir
                output_filename show_plot_interactively save_ok dirs) as Hev.
  destruct (plot_data _ _ _ _ _ _ _ _ _ _ _ _) as [[dirs' tr] e]; cbn [fst snd] in Hev.
  intros name p Hin; specialize (Hev _ Hin).
  destruct Hev as [H|[H|[(? & ? & H)|[H|[H|[H|[H|[H|[(? & H)|[H|[H|H]]]]]]]]]]];
    try discriminate.
  - destruct (residual_lines_events _ _ _ H); discriminate.
  - destruct (report_lines_events _ _ _ _ H) as (k & values & Hk & _); discriminate.
  - destruct (text_reports_events _ _ H) as (k & values & Hk & _); discriminate.
  - apply in_map_iff in H as (name' & Hn & Hname).
    destruct (image_panel_kind _ _ _ _ (eq_sym Hn)) as [(q & H)|[H|[H|H]]];
      rewrite H in Hn; try discriminate.
    injection H as <- <-.
    destruct (image_panel_shown _ _ _ _ Hn) as (fs & Hfs & Hb & Hf & Hl).
    destruct (find_latest_image_spec _ _ _ Hf)
      as (contents & pre & attr & post & Hls & Hfil & Hp & Hmax).
    split; auto; exists fs, contents, attr; repeat split; auto.
    + assert (Ha : In attr (filter (fun b => is_image_file (filename b)) contents))
        by (rewrite Hfil; apply in_or_app; right; left; auto).
      apply filter_In in Ha; tauto.
    + assert (Ha : In attr (filter (fun b => is_image_file (filename b)) contents))
        by (rewrite Hfil; apply in_or_app; right; left; auto).
      apply filter_In in Ha; tauto.
    + rewrite Hfil; destruct Hmax as [[-> ->]|(m & Hm & Hpre & Hpost)].
      * constructor; auto.
      * apply Forall_app; split; [|constructor; [auto|]].
        -- eapply Forall_impl; [|exact Hpre]; intros b (mb & Hb1 & Hb2); right.
           exists mb, m; repeat split; auto; lia.
        -- eapply Forall_impl; [|exact Hpost]; intros b (mb & Hb1 & Hb2); right.
           exists mb, m; auto.
Qed.

Section Loop.

Variables (base_remote_dir_images : string) (reports_to_plot : list string)
  (output_filename : string) (use_key_auth : bool) (ssh_key_path : string).


(** X14: with key authentication, or with a truthy password, the loop
    never prompts for a password and every connection attempt uses the
    same credentials. *)
Theorem monitor_loop_reuses_credentials password dirs envs :
  use_key_auth = true \/ py_truthy password = true ->
  let tr := monitor_loop base_remote_dir_images reports_to_plot output_filename
              use_key_auth ssh_key_path password dirs envs in
  ~ In Prompted tr /\
  forall a, In (Connecting a) tr ->
    a = if use_key_auth then KeyAuth ssh_key_path else PasswordAuth password.
Proof. apply monitor_loop_no_prompt. Qed.

(** X15: with password authentication and a falsy password, the first
    round prompts for the password; a non-empty answer is kept, so the
    user is never prompted again. *)
Theorem monitor_loop_prompt_once password dirs env envs :
  use_key_auth = false -> py_truthy password = false ->
  prompt_answer env <> EmptyString ->
  exists rest,
    monitor_loop base_remote_dir_images reports_to_plot output_filename
      use_key_auth ssh_key_path password dirs (env :: envs) = Prompted :: rest /\
    ~ In Prompted rest.
Proof.
  intros Hu Hp Ha; cbn [monitor_loop].
  pose proof (monitor_round_shape base_remote_dir_images reports_to_plot output_filename
                use_key_auth ssh_key_path password dirs env) as Hsh.
  destruct (monitor_round _ _ _ _ _ password dirs env) as [[[pw' dirs'] evs] go].
  rewrite Hu, Hp in Hsh; destruct Hsh as (-> & _ & body & -> & Hb).
  destruct (body_event_not_prompted _ _ Hb) as [Hbp _].
  assert (Ht : py_truthy (JStr (prompt_answer env)) = true).
  { cbn; apply negb_true_iff, String.eqb_neq; exact Ha. }
  destruct (monitor_loop_no_prompt base_remote_dir_images reports_to_plot output_filename use_key_auth ssh_key_path (JStr (prompt_answer env)) dirs' envs (or_intror Ht))
    as [Hn _].
  cbn [app]; eexists; split; [reflexivity|].
  intros H; destruct H as [H|H]; [discriminate|].
  apply in_app_iff in H as [H|H].
  - apply in_app_iff in H as [H|[H|[]]]; [contradiction|destruct go; discriminate].
  - destruct go; [contradiction|destruct H].
Qed.

(** X16: every plot of the loop comes from a round in which the SSH and
    SFTP connections opened and the log was downloaded and parsed with
    some iterations; it shows the images folder of [monitor_simulation],
    and its trace is the one of [plot_data] on the parsed log, without the
    message for missing data. *)
Theorem monitor_loop_plotted password dirs envs out d ptr :
  In (Plotted out d ptr)
    (monitor_loop base_remote_dir_images reports_to_plot output_filename
       use_key_auth ssh_key_path password dirs envs) ->
  d = base_remote_dir_images /\
  exists env text, In env envs /\ sftp_opens env = true /\
    (exists a, connect env a = Connected) /\ remote_log env = Some text /\
    out = parse_starccm_logfile (Contents text) reports_to_plot /\
    let '(its, res, rits, rts, reps) := out in
    its <> [] /\ ~ In NoDataMsg ptr /\
    exists dirs0 dirs1 e,
      plot_data its res rits rts reps reports_to_plot (Some (remote env))
        base_remote_dir_images (Some output_filename) false (env_save_ok env)
        dirs0 = (dirs1, ptr, e).
Proof.
  revert password dirs; induction envs as [|env envs IH]; intros password dirs;
    [cbn; tauto|].
  cbn [monitor_loop].
  pose proof (monitor_round_plotted base_remote_dir_images reports_to_plot output_filename
                use_key_auth ssh_key_path password dirs env out d ptr) as Hp.
  destruct (monitor_round _ _ _ _ _ password dirs env) as [[[pw' dirs'] evs] go].
  rewrite in_app_iff; intros [H|H].
  - destruct (Hp H) as (-> & Hs & Hc & text & Hr & Ho & Hrest).
    split; [reflexivity|]; exists env, text.
    do 5 (split; [first [left; reflexivity | assumption]|]).
    destruct out as [[[[its res] rits] rts] reps].
    destruct Hrest as (Hne & e & Hpd); split; [exact Hne|]; split.
    + intros Hin.
      pose proof (plot_data_nodata its res rits rts reps reports_to_plot (Some (remote env))
        base_remote_dir_images (Some output_filename) false (env_save_ok env) dirs) as Hnd.
      rewrite Hpd in Hnd; cbn in Hnd; destruct (Hnd Hin); contradiction.
    + eauto.
  - destruct go; [|destruct H].
    destruct (IH pw' dirs' H) as (-> & env' & text & Hin & Hrest).
    split; [reflexivity|]; exists env', text; split; [right; exact Hin|exact Hrest].
Qed.

(** X17: when the directory of [output_filename] is not empty and does
    not exist, [sftp_client.get] cannot create the local copy of the log:
    no round downloads the log or plots. *)
Theorem monitor_loop_missing_dir password dirs envs :
  posix_dirname output_filename <> EmptyString ->
  ~ In (posix_dirname output_filename) dirs ->
  let tr := monitor_loop base_remote_dir_images reports_to_plot output_filename
              use_key_auth ssh_key_path password dirs envs in
  ~ In Downloaded tr /\ forall out d ptr, ~ In (Plotted out d ptr) tr.
Proof.
  intros Hne Hin; revert password; induction envs as [|env envs IH]; intros password;
    [cbn; tauto|].
  cbn [monitor_loop].
  pose proof (monitor_round_missing_dir base_remote_dir_images reports_to_plot
                output_filename use_key_auth ssh_key_path password dirs env Hne Hin) as Hm.
  destruct (monitor_round _ _ _ _ _ password dirs env) as [[[pw' dirs'] evs] go].
  destruct Hm as (-> & Hd & Hp).
  destruct (IH pw') as [IHd IHp]; cbn zeta in *.
  split; [|intros out d ptr]; rewrite in_app_iff; intros [H|H];
    try (eapply Hp; exact H); try contradiction;
    destruct go; try destruct H; [contradiction|eapply IHp; exact H].
Qed.

(** X18: when [output_filename] is a non-empty name with no directory
    part, every call of [plot_data] raises [FileNotFoundError] from
    [os.makedirs("")] before drawing: each plot trace is empty and the
    next event reports the [FileNotFoundError]. *)
Theorem monitor_loop_no_dir_part password dirs envs :
  output_filename <> EmptyString ->
  posix_dirname output_filename = EmptyString ->
  forall pre out d ptr post,
    monitor_loop base_remote_dir_images reports_to_plot output_filename
      use_key_auth ssh_key_path password dirs envs = pre ++ Plotted out d ptr :: post ->
    ptr = [] /\ hd_error post = Some (Failed NotFoundError).
Proof. exact (monitor_loop_no_dir_part_aux base_remote_dir_images reports_to_plot output_filename use_key_auth ssh_key_path password dirs envs). Qed.

End Loop.

(** X19: the script exits listing the available cases iff the case's
    configuration is falsy, and exits listing the missing keys iff the
    case's configuration is a non-empty object lacking some required key;
    the keys are listed in the order of [required_keys]. *)
Theorem main_config_exits all_configs case_name output_dir :
  let r := main_config (ConfigLoaded (JObj all_configs)) case_name output_dir in
  (forall available, r = ExitUnknownCase available <->
     py_truthy (get_or all_configs case_name JNull) = false /\
     available = keys all_configs) /\
  (forall missing, r = ExitIncomplete missing <->
     exists case_config, get_or all_configs case_name JNull = JObj case_config /\
       case_config <> [] /\ missing <> [] /\
       missing = filter (fun key => negb (has_key key case_config)) required_keys).
Proof.
  cbn zeta; unfold main_config.
  destruct (py_truthy (get_or all_configs case_name JNull)) eqn:Et; cbn [negb].
  2:{ split; intros x; split.
      - intros H; injection H as <-; auto.
      - intros [_ ->]; reflexivity.
      - intros H; discriminate H.
      - intros (cc & Ec & Hne & _); rewrite Ec in Et; destruct cc; [contradiction|discriminate]. }
  destruct (get_or all_configs case_name JNull) as [| | | | | |cc] eqn:Ec;
    try (split; intros x; split;
         [intros H; discriminate H|intros [H _]; discriminate H
         |intros H; discriminate H|intros (? & H & _); discriminate H]).
  destruct (forallb _ required_keys) eqn:Ef; cbn [negb].
  - assert (Hc : forall x, match get_or cc "base_dir" JNull, get_or cc "simulation_folder" JNull,
                   get_or cc "logfile" JNull with
                   | JStr b, JStr s, JStr l =>
                     Launch (mkLaunch (get_or cc "user" JNull) (get_or cc "password" JNull)
                       (posix_join b [s; l]) (get_or cc "case_subfolder" JNull)
                       (get_or cc "reports" (JArr []))
                       (posix_join output_dir [("status_" ++ s ++ "_" ++ case_name ++ ".png")%string])
                       (negb (py_truthy (get_or cc "password" JNull))))
                   | _, _, _ => Crash end <> ExitUnknownCase x /\
                 match get_or cc "base_dir" JNull, get_or cc "simulation_folder" JNull,
                   get_or cc "logfile" JNull with
                   | JStr b, JStr s, JStr l =>
                     Launch (mkLaunch (get_or cc "user" JNull) (get_or cc "password" JNull)
                       (posix_join b [s; l]) (get_or cc "case_subfolder" JNull)
                       (get_or cc "reports" (JArr []))
                       (posix_join output_dir [("status_" ++ s ++ "_" ++ case_name ++ ".png")%string])
                       (negb (py_truthy (get_or cc "password" JNull))))
                   | _, _, _ => Crash end <> ExitIncomplete x).
    { intros x; destruct (get_or cc "base_dir" JNull), (get_or cc "simulation_folder" JNull),
        (get_or cc "logfile" JNull); split; discriminate. }
    split; intros x; split.
    + intros H; exfalso; exact (proj1 (Hc x) H).
    + intros [H _]; discriminate H.
    + intros H; exfalso; exact (proj2 (Hc x) H).
    + intros (cc' & H & _ & Hm & ->); injection H as <-.
      apply forallb_false_filter in Hm; congruence.
  - split; intros x; split.
    + intros H; discriminate H.
    + intros [H _]; discriminate H.
    + intros H; injection H as <-.
      exists cc; split; [first [reflexivity|exact Ec]|].
      split; [intros ->; discriminate Et|].
      split; [exact (proj1 (forallb_false_filter _ _) Ef)|reflexivity].
    + intros (cc' & H & _ & _ & ->); injection H as <-; reflexivity.
Qed.

(** X20: when the script launches the monitor, the configuration is an
    object, the case's object has every required key, [base_dir],
    [simulation_folder] and [logfile] are strings, the remote log is
    [join(base_dir, simulation_folder, logfile)], the image is
    [join(output_dir, "status_<simulation_folder>_<case>.png")], the
    password is the configured one, and key authentication is used iff
    that password is falsy. *)
Theorem main_config_launch file case_name output_dir l :
  main_config file case_name output_dir = Launch l ->
  exists all_configs case_config b s lg,
    file = ConfigLoaded (JObj all_configs) /\
    get_or all_configs case_name JNull = JObj case_config /\
    forallb (fun key => has_key key case_config) required_keys = true /\
    get_or case_config "base_dir" JNull = JStr b /\
    get_or case_config "simulation_folder" JNull = JStr s /\
    get_or case_config "logfile" JNull = JStr lg /\
    l_remote_log_path l = posix_join b [s; lg] /\
    l_output_filename l =
      posix_join output_dir [("status_" ++ s ++ "_" ++ case_name ++ ".png")%string] /\
    l_password l = get_or case_config "password" JNull /\
    l_use_key_auth l = negb (py_truthy (l_password l)).
Proof.
  intros H.
  destruct (main_config_launch_inv _ _ _ _ H)
    as (all_configs & cc & b & s & lg & ? & ? & _ & ? & ? & ? & ? & ->).
  exists all_configs, cc, b, s, lg; repeat split; auto.
Qed.

(** X21: launched by the script, [monitor_simulation] never prompts for a
    password: [use_ssh_key = not password] makes [getpass] unreachable,
    and every connection uses the SSH key when the configured password is
    falsy and that password otherwise. *)
Theorem main_monitor_no_prompt file case_name output_dir l reports_to_plot dirs envs tr :
  main_config file case_name output_dir = Launch l ->
  monitor_simulation (l_remote_log_path l) (l_case_subfolder l) reports_to_plot
    (l_output_filename l) (l_use_key_auth l) "~/.ssh/id_rsa" (l_password l) dirs envs
    = Some tr ->
  ~ In Prompted tr /\
  forall a, In (Connecting a) tr ->
    a = if l_use_key_auth l then KeyAuth "~/.ssh/id_rsa" else PasswordAuth (l_password l).
Proof.
  intros H Hm.
  destruct (main_config_launch_inv _ _ _ _ H)
    as (all_configs & cc & b & s & lg & _ & _ & _ & _ & _ & _ & _ & ->); cbn in Hm |- *.
  unfold monitor_simulation in Hm.
  destruct (images_dir _ _) as [d|]; [injection Hm as <-|discriminate].
  apply monitor_loop_no_prompt.
  destruct (py_truthy (get_or cc "password" JNull)); auto.
Qed.

(** X22: launched with an empty output directory ([-o ""]), when the
    image name has no ["/"], every plot of the monitor fails with
    [FileNotFoundError] before drawing. *)
Theorem main_empty_output_dir file case_name l reports_to_plot dirs envs tr :
  main_config file case_name EmptyString = Launch l ->
  forallb (fun c => negb (is_slash c)) (list_ascii_of_string (l_output_filename l)) = true ->
  monitor_simulation (l_remote_log_path l) (l_case_subfolder l) reports_to_plot
    (l_output_filename l) (l_use_key_auth l) "~/.ssh/id_rsa" (l_password l) dirs envs
    = Some tr ->
  forall pre out d ptr post, tr = pre ++ Plotted out d ptr :: post ->
    ptr = [] /\ hd_error post = Some (Failed NotFoundError).
Proof.
  intros H Hns Hm.
  destruct (main_config_launch_inv _ _ _ _ H)
    as (all_configs & cc & b & s & lg & _ & _ & _ & _ & _ & _ & _ & ->);
  cbn [l_output_filename l_remote_log_path l_case_subfolder l_use_key_auth l_password] in Hns, Hm.
  set (name := ("status_" ++ s ++ "_" ++ case_name ++ ".png")%string) in *.
  assert (Hj : posix_join EmptyString [name] = name).
  { unfold posix_join; cbn; unfold join_step; destruct (String.prefix "/" name); reflexivity. }
  assert (Hne : name <> EmptyString) by discriminate.
  rewrite Hj in Hns, Hm.
  assert (Hdn : posix_dirname name = EmptyString).
  { rewrite <- Hj at 1; apply posix_dirname_join_no_slash; [reflexivity|exact Hne|exact Hns]. }
  unfold monitor_simulation in Hm.
  destruct (images_dir _ _) as [dimg|]; [injection Hm as <-|discriminate].
  apply monitor_loop_no_dir_part_aux; assumption.
Qed.

(** ** Instances of the properties *)

(** [posix_dirname_join] on ["/a"] and ["b.log"]. *)
Lemma posix_dirname_join_witness :
  ends_with "/a" "/" = false /\ "b.log"%string <> EmptyString /\
  forallb (fun c => negb (is_slash c)) (list_ascii_of_string "b.log") = true /\
  posix_dirname (posix_join "/a" ["b.log"%string]) = "/a"%string.
Proof.
  split; [vm_compute; reflexivity|]; split; [discriminate|];
    split; [vm_compute; reflexivity|].
  apply (posix_dirname_join "/a" "b.log"); [vm_compute; reflexivity|discriminate|
    vm_compute; reflexivity].
Defined.

(** [find_latest_image_first_max] on [demo_listing]: ["c.JPG"] is an
    image too, and the latest. *)
Lemma find_latest_image_first_max_witness :
  find_latest_image_in_remote_folder (Some demo_listing) "/img" = Some "/img/c.JPG"%string /\
  exists folder_contents pre attr post,
    Some demo_listing = Some folder_contents /\
    filter (fun attr => is_image_file (filename attr)) folder_contents = pre ++ attr :: post /\
    "/img/c.JPG"%string = posix_join "/img" [filename attr] /\
    ((pre = [] /\ post = []) \/
     exists m, st_mtime attr = Some m /\
       Forall (fun b => exists mb, st_mtime b = Some mb /\ (mb < m)%Z) pre /\
       Forall (fun b => exists mb, st_mtime b = Some mb /\ (mb <= m)%Z) post).
Proof.
  split; [vm_compute; reflexivity|].
  apply (find_latest_image_first_max (Some demo_listing) "/img" "/img/c.JPG").
  vm_compute; reflexivity.
Defined.

(** [monitor_loop_reuses_credentials] with a configured password and two
    rounds. *)
Lemma monitor_loop_reuses_credentials_witness :
  (false = true \/ py_truthy (JStr "pw") = true) /\
  let tr := monitor_loop "/r/img" ["Drag"%string] "out/s.png" false "~/.ssh/id_rsa"
              (JStr "pw") ["out"%string] [connected_round ""; connected_round ""] in
  ~ In Prompted tr /\
  forall a, In (Connecting a) tr -> a = PasswordAuth (JStr "pw").
Proof.
  split; [right; reflexivity|].
  apply (monitor_loop_reuses_credentials "/r/img" ["Drag"%string] "out/s.png" false
           "~/.ssh/id_rsa" (JStr "pw") ["out"%string]
           [connected_round ""; connected_round ""]).
  right; reflexivity.
Defined.

(** [monitor_loop_prompt_once] with no configured password and the answer
    ["secret"]. *)
Lemma monitor_loop_prompt_once_witness :
  false = false /\ py_truthy JNull = false /\
  prompt_answer (connected_round "secret") <> EmptyString /\
  exists rest,
    monitor_loop "/r/img" ["Drag"%string] "out/s.png" false "~/.ssh/id_rsa" JNull
      ["out"%string] [connected_round "secret"; connected_round ""] = Prompted :: rest /\
    ~ In Prompted rest.
Proof.
  split; [reflexivity|]; split; [reflexivity|]; split; [discriminate|].
  apply (monitor_loop_prompt_once "/r/img" ["Drag"%string] "out/s.png" false
           "~/.ssh/id_rsa" JNull ["out"%string] (connected_round "secret")
           [connected_round ""]); [reflexivity|reflexivity|discriminate].
Defined.

(** [monitor_loop_plotted] on the plot of a round that reads [demo_log]. *)
Lemma monitor_loop_plotted_witness :
  let out := parse_starccm_logfile (Contents demo_log) ["Drag"%string] in
  exists ptr,
  In (Plotted out "/r/img" ptr)
    (monitor_loop "/r/img" ["Drag"%string] "out/s.png" false "~/.ssh/id_rsa"
       (JStr "pw") ["out"%string] [connected_round ""]) /\
  "/r/img"%string = "/r/img"%string /\
  exists env text, In env [connected_round ""] /\ sftp_opens env = true /\
    (exists a, connect env a = Connected) /\ remote_log env = Some text /\
    out = parse_starccm_logfile (Contents text) ["Drag"%string] /\
    let '(its, res, rits, rts, reps) := out in
    its <> [] /\ ~ In NoDataMsg ptr /\
    exists dirs0 dirs1 e,
      plot_data its res rits rts reps ["Drag"%string] (Some (remote env))
        "/r/img" (Some "out/s.png"%string) false (env_save_ok env)
        dirs0 = (dirs1, ptr, e).
Proof.
  intros out.
  set (tr := monitor_loop "/r/img" ["Drag"%string] "out/s.png" false "~/.ssh/id_rsa"
               (JStr "pw") ["out"%string] [connected_round ""]).
  assert (Hin : In (nth 2 tr Stopped) tr).
  { apply nth_In; vm_compute; lia. }
  destruct (nth 2 tr Stopped) as [| | | |out' d ptr| | | | |] eqn:E;
    try (vm_compute in E; discriminate E).
  assert (Hout : out' = out /\ d = "/r/img"%string).
  { vm_compute in E; injection E as E1 E2 _; split; [rewrite <- E1|rewrite <- E2];
      vm_compute; reflexivity. }
  destruct Hout as [-> ->].
  exists ptr; split; [exact Hin|].
  apply (monitor_loop_plotted "/r/img" ["Drag"%string] "out/s.png" false "~/.ssh/id_rsa"
           (JStr "pw") ["out"%string] [connected_round ""] out "/r/img" ptr).
  exact Hin.
Defined.

(** [monitor_loop_missing_dir] when the directory ["out"] is missing. *)
Lemma monitor_loop_missing_dir_witness :
  posix_dirname "out/s.png" <> EmptyString /\ ~ In (posix_dirname "out/s.png") [] /\
  let tr := monitor_loop "/r/img" ["Drag"%string] "out/s.png" false "~/.ssh/id_rsa"
              (JStr "pw") [] [connected_round ""; connected_round ""] in
  ~ In Downloaded tr /\ forall out d ptr, ~ In (Plotted out d ptr) tr.
Proof.
  split; [vm_compute; discriminate|]; split; [intros []|].
  apply (monitor_loop_missing_dir "/r/img" ["Drag"%string] "out/s.png" false
           "~/.ssh/id_rsa" (JStr "pw") [] [connected_round ""; connected_round ""]);
    [vm_compute; discriminate|intros []].
Defined.

(** [monitor_loop_no_dir_part] with the output file ["s.png"]. *)
Lemma monitor_loop_no_dir_part_witness :
  "s.png"%string <> EmptyString /\ posix_dirname "s.png" = EmptyString /\
  forall pre out d ptr post,
    monitor_loop "/r/img" ["Drag"%string] "s.png" false "~/.ssh/id_rsa"
      (JStr "pw") [] [connected_round ""] = pre ++ Plotted out d ptr :: post ->
    ptr = [] /\ hd_error post = Some (Failed NotFoundError).
Proof.
  split; [discriminate|]; split; [vm_compute; reflexivity|].
  apply (monitor_loop_no_dir_part "/r/img" ["Drag"%string] "s.png" false
           "~/.ssh/id_rsa" (JStr "pw") [] [connected_round ""]);
    [discriminate|vm_compute; reflexivity].
Defined.

(** [main_config_launch] on [demo_config]. *)
Lemma main_config_launch_witness :
  main_config (ConfigLoaded demo_config) "case1" "out" =
    Launch (demo_launch "out/status_sim_case1.png") /\
  exists all_configs case_config b s lg,
    ConfigLoaded demo_config = ConfigLoaded (JObj all_configs) /\
    get_or all_configs "case1" JNull = JObj case_config /\
    forallb (fun key => has_key key case_config) required_keys = true /\
    get_or case_config "base_dir" JNull = JStr b /\
    get_or case_config "simulation_folder" JNull = JStr s /\
    get_or case_config "logfile" JNull = JStr lg /\
    l_remote_log_path (demo_launch "out/status_sim_case1.png") = posix_join b [s; lg] /\
    l_output_filename (demo_launch "out/status_sim_case1.png") =
      posix_join "out" [("status_" ++ s ++ "_" ++ "case1" ++ ".png")%string] /\
    l_password (demo_launch "out/status_sim_case1.png") =
      get_or case_config "password" JNull /\
    l_use_key_auth (demo_launch "out/status_sim_case1.png") =
      negb (py_truthy (l_password (demo_launch "out/status_sim_case1.png"))).
Proof.
  split; [vm_compute; reflexivity|].
  apply (main_config_launch (ConfigLoaded demo_config) "case1" "out"
           (demo_launch "out/status_sim_case1.png")).
  vm_compute; reflexivity.
Defined.

(** [main_monitor_no_prompt] on [demo_config], with a round whose
    credentials are refused. *)
Lemma main_monitor_no_prompt_witness :
  let l := demo_launch "out/status_sim_case1.png" in
  let tr := [Connecting (PasswordAuth (JStr "pw")); Failed AuthError; SshClosed; Stopped] in
  main_config (ConfigLoaded demo_config) "case1" "out" = Launch l /\
  monitor_simulation (l_remote_log_path l) (l_case_subfolder l) ["Drag"%string]
    (l_output_filename l) (l_use_key_auth l) "~/.ssh/id_rsa" (l_password l) ["out"%string]
    [rejected_round; connected_round ""] = Some tr /\
  ~ In Prompted tr /\
  forall a, In (Connecting a) tr ->
    a = if l_use_key_auth l then KeyAuth "~/.ssh/id_rsa" else PasswordAuth (l_password l).
Proof.
  intros l tr; split; [vm_compute; reflexivity|]; split; [vm_compute; reflexivity|].
  apply (main_monitor_no_prompt (ConfigLoaded demo_config) "case1" "out" l ["Drag"%string]
           ["out"%string] [rejected_round; connected_round ""] tr);
    vm_compute; reflexivity.
Defined.

(** [main_empty_output_dir] on [demo_config] with [-o ""]. *)
Lemma main_empty_output_dir_witness :
  let l := demo_launch "status_sim_case1.png" in
  let tr := monitor_loop "/data/sim" ["Drag"%string] "status_sim_case1.png" false
              "~/.ssh/id_rsa" (JStr "pw") [] [connected_round ""] in
  main_config (ConfigLoaded demo_config) "case1" "" = Launch l /\
  forallb (fun c => negb (is_slash c)) (list_ascii_of_string (l_output_filename l)) = true /\
  monitor_simulation (l_remote_log_path l) (l_case_subfolder l) ["Drag"%string]
    (l_output_filename l) (l_use_key_auth l) "~/.ssh/id_rsa" (l_password l) []
    [connected_round ""] = Some tr /\
  forall pre out d ptr post, tr = pre ++ Plotted out d ptr :: post ->
    ptr = [] /\ hd_error post = Some (Failed NotFoundError).
Proof.
  intros l tr; split; [vm_compute; reflexivity|]; split; [vm_compute; reflexivity|];
    split; [vm_compute; reflexivity|].
  apply (main_empty_output_dir (ConfigLoaded demo_config) "case1" l ["Drag"%string] []
           [connected_round ""] tr); vm_compute; reflexivity.
Defined.
